(** * tap-freshdesk: the sync engine of [tap_freshdesk/__init__.py]

    A shallow embedding of the incremental extraction engine: the request
    executor ([request]), the paginator ([gen_request]), the watermark
    helpers ([get_start], [update_state]), the custom-field transform
    ([transform_dict]) and the two traversal strategies
    ([sync_tickets_by_filter], [sync_time_filtered]) with their driver
    ([do_sync]).

    Python objects are modelled by the inductive [value]; a Python [dict]
    is an association list in insertion order with unique keys; the
    process-wide [STATE] dictionary is threaded explicitly, and every
    call to an external collaborator (the HTTP session, the singer record
    sink, [utils.update_state]) is recorded as an [event] of the run. *)

From Stdlib Require Import List ZArith Bool Ascii String Lia DecimalString Sorted.
Import ListNotations.

Local Open Scope string_scope.
Local Open Scope Z_scope.

(* ================================================================== *)
(** * Python values *)
(* ================================================================== *)

Module Py.

(** JSON-shaped Python objects.  Numbers are modelled at the integers
    ([float] is outside the model) and a character of a [str] is a code
    point below 256. *)
#[warnings="-register-all"]
Inductive value : Type :=
| VNone
| VBool (b : bool)
| VInt (z : Z)
| VStr (s : string)
| VList (l : list value)
| VDict (d : list (string * value)).

(** A [dict]: keys in insertion order. *)
Definition dict := list (string * value).

(** The exceptions the engine can meet.  [HTTPError] carries the status
    code and the body of the response it was raised for. *)
Inductive exn : Type :=
| KeyError (key : string)
| TypeError
| AttributeError
| ValueError
| HTTPError (status_code : Z) (content : string)
| ConnectionError
| SystemExit (code : Z)
| OverflowError.

(** The result of evaluating an expression or statement: a value, a
    raised exception, or [Fuel] when the bound on loop iterations given to
    the model is exhausted (not an exception: no handler sees it). *)
Inductive result (A : Type) : Type :=
| Ok (a : A)
| Raise (e : exn)
| Fuel.
Arguments Ok {A} a.
Arguments Raise {A} e.
Arguments Fuel {A}.

(** ** Dictionaries *)

(** [k in d] and [d[k]]. *)
Fixpoint dict_get (d : dict) (k : string) : option value :=
  match d with
  | [] => None
  | (k', v) :: d' => if String.eqb k k' then Some v else dict_get d' k
  end.

Definition dict_mem (d : dict) (k : string) : bool :=
  match dict_get d k with Some _ => true | None => false end.

(** [d[k] = v]: overwrites in place, or appends a new key. *)
Fixpoint dict_set (d : dict) (k : string) (v : value) : dict :=
  match d with
  | [] => [(k, v)]
  | (k', v') :: d' =>
      if String.eqb k k' then (k', v) :: d' else (k', v') :: dict_set d' k v
  end.

(** [d.pop(k, None)], keeping only the dictionary. *)
Fixpoint dict_pop (d : dict) (k : string) : dict :=
  match d with
  | [] => []
  | (k', v') :: d' =>
      if String.eqb k k' then d' else (k', v') :: dict_pop d' k
  end.

(** A dict display [{k1: v1, k2: v2, ...}]. *)
Definition dict_lit (kvs : list (string * value)) : dict :=
  fold_left (fun d kv => dict_set d (fst kv) (snd kv)) kvs [].

Definition keys (d : dict) : list string := map fst d.

(** [v[k]] for a string key [k]. *)
Definition subscript (v : value) (k : string) : result value :=
  match v with
  | VDict d =>
      match dict_get d k with
      | Some x => Ok x
      | None => Raise (KeyError k)
      end
  | _ => Raise TypeError
  end.

(** ** [str], [repr] and [str.lower] *)

Definition str_of_Z (z : Z) : string := NilZero.string_of_int (Z.to_int z).

Definition hex_digit (n : N) : ascii :=
  if (n <? 10)%N then ascii_of_N (48 + n) else ascii_of_N (87 + n).

Definition hex_escape (c : ascii) : string :=
  let n := N_of_ascii c in
  String "\" (String "x" (String (hex_digit (n / 16)) (String (hex_digit (n mod 16)) ""))).

(** The code points below 256 that [repr] escapes. *)
Definition printable (c : ascii) : bool :=
  let n := N_of_ascii c in
  ((32 <=? n) && (n <? 127) || (161 <=? n) && negb (n =? 173))%N.

Fixpoint contains_char (c : ascii) (s : string) : bool :=
  match s with
  | EmptyString => false
  | String c' s' => Ascii.eqb c c' || contains_char c s'
  end.

Definition repr_char (quote c : ascii) : string :=
  if Ascii.eqb c quote || Ascii.eqb c "\"%char then String "\" (String c "")
  else if Ascii.eqb c "009"%char then "\t"
  else if Ascii.eqb c "010"%char then "\n"
  else if Ascii.eqb c "013"%char then "\r"
  else if printable c then String c ""
  else hex_escape c.

Fixpoint repr_chars (quote : ascii) (s : string) : string :=
  match s with
  | EmptyString => EmptyString
  | String c s' => repr_char quote c ++ repr_chars quote s'
  end.

Definition repr_str (s : string) : string :=
  let quote :=
    if contains_char "'"%char s && negb (contains_char "034"%char s)
    then "034"%char else "'"%char in
  String quote (repr_chars quote s ++ String quote "").

Fixpoint repr (v : value) : string :=
  match v with
  | VNone => "None"
  | VBool true => "True"
  | VBool false => "False"
  | VInt z => str_of_Z z
  | VStr s => repr_str s
  | VList l => "[" ++ String.concat ", " (map repr l) ++ "]"
  | VDict d =>
      "{" ++ String.concat ", "
               (map (fun kv => repr_str (fst kv) ++ ": " ++ repr (snd kv)) d)
          ++ "}"
  end.

(** [str(v)]. *)
Definition str (v : value) : string :=
  match v with
  | VStr s => s
  | _ => repr v
  end.

(** [c.lower()] on the code points below 256: A-Z and the accented capitals
    0xC0-0xDE (0xD7, the multiplication sign, apart). *)
Definition lower_char (c : ascii) : ascii :=
  let n := N_of_ascii c in
  if ((65 <=? n) && (n <=? 90) || (192 <=? n) && (n <=? 222) && negb (n =? 215))%N
  then ascii_of_N (n + 32) else c.

Fixpoint lower (s : string) : string :=
  match s with
  | EmptyString => EmptyString
  | String c s' => String (lower_char c) (lower s')
  end.

(** ** Comparisons *)

Definition as_number (v : value) : option Z :=
  match v with
  | VInt z => Some z
  | VBool true => Some 1
  | VBool false => Some 0
  | _ => None
  end.

(** [a == b]. *)
Fixpoint eq (a b : value) : bool :=
  match a, b with
  | VNone, VNone => true
  | VStr s, VStr t => String.eqb s t
  | VList l, VList m =>
      (fix go (l m : list value) : bool :=
         match l, m with
         | [], [] => true
         | x :: l', y :: m' => eq x y && go l' m'
         | _, _ => false
         end) l m
  | VDict d, VDict e =>
      Nat.eqb (List.length d) (List.length e) &&
      (fix go (d : list (string * value)) : bool :=
         match d with
         | [] => true
         | (k, v) :: d' =>
             match dict_get e k with
             | Some w => eq v w
             | None => false
             end && go d'
         end) d
  | _, _ =>
      match as_number a, as_number b with
      | Some x, Some y => x =? y
      | _, _ => false
      end
  end.

(** [a >= b]: defined between two [str] (by code point), two numbers and
    two lists; a [TypeError] otherwise. *)
Fixpoint ge (a b : value) : result bool :=
  match a, b with
  | VStr s, VStr t => Ok (String.leb t s)
  | VList l, VList m =>
      (fix go (l m : list value) : result bool :=
         match l, m with
         | x :: l', y :: m' => if eq x y then go l' m' else ge x y
         | [], _ :: _ => Ok false
         | _, [] => Ok true
         end) l m
  | _, _ =>
      match as_number a, as_number b with
      | Some x, Some y => Ok (y <=? x)
      | _, _ => Raise TypeError
      end
  end.

(** Truth value of an object. *)
Definition truthy (v : value) : bool :=
  match v with
  | VNone => false
  | VBool b => b
  | VInt z => negb (z =? 0)
  | VStr s => negb (String.eqb s "")
  | VList l => match l with [] => false | _ => true end
  | VDict d => match d with [] => false | _ => true end
  end.

End Py.
Import Py.


(* ================================================================== *)
(** * Effects: the watermark store and the events of a run *)
(* ================================================================== *)

(** What a run does to the outside world, in order. *)
Inductive event : Type :=
| EvRequest (url : string) (params : dict)        (* request(url, params) *)
| EvWriteSchema (stream : string)                 (* singer.write_schema *)
| EvUpdateState (entity : string) (dt : value)    (* utils.update_state(STATE, entity, dt) *)
| EvWriteRecord (stream : string) (record : value) (* singer.write_record *)
| EvWriteState (state : dict).                    (* singer.write_state(STATE) *)

(** A statement: from the contents of the global [STATE] to its result,
    the new contents of [STATE] and the events it produced. *)
Definition M (A : Type) : Type := dict -> result A * dict * list event.

Definition ret {A} (a : A) : M A := fun st => (Ok a, st, []).

Definition bind {A B} (m : M A) (f : A -> M B) : M B :=
  fun st =>
    match m st with
    | (Ok a, st1, tr1) =>
        match f a st1 with
        | (r, st2, tr2) => (r, st2, (tr1 ++ tr2)%list)
        end
    | (Raise e, st1, tr1) => (Raise e, st1, tr1)
    | (Fuel, st1, tr1) => (Fuel, st1, tr1)
    end.

Definition raise {A} (e : exn) : M A := fun st => (Raise e, st, []).

Definition lift {A} (r : result A) : M A := fun st => (r, st, []).

Definition emit (e : event) : M unit := fun st => (Ok tt, st, [e]).

Definition read_state : M dict := fun st => (Ok st, st, []).

Declare Scope py_scope.
Delimit Scope py_scope with py.
Notation "x <- m ;; k" := (bind m (fun x => k))
  (at level 100, m at next level, right associativity) : py_scope.
Notation "m ;; k" := (bind m (fun _ => k))
  (at level 100, right associativity) : py_scope.
Local Open Scope py_scope.

(** [try: m  except HTTPError as e: handler]. *)
Definition try_except_HTTPError (m : M unit) (handler : Z -> string -> M unit) : M unit :=
  fun st =>
    match m st with
    | (Raise (HTTPError status content), st1, tr1) =>
        match handler status content st1 with
        | (r, st2, tr2) => (r, st2, (tr1 ++ tr2)%list)
        end
    | other => other
    end.

(** The three projections of a run. *)
Definition outcome {A} (x : result A * dict * list event) : result A := fst (fst x).
Definition final_state {A} (x : result A * dict * list event) : dict := snd (fst x).
Definition trace {A} (x : result A * dict * list event) : list event := snd x.

(** The records handed to the sink under [stream], in order. *)
Fixpoint records_of (stream : string) (tr : list event) : list value :=
  match tr with
  | [] => []
  | EvWriteRecord s r :: tr' =>
      if String.eqb s stream then r :: records_of stream tr' else records_of stream tr'
  | _ :: tr' => records_of stream tr'
  end.

(** Every record handed to the sink, with its stream. *)
Fixpoint written (tr : list event) : list (string * value) :=
  match tr with
  | [] => []
  | EvWriteRecord s r :: tr' => (s, r) :: written tr'
  | _ :: tr' => written tr'
  end.

(** The values passed to [utils.update_state] for [entity], in order. *)
Fixpoint advances (entity : string) (tr : list event) : list value :=
  match tr with
  | [] => []
  | EvUpdateState e dt :: tr' =>
      if String.eqb e entity then dt :: advances entity tr' else advances entity tr'
  | _ :: tr' => advances entity tr'
  end.

(** The requests issued, in order. *)
Fixpoint requests (tr : list event) : list (string * dict) :=
  match tr with
  | [] => []
  | EvRequest u p :: tr' => (u, p) :: requests tr'
  | _ :: tr' => requests tr'
  end.

(* ================================================================== *)
(** * Configuration, endpoints, watermark helpers *)
(* ================================================================== *)

Definition PER_PAGE : Z := 100.

(** [CONFIG] once [main_impl] has filled it: [utils.parse_args] refuses a
    configuration without one of [REQUIRED_CONFIG_KEYS], so these three are
    fields; the optional keys are options. *)
Record config : Type := {
  api_key : value;
  domain : value;
  start_date : value;
  user_agent : option value;
  streams : option value
}.

(** An endpoint template: literal text and [{name}] replacement fields. *)
Inductive segment : Type :=
| Lit (s : string)
| Field (name : string).

Definition endpoints : list (string * list segment) :=
  [ ("tickets", [Lit "/api/v2/tickets"]);
    ("sub_ticket", [Lit "/api/v2/tickets/"; Field "id"; Lit "/"; Field "entity"]);
    ("agents", [Lit "/api/v2/agents"]);
    ("roles", [Lit "/api/v2/roles"]);
    ("groups", [Lit "/api/v2/groups"]);
    ("companies", [Lit "/api/v2/companies"]);
    ("contacts", [Lit "/api/v2/contacts"]) ].

Fixpoint lookup_endpoint (l : list (string * list segment)) (k : string)
  : option (list segment) :=
  match l with
  | [] => None
  | (k', t) :: l' => if String.eqb k k' then Some t else lookup_endpoint l' k
  end.

(** [template.format] with keyword arguments [kwargs]. *)
Fixpoint format (t : list segment) (kwargs : dict) : result string :=
  match t with
  | [] => Ok ""
  | Lit s :: t' =>
      match format t' kwargs with
      | Ok r => Ok (s ++ r)
      | other => other
      end
  | Field n :: t' =>
      match dict_get kwargs n with
      | None => Raise (KeyError n)
      | Some v =>
          match format t' kwargs with
          | Ok r => Ok (str v ++ r)
          | other => other
          end
      end
  end.

Definition BASE_URL (d : value) : string :=
  "https://" ++ str d ++ ".freshdesk.com".

Definition get_url (CONFIG : config) (endpoint : string) (kwargs : dict) : result string :=
  match lookup_endpoint endpoints endpoint with
  | None => Raise (KeyError endpoint)
  | Some t =>
      match format t kwargs with
      | Ok path => Ok (BASE_URL (domain CONFIG) ++ path)
      | other => other
      end
  end.

Definition get_start (CONFIG : config) (STATE : dict) (entity : string) : value :=
  if negb (dict_mem STATE entity) then
    if existsb (String.eqb entity) ["contacts"; "companies"; "agents"]
    then VStr "1970-01-01T00:00:00Z"
    else start_date CONFIG
  else
    match dict_get STATE entity with
    | Some v => v
    | None => VNone (* not reached: the key is in STATE *)
    end.

(** Modelled from the spec: [utils.update_state], whose module is not among
    the sources.  "advance(namespace, timestamp): unconditionally overwrites
    the stored watermark for that namespace with the given value". *)
Definition update_state (STATE : dict) (entity : string) (dt : value) : dict :=
  dict_set STATE entity dt.

(* ================================================================== *)
(** * Entity transform *)
(* ================================================================== *)

Fixpoint transform_items (items : list (string * value))
    (key_key value_key : string) (force_str : bool) : list value :=
  match items with
  | [] => []
  | (k, v) :: rest =>
      let v := if force_str then VStr (lower (str v)) else v in
      VDict (dict_lit [(key_key, VStr k); (value_key, v)])
        :: transform_items rest key_key value_key force_str
  end.

(** [transform_dict(d, key_key, value_key, force_str)]; [d.items()] exists
    for a [dict] only. *)
Definition transform_dict (d : value) (key_key value_key : string) (force_str : bool)
  : result value :=
  match d with
  | VDict items => Ok (VList (transform_items items key_key value_key force_str))
  | _ => Raise AttributeError
  end.

(* ================================================================== *)
(** * Paginator and orchestrator *)
(* ================================================================== *)

(** What a generator does until it is exhausted: the requests it issues
    and the rows it yields, in order, and how it ends ([Ok tt] for a normal
    end, [Raise e] for an exception raised inside it). *)
Inductive gen_item : Type :=
| GRequest (url : string) (params : dict)
| GYield (row : value).

Definition generator : Type := list gen_item * result unit.

Fixpoint yielded (items : list gen_item) : list value :=
  match items with
  | [] => []
  | GYield row :: items' => row :: yielded items'
  | GRequest _ _ :: items' => yielded items'
  end.

Fixpoint issued (items : list gen_item) : list (string * dict) :=
  match items with
  | [] => []
  | GRequest u p :: items' => (u, p) :: issued items'
  | GYield _ :: items' => issued items'
  end.

(** [for row in g: body(row)]: the generator runs up to its next [yield],
    then the body runs; an exception of either ends the loop. *)
Fixpoint for_each_items (items : list gen_item) (fin : result unit)
    (body : value -> M unit) : M unit :=
  match items with
  | [] => lift fin
  | GRequest u p :: items' =>
      emit (EvRequest u p) ;; for_each_items items' fin body
  | GYield row :: items' =>
      body row ;; for_each_items items' fin body
  end.

Definition for_each (g : generator) (body : value -> M unit) : M unit :=
  for_each_items (fst g) (snd g) body.

Section Sync.

(** The configuration of the run. *)
Variable CONFIG : config.

(** [request(url, params).json()] against the upstream API: the rows of
    the page, or the exception the request executor ends with.  The
    upstream data does not change during a run. *)
Variable request : string -> dict -> result (list value).

(** The [while True] loop of [gen_request], [fuel] bounding the number of
    pages. *)
Fixpoint gen_request_loop (fuel : nat) (url : string) (params : dict) (page : Z)
  : generator :=
  match fuel with
  | O => ([], Fuel)
  | S fuel' =>
      let params := dict_set params "page" (VInt page) in
      match request url params with
      | Ok data =>
          let items := GRequest url params :: map GYield data in
          if Z.of_nat (List.length data) =? PER_PAGE then
            let (rest, fin) := gen_request_loop fuel' url params (page + 1) in
            ((items ++ rest)%list, fin)
          else (items, Ok tt)
      | Raise e => ([GRequest url params], Raise e)
      | Fuel => ([GRequest url params], Fuel)
      end
  end.

Definition gen_request (fuel : nat) (url : string) (params : option dict) : generator :=
  let params := match params with
                | Some ((_ :: _) as p) => p
                | _ => []                       (* params or {} *)
                end in
  let params := dict_set params "per_page" (VInt PER_PAGE) in
  gen_request_loop fuel url params 1.

(** [row[k]] on a row known to be a [dict]. *)
Definition getitem (d : dict) (k : string) : M value :=
  match dict_get d k with
  | Some v => ret v
  | None => raise (KeyError k)
  end.

(** A row is first used as [row[key]] with a [str] key, which raises
    [TypeError] unless the row is a [dict]. *)
Definition as_dict (row : value) : M dict :=
  match row with
  | VDict d => ret d
  | _ => raise TypeError
  end.

Definition write_record (stream : string) (record : dict) : M unit :=
  emit (EvWriteRecord stream (VDict record)).

Definition write_schema (stream : string) : M unit :=
  emit (EvWriteSchema stream).

Definition write_state : M unit :=
  fun st => (Ok tt, st, [EvWriteState st]).

Definition do_update_state (entity : string) (dt : value) : M unit :=
  fun st => (Ok tt, update_state st entity dt, [EvUpdateState entity dt]).

(** Lines 170-180: the conversations of one ticket. *)
Definition sync_conversations (fuel : nat) (bookmark_property : string)
    (start id : value) : M unit :=
  try_except_HTTPError
    (url <- lift (get_url CONFIG "sub_ticket"
                    (dict_lit [("id", id); ("entity", VStr "conversations")])) ;;
     for_each (gen_request fuel url None) (fun subrow =>
       subrow <- as_dict subrow ;;
       b <- getitem subrow bookmark_property ;;
       keep <- lift (ge b start) ;;
       if keep : bool then write_record "conversations" subrow else ret tt))
    (fun status content =>
       if status =? 403 then ret tt else raise (HTTPError status content)).

(** Lines 182-192: the satisfaction ratings of one ticket. *)
Definition sync_satisfaction_ratings (fuel : nat) (bookmark_property : string)
    (start id : value) : M unit :=
  try_except_HTTPError
    (url <- lift (get_url CONFIG "sub_ticket"
                    (dict_lit [("id", id); ("entity", VStr "satisfaction_ratings")])) ;;
     for_each (gen_request fuel url None) (fun subrow =>
       subrow <- as_dict subrow ;;
       ratings <- getitem subrow "ratings" ;;
       ratings <- lift (transform_dict ratings "question" "value" false) ;;
       let subrow := dict_set subrow "ratings" ratings in
       b <- getitem subrow bookmark_property ;;
       keep <- lift (ge b start) ;;
       if keep : bool then write_record "satisfaction_ratings" subrow else ret tt))
    (fun status content =>
       if status =? 403 then ret tt else raise (HTTPError status content)).

(** Lines 194-208: the time entries of one ticket. *)
Definition sync_time_entries (fuel : nat) (bookmark_property : string)
    (start id : value) : M unit :=
  try_except_HTTPError
    (url <- lift (get_url CONFIG "sub_ticket"
                    (dict_lit [("id", id); ("entity", VStr "time_entries")])) ;;
     for_each (gen_request fuel url None) (fun subrow =>
       subrow <- as_dict subrow ;;
       b <- getitem subrow bookmark_property ;;
       keep <- lift (ge b start) ;;
       if keep : bool then write_record "time_entries" subrow else ret tt))
    (fun status content =>
       if status =? 403 then ret tt
       else if status =? 404 then ret tt
       else raise (HTTPError status content)).

(** Lines 163-212: the body of the loop over the tickets.  [row['id']] is
    read once: the key is never removed, so the later reads give the same
    object. *)
Definition sync_ticket (fuel : nat) (bookmark_property : string)
    (start : value) (state_entity : string) (row : value) : M unit :=
  let endpoint := "tickets" in
  row <- as_dict row ;;
  id <- getitem row "id" ;;
  let row := dict_pop row "attachments" in
  custom_fields <- getitem row "custom_fields" ;;
  custom_fields <- lift (transform_dict custom_fields "name" "value" true) ;;
  let row := dict_set row "custom_fields" custom_fields in
  sync_conversations fuel bookmark_property start id ;;
  sync_satisfaction_ratings fuel bookmark_property start id ;;
  sync_time_entries fuel bookmark_property start id ;;
  b <- getitem row bookmark_property ;;
  do_update_state state_entity b ;;
  write_record endpoint row ;;
  write_state.

Definition is_true_str (s : option string) : bool :=
  match s with
  | Some f => negb (String.eqb f "")
  | None => false
  end.

Definition sync_tickets_by_filter (fuel : nat) (bookmark_property : string)
    (predefined_filter : option string) : M unit :=
  let endpoint := "tickets" in
  let state_entity :=
    match predefined_filter with
    | Some f => if is_true_str predefined_filter then endpoint ++ "_" ++ f else endpoint
    | None => endpoint
    end in
  STATE <- read_state ;;
  let start := get_start CONFIG STATE state_entity in
  let params := dict_lit [ ("updated_since", start);
                           ("order_by", VStr bookmark_property);
                           ("order_type", VStr "asc");
                           ("include", VStr "requester,company,stats,description") ] in
  let params :=
    match predefined_filter with
    | Some f => if is_true_str predefined_filter
                then dict_set params "filter" (VStr f) else params
    | None => params
    end in
  url <- lift (get_url CONFIG endpoint []) ;;
  for_each (gen_request fuel url (Some params))
           (sync_ticket fuel bookmark_property start state_entity).

Definition sync_tickets (fuel : nat) : M unit :=
  let bookmark_property := "updated_at" in
  write_schema "tickets" ;;
  write_schema "conversations" ;;
  write_schema "satisfaction_ratings" ;;
  write_schema "time_entries" ;;
  sync_tickets_by_filter fuel bookmark_property None ;;
  sync_tickets_by_filter fuel bookmark_property (Some "deleted") ;;
  sync_tickets_by_filter fuel bookmark_property (Some "spam").

(** Lines 226-231: the body of the loop of [sync_time_filtered]. *)
Definition sync_row (entity : string) (bookmark_property : string)
    (start : value) (row : value) : M unit :=
  row <- as_dict row ;;
  b <- getitem row bookmark_property ;;
  keep <- lift (ge b start) ;;
  if keep : bool then
    row <- (if dict_mem row "custom_fields" then
              custom_fields <- getitem row "custom_fields" ;;
              custom_fields <- lift (transform_dict custom_fields "name" "value" true) ;;
              ret (dict_set row "custom_fields" custom_fields)
            else ret row) ;;
    b <- getitem row bookmark_property ;;
    do_update_state entity b ;;
    write_record entity row
  else ret tt.

Definition sync_time_filtered (fuel : nat) (entity : string) : M unit :=
  let bookmark_property := "updated_at" in
  write_schema entity ;;
  STATE <- read_state ;;
  let start := get_start CONFIG STATE entity in
  url <- lift (get_url CONFIG entity []) ;;
  for_each (gen_request fuel url None) (sync_row entity bookmark_property start) ;;
  write_state.

(** [value.get("selected", False)] for the values of [CONFIG["streams"]]. *)
Definition selected (v : value) : result bool :=
  match v with
  | VDict d =>
      match dict_get d "selected" with
      | Some x => Ok (truthy x)
      | None => Ok false
      end
  | _ => Raise AttributeError
  end.

(** The set comprehension of [do_sync], as the list of its members. *)
Fixpoint selected_of (items : list (string * value)) : result (list string) :=
  match items with
  | [] => Ok []
  | (key, v) :: rest =>
      match selected v with
      | Ok b =>
          match selected_of rest with
          | Ok l => Ok (if b then key :: l else l)
          | other => other
          end
      | Raise e => Raise e
      | Fuel => Fuel
      end
  end.

Definition selected_streams : result (list string) :=
  match streams CONFIG with
  | None => Ok []                                (* CONFIG.get("streams", {}) *)
  | Some (VDict items) => selected_of items
  | Some _ => Raise AttributeError
  end.

Definition when (b : bool) (m : M unit) : M unit := if b then m else ret tt.

Definition do_sync (fuel : nat) : M unit :=
  selected_streams <- lift selected_streams ;;
  let is_selected s := existsb (String.eqb s) selected_streams in
  try_except_HTTPError
    (when (is_selected "tickets") (sync_tickets fuel) ;;
     when (is_selected "contacts") (sync_time_filtered fuel "contacts") ;;
     when (is_selected "agents") (sync_time_filtered fuel "agents") ;;
     when (is_selected "roles") (sync_time_filtered fuel "roles") ;;
     when (is_selected "groups") (sync_time_filtered fuel "groups") ;;
     when (is_selected "companies") (sync_time_filtered fuel "companies"))
    (fun _ _ => raise (SystemExit 1)).

End Sync.

(* ================================================================== *)
(** * Request executor *)
(* ================================================================== *)

Module Executor.

(** What [request] looks at in a response.  [retry_after] is the
    [Retry-After] header: absent, or present with the integer [int()] reads
    from it ([Some None] when it is not an integer literal). *)
Record response : Type := {
  status_code : Z;
  retry_after : option (option Z);
  content : string
}.

(** [session.send(req)]: a response, or a transport failure, raised as a
    [RequestException] that carries no response. *)
Inductive sent : Type :=
| Sent (resp : response)
| Failed.

Inductive xevent : Type :=
| Send (k : nat)          (* the k-th [session.send] of the process *)
| Sleep (seconds : Z)     (* time.sleep(retry_after) *)
| Backoff (wait : Z).     (* the delay drawn by [backoff.expo], before jitter *)

Definition max_tries : nat := 5.
Definition factor : Z := 2.

(** [backoff.expo(base=2, factor=2)]: its n-th value. *)
Definition expo (n : nat) : Z := factor * 2 ^ Z.of_nat n.

(** [requests.exceptions.RequestException] and its subclasses. *)
Definition is_RequestException (e : exn) : bool :=
  match e with
  | HTTPError _ _ | ConnectionError => true
  | _ => false
  end.

(** The [giveup] predicate: [e.response is not None and
    400 <= e.response.status_code < 500]. *)
Definition giveup (e : exn) : bool :=
  match e with
  | HTTPError status _ => (400 <=? status) && (status <? 500)
  | _ => false
  end.

(** [resp.raise_for_status()]. *)
Definition raise_for_status (resp : response) : result response :=
  if (400 <=? status_code resp) && (status_code resp <? 600)
  then Raise (HTTPError (status_code resp) (content resp))
  else Ok resp.

(** [time.sleep(seconds)] on an [int]: the clock counts nanoseconds on 64
    bits, and a number of seconds that does not fit raises [OverflowError];
    one that fits and is negative raises [ValueError]. *)
Definition sleep_error (seconds : Z) : option exn :=
  if (seconds * 10 ^ 9 <? - 2 ^ 63) || (2 ^ 63 - 1 <? seconds * 10 ^ 9)
  then Some OverflowError
  else if seconds <? 0 then Some ValueError
  else None.

Section Server.

(** The upstream server: what the k-th send meets. *)
Variable server : nat -> sent.

(** [request] under its decorators.  [retry fuel tries k] is the loop of
    [backoff.on_exception] entering its attempt number [tries] (from 1)
    when [k] sends have been made.  Each attempt runs the body of
    [request]; the body's [return request(url, params)] enters the
    decorated function again, that is a new loop at attempt 1.
    [utils.ratelimit] only delays a call and time is not modelled.
    The result comes with the number of sends made and the events. *)
Fixpoint retry (fuel : nat) (tries : nat) (k : nat)
  : result response * nat * list xevent :=
  match fuel with
  | O => (Fuel, k, [])
  | S fuel' =>
      let '(r, k1, tr1) :=
        match server k with
        | Failed => (Raise ConnectionError, S k, [Send k])
        | Sent resp =>
            match retry_after resp with
            | Some None => (Raise ValueError, S k, [Send k])
            | Some (Some seconds) =>
                match sleep_error seconds with
                | Some e => (Raise e, S k, [Send k])
                | None =>
                    let '(r, k', tr) := retry fuel' 1 (S k) in
                    (r, k', Send k :: Sleep seconds :: tr)
                end
            | None => (raise_for_status resp, S k, [Send k])
            end
        end in
      match r with
      | Raise e =>
          if is_RequestException e then
            if giveup e || Nat.eqb tries max_tries then (Raise e, k1, tr1)
            else
              let '(r2, k2, tr2) := retry fuel' (S tries) k1 in
              (r2, k2, (tr1 ++ Backoff (expo (tries - 1)) :: tr2)%list)
          else (Raise e, k1, tr1)
      | _ => (r, k1, tr1)
      end
  end.

Definition request (fuel : nat) (k : nat) : result response * nat * list xevent :=
  retry fuel 1 k.

End Server.





End Executor.

(* ================================================================== *)
(** * Vocabulary of the properties *)
(* ================================================================== *)

(** The query of page [page]: the caller's parameters, [per_page] and
    [page]. *)
Definition page_params (params : option dict) (page : Z) : dict :=
  dict_set (dict_set match params with
                     | Some ((_ :: _) as p) => p
                     | _ => []
                     end "per_page" (VInt PER_PAGE))
           "page" (VInt page).


(** The events of a run in which every advance of the watermark of
    [entity] is immediately followed by the emission, under [stream], of a
    record whose bookmark is the value advanced to, and nothing else is
    emitted under [stream]. *)
Inductive advance_then_emit (entity stream bookmark : string) : list event -> Prop :=
| ate_nil : advance_then_emit entity stream bookmark []
| ate_pair v r tr :
    subscript r bookmark = Ok v ->
    advance_then_emit entity stream bookmark tr ->
    advance_then_emit entity stream bookmark
      (EvUpdateState entity v :: EvWriteRecord stream r :: tr)
| ate_other e tr :
    match e with
    | EvUpdateState _ _ => False
    | EvWriteRecord s _ => s <> stream
    | _ => True
    end ->
    advance_then_emit entity stream bookmark tr ->
    advance_then_emit entity stream bookmark (e :: tr).

(** The claim of C1 on a trace: when the watermark is advanced to a value,
    a record with that bookmark has been emitted before. *)
Fixpoint emitted_before_advance (seen : list value) (tr : list event) : bool :=
  match tr with
  | [] => true
  | EvWriteRecord _ r :: tr' => emitted_before_advance (r :: seen) tr'
  | EvUpdateState _ v :: tr' =>
      existsb (fun r => match subscript r "updated_at" with
                        | Ok b => eq b v
                        | _ => false
                        end) seen
      && emitted_before_advance seen tr'
  | _ :: tr' => emitted_before_advance seen tr'
  end.

(** Runs a statement symbolically. *)
Ltac run_py :=
  cbv [bind ret raise lift emit read_state getitem as_dict write_record
       write_schema write_state do_update_state when
       trace outcome final_state fst snd].

(** The events of the sub-resource loops of a ticket: requests, and
    records of the three sub-entities whose bookmark is not below
    [start]. *)
Definition sub_event (bookmark : string) (start : value) (e : event) : Prop :=
  match e with
  | EvRequest _ _ => True
  | EvWriteRecord s r =>
      In s ["conversations"; "satisfaction_ratings"; "time_entries"] /\
      exists b, subscript r bookmark = Ok b /\ ge b start = Ok true
  | _ => False
  end.

(** The record emitted for a ticket row: the row without its attachments
    and with its custom fields as a list. *)
Definition ticket_record (d : dict) : option dict :=
  match dict_get (dict_pop d "attachments") "custom_fields" with
  | Some custom_fields =>
      match transform_dict custom_fields "name" "value" true with
      | Ok l => Some (dict_set (dict_pop d "attachments") "custom_fields" l)
      | _ => None
      end
  | None => None
  end.

(** The rows a flat sync of [entity] goes through. *)
Definition flat_listing (CONFIG : config) (request : string -> dict -> result (list value))
    (fuel : nat) (entity : string) : list value :=
  match get_url CONFIG entity [] with
  | Ok url => yielded (fst (gen_request request fuel url None))
  | _ => []
  end.

(** A record kept by the client-side comparison with [start]. *)
Definition kept (bookmark : string) (start : value) (r : value) : Prop :=
  exists b, subscript r bookmark = Ok b /\ ge b start = Ok true.

(** Rows in ascending bookmark order: the bookmark of a row is not above
    the bookmark of any later row. *)
Definition bookmark_le (bookmark : string) (r1 r2 : value) : Prop :=
  forall b1 b2,
    subscript r1 bookmark = Ok b1 -> subscript r2 bookmark = Ok b2 ->
    ge b2 b1 = Ok true.

Definition ascending (bookmark : string) (rows : list value) : Prop :=
  StronglySorted (bookmark_le bookmark) rows.

(** Values in non-decreasing order. *)
Definition non_decreasing (vs : list value) : Prop :=
  StronglySorted (fun v1 v2 => ge v2 v1 = Ok true) vs.

(** The bookmark namespace of a pass over the tickets. *)
Definition ticket_namespace (predefined_filter : option string) : string :=
  match predefined_filter with
  | Some f => if is_true_str predefined_filter then "tickets" ++ "_" ++ f else "tickets"
  | None => "tickets"
  end.

(** The tickets a pass goes through, from the state [STATE]. *)
Definition tickets_listing (CONFIG : config) (request : string -> dict -> result (list value))
    (fuel : nat) (bookmark_property : string) (predefined_filter : option string)
    (STATE : dict) : list value :=
  let start := get_start CONFIG STATE (ticket_namespace predefined_filter) in
  let params := dict_lit [ ("updated_since", start);
                           ("order_by", VStr bookmark_property);
                           ("order_type", VStr "asc");
                           ("include", VStr "requester,company,stats,description") ] in
  let params :=
    match predefined_filter with
    | Some f => if is_true_str predefined_filter
                then dict_set params "filter" (VStr f) else params
    | None => params
    end in
  match get_url CONFIG "tickets" [] with
  | Ok url => yielded (fst (gen_request request fuel url (Some params)))
  | _ => []
  end.

(** Every record of the trace is emitted under one of [streams] and was kept
    by the comparison, or is of an [exempt] stream. *)
Definition records_kept (exempt : string -> Prop) (streams : list string)
    (bookmark : string) (start : value) (tr : list event) : Prop :=
  Forall (fun e => match e with
                   | EvWriteRecord s r =>
                       exempt s \/ (In s streams /\ kept bookmark start r)
                   | _ => True
                   end) tr.

(** [r] is the record emitted for the ticket [row]. *)
Definition emitted_as (row r : value) : Prop :=
  exists d d', row = VDict d /\ ticket_record d = Some d' /\ r = VDict d'.

(** The URL of a sub-resource of the ticket [id]. *)
Definition sub_url (CONFIG : config) (id : value) (entity : string) : string :=
  BASE_URL (domain CONFIG) ++ "/api/v2/tickets/" ++ str id ++ "/" ++ entity.

Definition is_HTTPError (e : exn) : bool :=
  match e with
  | HTTPError _ _ => true
  | _ => false
  end.

(** A statement that ends normally or with an exception that is not an
    [HTTPError]. *)
Definition no_HTTPError (r : result unit) : Prop :=
  match r with
  | Ok _ => True
  | Raise e => is_HTTPError e = false
  | Fuel => False
  end.

(* ================================================================== *)
(** * Example upstreams *)
(* ================================================================== *)

(** The configuration of the examples: no stream selected. *)
Definition example_config : config :=
  {| api_key := VStr "key";
     domain := VStr "acme";
     start_date := VStr "2020-01-01T00:00:00Z";
     user_agent := None;
     streams := None |}.

(** An upstream holding 250 records, served 100 at a time. *)
Definition records250 : list value :=
  map (fun i => VDict [("id", VInt (Z.of_nat i))]) (seq 1 250).

(** The upstream serving [records250]. *)
Definition api250 (url : string) (params : dict) : result (list value) :=
  match dict_get params "page" with
  | Some (VInt p) => Ok (firstn 100 (skipn (Z.to_nat (100 * (p - 1))) records250))
  | _ => Raise (HTTPError 400 "")
  end.




(** Records of the example upstream. *)
Definition role1 : value :=
  VDict [("id", VInt 1); ("name", VStr "Admin");
         ("updated_at", VStr "2021-03-01T10:00:00Z")].

Definition group_late : value :=
  VDict [("id", VInt 2); ("updated_at", VStr "2021-05-01T00:00:00Z")].

Definition group_early : value :=
  VDict [("id", VInt 1); ("updated_at", VStr "2021-03-01T00:00:00Z")].

(** A ticket last updated before the configured start date. *)
Definition ticket7 : value :=
  VDict [("id", VInt 7);
         ("attachments", VList []);
         ("custom_fields", VDict [("cf_color", VBool true); ("cf_size", VStr "10")]);
         ("updated_at", VStr "2019-06-01T00:00:00Z")].

Definition conversation_new : value :=
  VDict [("id", VInt 70); ("updated_at", VStr "2021-01-01T00:00:00Z")].

Definition conversation_old : value :=
  VDict [("id", VInt 71); ("updated_at", VStr "2019-01-01T00:00:00Z")].

Definition time_entry1 : value :=
  VDict [("id", VInt 700); ("updated_at", VStr "2021-02-01T00:00:00Z")].

(** A contact without custom fields. *)
Definition contact1 : value :=
  VDict [("id", VInt 3); ("updated_at", VStr "2021-04-01T00:00:00Z")].

(** An account whose surveys are disabled: the satisfaction ratings of a
    ticket answer 403.  The groups come in descending order. *)
Definition example_api (url : string) (params : dict) : result (list value) :=
  if String.eqb url "https://acme.freshdesk.com/api/v2/tickets" then
    if dict_mem params "filter" then Ok [] else Ok [ticket7]
  else if String.eqb url "https://acme.freshdesk.com/api/v2/tickets/7/conversations" then
    Ok [conversation_new; conversation_old]
  else if String.eqb url "https://acme.freshdesk.com/api/v2/tickets/7/satisfaction_ratings" then
    Raise (HTTPError 403 "")
  else if String.eqb url "https://acme.freshdesk.com/api/v2/tickets/7/time_entries" then
    Ok [time_entry1]
  else if String.eqb url "https://acme.freshdesk.com/api/v2/roles" then
    Ok [role1]
  else if String.eqb url "https://acme.freshdesk.com/api/v2/groups" then
    Ok [group_late; group_early]
  else if String.eqb url "https://acme.freshdesk.com/api/v2/contacts" then
    Ok [contact1]
  else if String.eqb url "https://acme.freshdesk.com/api/v2/agents" then
    Ok [group_early; group_late]
  else Raise (HTTPError 404 "").

(** The same account when the time entries of the ticket answer 500. *)
Definition broken_api (url : string) (params : dict) : result (list value) :=
  if String.eqb url "https://acme.freshdesk.com/api/v2/tickets/7/time_entries" then
    Raise (HTTPError 500 "")
  else example_api url params.


(** A configuration that selects the given streams. *)
Definition selecting (l : list string) : config :=
  {| api_key := VStr "key";
     domain := VStr "acme";
     start_date := VStr "2020-01-01T00:00:00Z";
     user_agent := None;
     streams := Some (VDict (map (fun s => (s, VDict [("selected", VBool true)])) l)) |}.

(* ================================================================== *)
(** * Vocabulary of further properties *)
(* ================================================================== *)




(** A server whose answer carries a [Retry-After] header that is an HTTP
    date, not a number of seconds. *)
Definition dated_server (k : nat) : Executor.sent :=
  Executor.Sent {| Executor.status_code := 200;
                   Executor.retry_after := Some None;
                   Executor.content := "[]" |}.

(** A server whose answer asks to wait longer than [time.sleep] can. *)
Definition overflowing_server (k : nat) : Executor.sent :=
  Executor.Sent {| Executor.status_code := 429;
                   Executor.retry_after := Some (Some 9223372037);
                   Executor.content := "rate limit" |}.

(** The parameters the caller of [gen_request] passed, as looked up. *)
Definition caller_param (params : option dict) (k : string) : option value :=
  match params with
  | Some d => dict_get d k
  | None => None
  end.

(** An upstream whose second page is refused. *)
Definition refusing_api (url : string) (params : dict) : result (list value) :=
  match dict_get params "page" with
  | Some (VInt 1) => Ok (firstn 100 records250)
  | _ => Raise (HTTPError 403 "")
  end.

(** An upstream that ignores [per_page] and answers with all its records. *)
Definition unpaged_api (url : string) (params : dict) : result (list value) :=
  Ok records250.

(** The snapshots handed to [singer.write_state], in order. *)
Fixpoint state_writes (tr : list event) : list dict :=
  match tr with
  | [] => []
  | EvWriteState st :: tr' => st :: state_writes tr'
  | _ :: tr' => state_writes tr'
  end.

(** The client-side comparison [row[bookmark] >= start] holds. *)
Definition passes (bookmark : string) (start row : value) : bool :=
  match subscript row bookmark with
  | Ok b => match ge b start with
            | Ok true => true
            | _ => false
            end
  | _ => false
  end.

(** A row that is a [dict] with a bookmark that can be compared with
    [start]. *)
Definition comparable (bookmark : string) (start row : value) : Prop :=
  exists d b c, row = VDict d /\ dict_get d bookmark = Some b /\ ge b start = Ok c.

(** [r] is the record emitted for the flat-entity row [row]: the row
    itself, its custom fields turned into a list when it has some. *)
Definition flat_emitted_as (row r : value) : Prop :=
  exists d,
    row = VDict d /\
    match dict_get d "custom_fields" with
    | None => r = VDict d
    | Some custom_fields =>
        exists l, transform_dict custom_fields "name" "value" true = Ok l /\
                  r = VDict (dict_set d "custom_fields" l)
    end.

(** An upstream whose only role has no [updated_at]. *)
Definition undated_api (url : string) (params : dict) : result (list value) :=
  Ok [VDict [("id", VInt 1); ("name", VStr "Admin")]].

(** The events of a pass over the tickets in which every ticket emitted is
    immediately followed by a write of the state, and the state is written
    at no other moment. *)
Inductive persisted_per_ticket : list event -> Prop :=
| ppt_nil : persisted_per_ticket []
| ppt_ticket r st tr :
    persisted_per_ticket tr ->
    persisted_per_ticket (EvWriteRecord "tickets" r :: EvWriteState st :: tr)
| ppt_other e tr :
    match e with
    | EvWriteState _ => False
    | EvWriteRecord s _ => s <> "tickets"
    | _ => True
    end ->
    persisted_per_ticket tr ->
    persisted_per_ticket (e :: tr).

(** The streams whose schema is written, in order. *)
Fixpoint schemas (tr : list event) : list string :=
  match tr with
  | [] => []
  | EvWriteSchema s :: tr' => s :: schemas tr'
  | _ :: tr' => schemas tr'
  end.

(** The streams named by the schemas and the records of a run. *)
Fixpoint streams_of (tr : list event) : list string :=
  match tr with
  | [] => []
  | EvWriteSchema s :: tr' => s :: streams_of tr'
  | EvWriteRecord s _ :: tr' => s :: streams_of tr'
  | _ :: tr' => streams_of tr'
  end.

(** The order in which [do_sync] goes through the entities, and the streams
    each one writes. *)
Definition stream_order : list string :=
  ["tickets"; "contacts"; "agents"; "roles"; "groups"; "companies"].

Definition schemas_for (s : string) : list string :=
  if String.eqb s "tickets"
  then ["tickets"; "conversations"; "satisfaction_ratings"; "time_entries"]
  else [s].


(** The events of the loops of a sync: no schema, and records of [streams]
    only. *)
Definition loop_events (streams : list string) (tr : list event) : Prop :=
  schemas tr = [] /\ Forall (fun s => In s streams) (streams_of tr).

(** A query that holds the paging parameters and nothing else. *)
Definition paging_only (p : dict) : Prop :=
  exists n : nat, p = [("per_page", VInt 100); ("page", VInt (1 + Z.of_nat n))].

(** The query of a request for a page of the ticket listing of a pass. *)
Definition listing_query (bookmark_property : string) (start : value)
    (predefined_filter : option string) (p : dict) : Prop :=
  dict_get p "updated_since" = Some start /\
  dict_get p "order_by" = Some (VStr bookmark_property) /\
  dict_get p "order_type" = Some (VStr "asc") /\
  dict_get p "include" = Some (VStr "requester,company,stats,description") /\
  dict_get p "filter" =
    match predefined_filter with
    | Some f => if is_true_str predefined_filter then Some (VStr f) else None
    | None => None
    end /\
  dict_get p "per_page" = Some (VInt 100) /\
  exists n : nat, dict_get p "page" = Some (VInt (1 + Z.of_nat n)).

(** The requests a pass over the tickets may send: a page of the listing,
    or a page of a sub-resource of some ticket. *)
Definition pass_request (CONFIG : config) (bookmark_property : string) (start : value)
    (predefined_filter : option string) (r : string * dict) : Prop :=
  (get_url CONFIG "tickets" [] = Ok (fst r) /\
   listing_query bookmark_property start predefined_filter (snd r)) \/
  (exists id entity,
      In entity ["conversations"; "satisfaction_ratings"; "time_entries"] /\
      fst r = sub_url CONFIG id entity /\
      paging_only (snd r)).

(** The state after the calls to [update_state] recorded in a trace. *)
Definition replay (tr : list event) (st : dict) : dict :=
  fold_left (fun s e => match e with
                        | EvUpdateState entity dt => update_state s entity dt
                        | _ => s
                        end) tr st.

(** A statement that changes the state through [update_state] only. *)
Definition tracks {A} (m : M A) : Prop :=
  forall st, final_state (m st) = replay (trace (m st)) st.

(** The requests a run may send: [per_page] is 100, and the URL is the
    listing of one of the six entities of [do_sync] or a sub-resource of a
    ticket, on the configured domain. *)
Definition run_request (CONFIG : config) (r : string * dict) : Prop :=
  dict_get (snd r) "per_page" = Some (VInt 100) /\
  ((exists entity,
       In entity stream_order /\
       fst r = BASE_URL (domain CONFIG) ++ "/api/v2/" ++ entity) \/
   (exists id entity,
       In entity ["conversations"; "satisfaction_ratings"; "time_entries"] /\
       fst r = sub_url CONFIG id entity)).

(** The record emitted for a satisfaction rating: the row with its ratings
    as a list. *)
Definition rating_record (d : dict) : option dict :=
  match dict_get d "ratings" with
  | Some ratings =>
      match transform_dict ratings "question" "value" false with
      | Ok l => Some (dict_set d "ratings" l)
      | _ => None
      end
  | None => None
  end.

(** Two satisfaction ratings of the ticket 7, one from before the start
    date of the examples. *)
Definition rating_new : value :=
  VDict [("id", VInt 7000);
         ("ratings", VDict [("default_question", VInt 103); ("question_2", VInt 100)]);
         ("updated_at", VStr "2021-03-01T00:00:00Z")].

Definition rating_old : value :=
  VDict [("id", VInt 7001);
         ("ratings", VDict [("default_question", VInt (-103))]);
         ("updated_at", VStr "2019-03-01T00:00:00Z")].

(** An account whose surveys are enabled. *)
Definition surveyed_api (url : string) (params : dict) : result (list value) :=
  if String.eqb url "https://acme.freshdesk.com/api/v2/tickets/7/satisfaction_ratings"
  then Ok [rating_new; rating_old]
  else example_api url params.

(** [r] is the record emitted for the satisfaction rating [row]. *)
Definition rating_emitted_as (row r : value) : Prop :=
  exists d d', row = VDict d /\ rating_record d = Some d' /\ r = VDict d'.

(** The refusals the blocks of a ticket swallow: a 403 answer to the fetch
    of a sub-resource, a 404 answer to the fetch of the time entries. *)
Definition recovered (CONFIG : config) (u : string) (code : Z) : Prop :=
  (code = 403 /\
   exists id entity,
     In entity ["conversations"; "satisfaction_ratings"; "time_entries"] /\
     u = sub_url CONFIG id entity) \/
  (code = 404 /\ exists id, u = sub_url CONFIG id "time_entries").

(** A run in which a request refused with an [HTTPError] that no block
    swallows ends the run with that error. *)
Definition refusal_fatal {A} (CONFIG : config)
    (request : string -> dict -> result (list value))
    (x : result A * dict * list event) : Prop :=
  forall u p code content,
    In (u, p) (requests (trace x)) ->
    request u p = Raise (HTTPError code content) ->
    ~ recovered CONFIG u code ->
    outcome x = Raise (HTTPError code content).

(** A generator that ends at the first request that raises, with the
    exception of that request. *)
Definition refusal_ends (request : string -> dict -> result (list value))
    (items : list gen_item) (fin : result unit) : Prop :=
  forall pre u p post e,
    items = (pre ++ GRequest u p :: post)%list ->
    request u p = Raise e ->
    post = [] /\ fin = Raise e.

(** [r] is the record emitted for the row [row] of the sub-resource
    [entity]: the row itself, its ratings turned into a list for a
    satisfaction rating. *)
Definition sub_emitted_as (entity : string) (row r : value) : Prop :=
  if String.eqb entity "satisfaction_ratings" then rating_emitted_as row r else r = row.

(** A full page of conversations. *)
Definition conversations100 : list value :=
  map (fun i => VDict [("id", VInt (Z.of_nat i));
                       ("updated_at", VStr "2021-01-01T00:00:00Z")])
      (seq 1 100).

(** An account whose conversations of the ticket 7 fill a first page and
    are refused with 403 from the second page on. *)
Definition late_refusal_api (url : string) (params : dict) : result (list value) :=
  if String.eqb url "https://acme.freshdesk.com/api/v2/tickets/7/conversations" then
    match dict_get params "page" with
    | Some (VInt 1) => Ok conversations100
    | _ => Raise (HTTPError 403 "refused")
    end
  else example_api url params.

(** A statement whose every run, from the state it starts in to the state
    it leaves and the events it produces, is in the relation [R]. *)
Definition keeps {A} (R : dict -> dict -> list event -> Prop) (m : M A) : Prop :=
  forall st, R st (final_state (m st)) (trace (m st)).

(** Nothing is written and the state is as it was, or the last snapshot
    written is the state left. *)
Definition last_write_is_state (st st' : dict) (tr : list event) : Prop :=
  (state_writes tr = [] /\ st' = st) \/
  exists ws, state_writes tr = (ws ++ [st'])%list.

(** The state left and every snapshot written hold, under every namespace
    but [ns], what the starting state holds. *)
Definition own_watermark_only (ns : string) (st st' : dict) (tr : list event) : Prop :=
  (forall other, other <> ns -> dict_get st' other = dict_get st other) /\
  Forall (fun w => forall other, other <> ns -> dict_get w other = dict_get st other)
         (state_writes tr).

(* ================================================================== *)
(** * Properties of the Python values *)

Example str_true : lower (str (VBool true)) = "true".
Proof. reflexivity. Qed.
Example str_int : str (VInt (-12)) = "-12".
Proof. reflexivity. Qed.
Example str_list : str (VList [VStr "ab"; VNone; VInt 3]) = "['ab', None, 3]".
Proof. reflexivity. Qed.

(* ================================================================== *)

Section DictFacts.

Lemma dict_get_set_same (d : dict) (k : string) (v : value) :
  dict_get (dict_set d k v) k = Some v.
Proof.
  induction d as [|[k' v'] d IH]; simpl.
  - now rewrite String.eqb_refl.
  - destruct (String.eqb k k') eqn:E; simpl; rewrite E; auto.
Qed.

Lemma dict_get_set_other (d : dict) (k k' : string) (v : value) :
  k <> k' -> dict_get (dict_set d k v) k' = dict_get d k'.
Proof.
  intros Hne. induction d as [|[k0 v0] d IH]; simpl.
  - destruct (String.eqb k' k) eqn:E; auto.
    apply String.eqb_eq in E. congruence.
  - destruct (String.eqb k k0) eqn:E; simpl.
    + apply String.eqb_eq in E. subst k0.
      destruct (String.eqb k' k) eqn:E'; auto.
      apply String.eqb_eq in E'. congruence.
    + now rewrite IH.
Qed.

Lemma dict_set_set (d : dict) (k : string) (v w : value) :
  dict_set (dict_set d k v) k w = dict_set d k w.
Proof.
  induction d as [|[k' v'] d IH]; simpl.
  - now rewrite String.eqb_refl.
  - destruct (String.eqb k k') eqn:E; simpl; rewrite E; auto.
    now rewrite IH.
Qed.

Lemma dict_get_pop_other (d : dict) (k k' : string) :
  k <> k' -> dict_get (dict_pop d k) k' = dict_get d k'.
Proof.
  intros Hne. induction d as [|[k0 v0] d IH]; simpl; auto.
  destruct (String.eqb k k0) eqn:E; simpl.
  - apply String.eqb_eq in E. subst k0.
    destruct (String.eqb k' k) eqn:E'; auto.
    apply String.eqb_eq in E'. congruence.
  - now rewrite IH.
Qed.

Lemma dict_mem_get (d : dict) (k : string) :
  dict_mem d k = true <-> exists v, dict_get d k = Some v.
Proof.
  unfold dict_mem. destruct (dict_get d k).
  - split; eauto.
  - split; [discriminate | intros [v Hv]; discriminate].
Qed.

End DictFacts.

(* ================================================================== *)
(** * Watermark store *)
(* ================================================================== *)

(** C8.  [get_start] returns the stored watermark of a namespace present in
    the persisted state; for an absent namespace it returns the epoch
    string for contacts, companies and agents, and the configured start
    date for every other entity. *)
Theorem get_start_spec (CONFIG : config) (STATE : dict) (entity : string) :
  (forall v, dict_get STATE entity = Some v ->
             get_start CONFIG STATE entity = v) /\
  (dict_get STATE entity = None ->
     (In entity ["contacts"; "companies"; "agents"] ->
        get_start CONFIG STATE entity = VStr "1970-01-01T00:00:00Z") /\
     (~ In entity ["contacts"; "companies"; "agents"] ->
        get_start CONFIG STATE entity = start_date CONFIG)).
Proof.
  unfold get_start, dict_mem. split.
  - intros v Hv. now rewrite Hv.
  - intros Hn. rewrite Hn. simpl negb. cbv iota. split; intros Hin.
    + assert (E : existsb (String.eqb entity) ["contacts"; "companies"; "agents"] = true).
      { apply existsb_exists. exists entity. split; auto. apply String.eqb_refl. }
      now rewrite E.
    + destruct (existsb (String.eqb entity) ["contacts"; "companies"; "agents"]) eqn:E; auto.
      apply existsb_exists in E. destruct E as [x [Hx Hxe]].
      apply String.eqb_eq in Hxe. subst x. contradiction.
Qed.

Lemma get_start_spec_witness :
  get_start example_config [("tickets", VStr "2021-05-05T00:00:00Z")] "tickets"
    = VStr "2021-05-05T00:00:00Z" /\
  get_start example_config [("tickets", VStr "2021-05-05T00:00:00Z")] "agents"
    = VStr "1970-01-01T00:00:00Z" /\
  get_start example_config [("tickets", VStr "2021-05-05T00:00:00Z")] "roles"
    = VStr "2020-01-01T00:00:00Z".
Proof.
  split; [|split].
  - apply (proj1 (get_start_spec example_config
                    [("tickets", VStr "2021-05-05T00:00:00Z")] "tickets")).
    reflexivity.
  - apply (proj2 (get_start_spec example_config
                    [("tickets", VStr "2021-05-05T00:00:00Z")] "agents")).
    + reflexivity.
    + simpl. auto.
  - apply (proj2 (get_start_spec example_config
                    [("tickets", VStr "2021-05-05T00:00:00Z")] "roles")).
    + reflexivity.
    + simpl. intros [H|[H|[H|[]]]]; discriminate.
Defined.

(** The store after [update_state] holds the value passed. *)
Lemma update_state_stores (STATE : dict) (entity : string) (dt : value) :
  dict_get (update_state STATE entity dt) entity = Some dt.
Proof. apply dict_get_set_same. Qed.

Lemma update_state_other (STATE : dict) (entity e' : string) (dt : value) :
  entity <> e' -> dict_get (update_state STATE entity dt) e' = dict_get STATE e'.
Proof. apply dict_get_set_other. Qed.

(* ================================================================== *)
(** * Entity transform *)
(* ================================================================== *)

Lemma transform_items_length items kk vk fs :
  List.length (transform_items items kk vk fs) = List.length items.
Proof.
  induction items as [|[k v] items IH]; simpl; auto.
Qed.

Lemma transform_items_nth items kk vk fs i k v :
  nth_error items i = Some (k, v) ->
  nth_error (transform_items items kk vk fs) i =
    Some (VDict (dict_lit [(kk, VStr k);
                           (vk, if fs then VStr (lower (str v)) else v)])).
Proof.
  revert i. induction items as [|[k0 v0] items IH]; intros [|i] H; simpl in *;
    try discriminate.
  - now inversion H.
  - now apply IH.
Qed.

Lemma dict_lit_pair kk vk (a b : value) :
  kk <> vk ->
  dict_lit [(kk, a); (vk, b)] = [(kk, a); (vk, b)].
Proof.
  intros Hne. unfold dict_lit. simpl.
  destruct (String.eqb vk kk) eqn:E; auto.
  apply String.eqb_eq in E. congruence.
Qed.

Lemma dict_lit_pair_value kk vk (a b : value) :
  dict_get (dict_lit [(kk, a); (vk, b)]) vk = Some b.
Proof.
  unfold dict_lit. cbn [fold_left fst snd].
  apply dict_get_set_same.
Qed.

Lemma transform_items_names items kk vk fs :
  kk <> vk ->
  map (fun e => subscript e kk) (transform_items items kk vk fs) =
  map (fun k => Ok (VStr k)) (keys items).
Proof.
  intros Hne. induction items as [|[k v] items IH]; simpl; auto.
  rewrite IH. f_equal.
  rewrite dict_lit_pair by assumption. simpl. now rewrite String.eqb_refl.
Qed.

(** C7.  For every input map, [transform_dict] returns a list with one
    entry [{key_key: k, value_key: v}] per item of the map, in the order of
    the map, so that every original key is kept; with [force_str] every
    value is rendered as a string, a boolean as "true" or "false". *)
Theorem transform_dict_spec (d : dict) (key_key value_key : string) (force_str : bool) :
  exists out,
    transform_dict (VDict d) key_key value_key force_str = Ok (VList out) /\
    List.length out = List.length d /\
    (key_key <> value_key ->
       map (fun e => subscript e key_key) out = map (fun k => Ok (VStr k)) (keys d)) /\
    (forall i k v, nth_error d i = Some (k, v) ->
       exists e,
         nth_error out i = Some (VDict e) /\
         e = dict_lit [(key_key, VStr k);
                       (value_key, if force_str then VStr (lower (str v)) else v)] /\
         (key_key <> value_key ->
            keys e = [key_key; value_key] /\ dict_get e key_key = Some (VStr k)) /\
         (force_str = false -> dict_get e value_key = Some v) /\
         (force_str = true ->
            exists s, dict_get e value_key = Some (VStr s) /\
                      (forall b : bool, v = VBool b -> s = if b then "true" else "false"))).
Proof.
  exists (transform_items d key_key value_key force_str).
  split; [reflexivity|]. split; [apply transform_items_length|].
  split; [apply transform_items_names|].
  intros i k v Hi.
  exists (dict_lit [(key_key, VStr k);
                    (value_key, if force_str then VStr (lower (str v)) else v)]).
  split; [apply transform_items_nth; exact Hi|].
  split; [reflexivity|]. split; [|split].
  - intros Hne. rewrite dict_lit_pair by assumption. simpl.
    now rewrite String.eqb_refl.
  - intros ->. apply dict_lit_pair_value.
  - intros ->. eexists. split; [apply dict_lit_pair_value|].
    intros [|] ->; reflexivity.
Qed.

Lemma transform_dict_spec_witness :
  exists out,
    transform_dict (VDict [("cf_color", VBool true); ("cf_size", VStr "10")])
                   "name" "value" true = Ok (VList out) /\
    List.length out = 2%nat /\
    map (fun e => subscript e "name") out = [Ok (VStr "cf_color"); Ok (VStr "cf_size")] /\
    nth_error out 0 =
      Some (VDict (dict_lit [("name", VStr "cf_color"); ("value", VStr "true")])).
Proof.
  destruct (transform_dict_spec [("cf_color", VBool true); ("cf_size", VStr "10")]
              "name" "value" true) as (out & Hout & Hlen & Hnames & Hentries).
  exists out. split; [exact Hout|]. split; [exact Hlen|].
  split; [apply Hnames; discriminate|].
  destruct (Hentries 0%nat "cf_color" (VBool true) eq_refl) as (e & He & Hlit & _).
  rewrite He, Hlit. reflexivity.
Defined.

(* ================================================================== *)
(** * Paginator *)
(* ================================================================== *)

Section Paginator.

Variable request : string -> dict -> result (list value).
Variable url : string.

Lemma gen_request_loop_page fuel params v page :
  gen_request_loop request fuel url (dict_set params "page" v) page =
  gen_request_loop request fuel url params page.
Proof.
  destruct fuel as [|fuel]; simpl; auto.
  now rewrite dict_set_set.
Qed.

Lemma gen_request_loop_full fuel params page data :
  request url (dict_set params "page" (VInt page)) = Ok data ->
  List.length data = 100%nat ->
  gen_request_loop request (S fuel) url params page =
  ((GRequest url (dict_set params "page" (VInt page)) :: map GYield data)
     ++ fst (gen_request_loop request fuel url params (page + 1)),
   snd (gen_request_loop request fuel url params (page + 1)))%list.
Proof.
  intros Hreq Hlen. simpl. rewrite Hreq, Hlen. simpl.
  rewrite gen_request_loop_page.
  now destruct (gen_request_loop request fuel url params (page + 1)).
Qed.

Lemma gen_request_loop_short fuel params page data :
  request url (dict_set params "page" (VInt page)) = Ok data ->
  List.length data <> 100%nat ->
  gen_request_loop request (S fuel) url params page =
  (GRequest url (dict_set params "page" (VInt page)) :: map GYield data, Ok tt).
Proof.
  intros Hreq Hlen. simpl. rewrite Hreq.
  destruct (Z.of_nat (List.length data) =? PER_PAGE) eqn:E; auto.
  apply Z.eqb_eq in E. unfold PER_PAGE in E. lia.
Qed.

Lemma gen_request_loop_raise fuel params page e :
  request url (dict_set params "page" (VInt page)) = Raise e ->
  gen_request_loop request (S fuel) url params page =
  ([GRequest url (dict_set params "page" (VInt page))], Raise e).
Proof. intros Hreq. simpl. now rewrite Hreq. Qed.

Lemma yielded_app a b : yielded (a ++ b) = (yielded a ++ yielded b)%list.
Proof.
  induction a as [|[u p|r] a IH]; simpl; auto. now rewrite IH.
Qed.

Lemma issued_app a b : issued (a ++ b) = (issued a ++ issued b)%list.
Proof.
  induction a as [|[u p|r] a IH]; simpl; auto. now rewrite IH.
Qed.

Lemma yielded_map_GYield data : yielded (map GYield data) = data.
Proof. induction data; simpl; auto. now rewrite IHdata. Qed.

Lemma issued_map_GYield data : issued (map GYield data) = [].
Proof. induction data; simpl; auto. Qed.

Lemma flat_map_shift {A} (f : nat -> list A) (l : list nat) :
  flat_map f (map S l) = flat_map (fun i => f (S i)) l.
Proof. induction l; simpl; auto. now rewrite IHl. Qed.

(** [n] full pages from [first] on, then a page that is not full. *)
Lemma gen_request_loop_pages params :
  forall (n : nat) (first : Z) (page : nat -> list value) (fuel : nat),
    (n < fuel)%nat ->
    (forall i, (i <= n)%nat ->
       request url (dict_set params "page" (VInt (first + Z.of_nat i))) = Ok (page i)) ->
    (forall i, (i < n)%nat -> List.length (page i) = 100%nat) ->
    List.length (page n) <> 100%nat ->
    let g := gen_request_loop request fuel url params first in
    snd g = Ok tt /\
    yielded (fst g) = flat_map page (seq 0 (S n)) /\
    issued (fst g) =
      map (fun i => (url, dict_set params "page" (VInt (first + Z.of_nat i))))
          (seq 0 (S n)).
Proof.
  induction n as [|n IH]; intros first page fuel Hfuel Hreq Hfull Hshort.
  - destruct fuel as [|fuel]; [lia|].
    assert (H0 := Hreq 0%nat (le_n _)). simpl in H0. rewrite Z.add_0_r in H0.
    cbv zeta. rewrite (gen_request_loop_short _ _ _ _ H0 Hshort). simpl.
    rewrite yielded_map_GYield, issued_map_GYield, app_nil_r, Z.add_0_r. auto.
  - destruct fuel as [|fuel]; [lia|].
    assert (H0 := Hreq 0%nat (Nat.le_0_l _)). simpl in H0. rewrite Z.add_0_r in H0.
    cbv zeta.
    rewrite (gen_request_loop_full _ _ _ _ H0 (Hfull 0%nat (Nat.lt_0_succ _))).
    specialize (IH (first + 1) (fun i => page (S i)) fuel).
    assert (Hreq' : forall i, (i <= n)%nat ->
       request url (dict_set params "page" (VInt (first + 1 + Z.of_nat i)))
         = Ok (page (S i))).
    { intros i Hi. rewrite <- (Hreq (S i)) by lia. do 3 f_equal. lia. }
    destruct (IH ltac:(lia) Hreq' ltac:(intros i Hi; apply Hfull; lia) Hshort)
      as (Hfin & Hy & Hi).
    cbn [fst snd]. split; [exact Hfin|]. split.
    + cbn [app yielded]. rewrite yielded_app, yielded_map_GYield, Hy.
      change (seq 0 (S (S n))) with (0%nat :: seq 1 (S n)).
      cbn [flat_map]. f_equal. now rewrite <- seq_shift, flat_map_shift.
    + cbn [app issued]. rewrite issued_app, issued_map_GYield, Hi. cbn [app].
      change (seq 0 (S (S n))) with (0%nat :: seq 1 (S n)).
      cbn [map]. rewrite Z.add_0_r. f_equal.
      rewrite <- seq_shift, map_map. apply map_ext. intros i.
      do 3 f_equal. lia.
Qed.

End Paginator.

Lemma page_params_query params page :
  dict_get (page_params params page) "per_page" = Some (VInt 100) /\
  dict_get (page_params params page) "page" = Some (VInt page).
Proof.
  unfold page_params. split.
  - rewrite dict_get_set_other by discriminate. apply dict_get_set_same.
  - apply dict_get_set_same.
Qed.

(** Whatever the upstream answers, the requests issued are those of the
    pages [first], [first + 1], ... and every request but the last was
    answered by a page of exactly 100 rows. *)
Lemma gen_request_loop_shape request url params :
  forall fuel first,
    exists m : nat,
      issued (fst (gen_request_loop request fuel url params first)) =
        map (fun i => (url, dict_set params "page" (VInt (first + Z.of_nat i))))
            (seq 0 m) /\
      forall i, (S i < m)%nat ->
        exists data,
          request url (dict_set params "page" (VInt (first + Z.of_nat i))) = Ok data /\
          List.length data = 100%nat.
Proof.
  induction fuel as [|fuel IH]; intros first.
  - exists 0%nat. split; [reflexivity | intros; lia].
  - destruct (request url (dict_set params "page" (VInt first))) as [data|e|] eqn:Hreq.
    + destruct (Nat.eq_dec (List.length data) 100) as [Hlen|Hlen].
      * rewrite (gen_request_loop_full _ _ _ _ _ _ Hreq Hlen).
        destruct (IH (first + 1)) as (m & Hm & Hfull).
        exists (S m). cbn [fst]. split.
        -- cbn [app issued]. rewrite issued_app, issued_map_GYield, Hm. cbn [app].
           change (seq 0 (S m)) with (0%nat :: seq 1 m). cbn [map].
           rewrite Z.add_0_r. f_equal.
           rewrite <- seq_shift, map_map. apply map_ext. intros i.
           do 3 f_equal. lia.
        -- intros [|i] Hi.
           ++ exists data. simpl. rewrite Z.add_0_r. auto.
           ++ destruct (Hfull i ltac:(lia)) as (d & Hd & Hl).
              exists d. split; auto. rewrite <- Hd. do 3 f_equal. lia.
      * rewrite (gen_request_loop_short _ _ _ _ _ _ Hreq Hlen).
        exists 1%nat. split.
        -- simpl. now rewrite issued_map_GYield, Z.add_0_r.
        -- intros; lia.
    + rewrite (gen_request_loop_raise _ _ _ _ _ _ Hreq).
      exists 1%nat. split; [simpl; now rewrite Z.add_0_r | intros; lia].
    + exists 1%nat. simpl. rewrite Hreq. simpl. rewrite Z.add_0_r.
      split; [reflexivity | intros; lia].
Qed.

(** C5.  [gen_request] yields the rows one by one in the order received.
    It asks for page 1 first, always with [per_page] = 100; it asks for the
    next page only after a page of exactly 100 rows, and stops after the
    first page with fewer than 100 rows.  Against an upstream holding 250
    records, served as pages of 100, 100 and 50, it yields the 250 records
    and issues 3 requests. *)
Theorem gen_request_pagination :
  (forall params page,
     dict_get (page_params params page) "per_page" = Some (VInt 100) /\
     dict_get (page_params params page) "page" = Some (VInt page)) /\
  (forall request url params (n : nat) (page : nat -> list value) (fuel : nat),
     (n < fuel)%nat ->
     (forall i, (i <= n)%nat ->
        request url (page_params params (1 + Z.of_nat i)) = Ok (page i)) ->
     (forall i, (i < n)%nat -> List.length (page i) = 100%nat) ->
     (List.length (page n) < 100)%nat ->
     let g := gen_request request fuel url params in
     snd g = Ok tt /\
     yielded (fst g) = flat_map page (seq 0 (S n)) /\
     issued (fst g) =
       map (fun i => (url, page_params params (1 + Z.of_nat i))) (seq 0 (S n))) /\
  (forall request url params fuel,
     exists m : nat,
       issued (fst (gen_request request fuel url params)) =
         map (fun i => (url, page_params params (1 + Z.of_nat i))) (seq 0 m) /\
       forall i, (S i < m)%nat ->
         exists data,
           request url (page_params params (1 + Z.of_nat i)) = Ok data /\
           List.length data = 100%nat) /\
  (let g := gen_request api250 3 "https://acme.freshdesk.com/api/v2/contacts" None in
   snd g = Ok tt /\
   yielded (fst g) = records250 /\
   List.length (yielded (fst g)) = 250%nat /\
   List.length (issued (fst g)) = 3%nat).
Proof.
  split; [apply page_params_query|]. split; [|split].
  - intros request url params n page fuel Hfuel Hreq Hfull Hshort.
    unfold gen_request, page_params in *.
    apply gen_request_loop_pages; auto. lia.
  - intros request url params fuel. unfold gen_request, page_params.
    apply gen_request_loop_shape.
  - vm_compute. repeat split; reflexivity.
Qed.

Lemma gen_request_pagination_witness :
  let g := gen_request api250 5 "u" None in
  snd g = Ok tt /\
  yielded (fst g) =
    flat_map (fun i => firstn 100 (skipn (100 * i) records250)) (seq 0 3) /\
  issued (fst g) = map (fun i => ("u", page_params None (1 + Z.of_nat i))) (seq 0 3).
Proof.
  apply (proj1 (proj2 gen_request_pagination) api250 "u" None 2%nat
           (fun i => firstn 100 (skipn (100 * i) records250)) 5%nat).
  - lia.
  - intros i Hi.
    destruct i as [|[|[|i]]]; [reflexivity | reflexivity | reflexivity | lia].
  - intros i Hi. destruct i as [|[|i]]; [reflexivity | reflexivity | lia].
  - vm_compute. lia.
Defined.

(* ================================================================== *)
(** * Request executor *)
(* ================================================================== *)

Section ExecutorFacts.

Import Executor.
Local Open Scope nat_scope.

Variable server : nat -> sent.













End ExecutorFacts.




(* ================================================================== *)
(** * Runs and their traces *)
(* ================================================================== *)

Section Runs.

Context {A B : Type}.

Lemma trace_bind (m : M A) (f : A -> M B) st :
  trace (bind m f st) =
  (trace (m st) ++
   match outcome (m st) with
   | Ok a => trace (f a (final_state (m st)))
   | _ => []
   end)%list.
Proof.
  unfold bind, trace, outcome, final_state.
  destruct (m st) as [[[a|e|] st1] tr1]; simpl; try now rewrite app_nil_r.
  now destruct (f a st1) as [[r st2] tr2].
Qed.

Lemma outcome_bind (m : M A) (f : A -> M B) st :
  outcome (bind m f st) =
  match outcome (m st) with
  | Ok a => outcome (f a (final_state (m st)))
  | Raise e => Raise e
  | Fuel => Fuel
  end.
Proof.
  unfold bind, outcome, final_state.
  destruct (m st) as [[[a|e|] st1] tr1]; simpl; auto.
  now destruct (f a st1) as [[r st2] tr2].
Qed.

Lemma final_state_bind (m : M A) (f : A -> M B) st :
  final_state (bind m f st) =
  match outcome (m st) with
  | Ok a => final_state (f a (final_state (m st)))
  | _ => final_state (m st)
  end.
Proof.
  unfold bind, outcome, final_state.
  destruct (m st) as [[[a|e|] st1] tr1]; simpl; auto.
  now destruct (f a st1) as [[r st2] tr2].
Qed.

End Runs.

Lemma trace_try_except (m : M unit) handler st :
  trace (try_except_HTTPError m handler st) =
  (trace (m st) ++
   match outcome (m st) with
   | Raise (HTTPError status content) =>
       trace (handler status content (final_state (m st)))
   | _ => []
   end)%list.
Proof.
  unfold try_except_HTTPError, trace, outcome, final_state.
  destruct (m st) as [[[a|e|] st1] tr1]; simpl; try now rewrite app_nil_r.
  destruct e; simpl; try now rewrite app_nil_r.
  now destruct (handler status_code content st1) as [[r st2] tr2].
Qed.

Lemma outcome_try_except (m : M unit) handler st :
  outcome (try_except_HTTPError m handler st) =
  match outcome (m st) with
  | Raise (HTTPError status content) =>
      outcome (handler status content (final_state (m st)))
  | other => other
  end.
Proof.
  unfold try_except_HTTPError, outcome, final_state.
  destruct (m st) as [[[a|e|] st1] tr1]; simpl; auto.
  destruct e; simpl; auto.
  now destruct (handler status_code content st1) as [[r st2] tr2].
Qed.

Lemma records_of_app s a b :
  records_of s (a ++ b) = (records_of s a ++ records_of s b)%list.
Proof.
  induction a as [|[u p|s'|e v|s' r|st] a IH]; simpl; auto.
  destruct (String.eqb s' s); simpl; now rewrite IH.
Qed.

Lemma written_app a b : written (a ++ b) = (written a ++ written b)%list.
Proof.
  induction a as [|[u p|s'|e v|s' r|st] a IH]; simpl; auto. now rewrite IH.
Qed.

Lemma advances_app ns a b :
  advances ns (a ++ b) = (advances ns a ++ advances ns b)%list.
Proof.
  induction a as [|[u p|s'|e v|s' r|st] a IH]; simpl; auto.
  destruct (String.eqb e ns); simpl; now rewrite IH.
Qed.

(** A property of traces kept by concatenation holds of a loop when it
    holds of its requests and of every run of its body. *)
Lemma for_each_items_trace (P : list event -> Prop) (body : value -> M unit) :
  P [] ->
  (forall a b, P a -> P b -> P (a ++ b)%list) ->
  (forall u p, P [EvRequest u p]) ->
  (forall row st, P (trace (body row st))) ->
  forall items fin st, P (trace (for_each_items items fin body st)).
Proof.
  intros Hnil Happ Hreq Hbody.
  induction items as [|[u p|row] items IH]; intros fin st; cbn [for_each_items].
  - exact Hnil.
  - rewrite trace_bind. apply Happ; [apply Hreq|].
    destruct (outcome (emit (EvRequest u p) st)); auto.
  - rewrite trace_bind. apply Happ; [apply Hbody|].
    destruct (outcome (body row st)); auto.
Qed.

(** A property of traces that holds of the empty trace and is kept by
    concatenation holds of a compound statement when it holds of its
    parts. *)
Section TraceInvariant.

Variable P : list event -> Prop.
Hypothesis P_nil : P [].
Hypothesis P_app : forall a b, P a -> P b -> P (a ++ b)%list.

Lemma bind_trace {A B} (m : M A) (f : A -> M B) st :
  P (trace (m st)) ->
  (forall a st', P (trace (f a st'))) ->
  P (trace (bind m f st)).
Proof.
  intros Hm Hf. rewrite trace_bind. apply P_app; auto.
  destruct (outcome (m st)); auto.
Qed.

Lemma try_except_trace (m : M unit) handler st :
  P (trace (m st)) ->
  (forall status content st', P (trace (handler status content st'))) ->
  P (trace (try_except_HTTPError m handler st)).
Proof.
  intros Hm Hh. rewrite trace_try_except. apply P_app; auto.
  destruct (outcome (m st)) as [a|e|]; auto. destruct e; auto.
Qed.

Lemma lift_trace {A} (r : result A) st : P (trace (lift r st)).
Proof. exact P_nil. Qed.

Lemma ret_trace {A} (a : A) st : P (trace (ret a st)).
Proof. exact P_nil. Qed.

Lemma raise_trace {A} e st : P (trace (@raise A e st)).
Proof. exact P_nil. Qed.

Lemma getitem_trace d k st : P (trace (getitem d k st)).
Proof. unfold getitem. destruct (dict_get d k); exact P_nil. Qed.

Lemma as_dict_trace row st : P (trace (as_dict row st)).
Proof. destruct row; exact P_nil. Qed.

Lemma read_state_trace st : P (trace (read_state st)).
Proof. exact P_nil. Qed.

Lemma for_each_trace (g : generator) (body : value -> M unit) st :
  (forall u p, P [EvRequest u p]) ->
  (forall row st', P (trace (body row st'))) ->
  P (trace (for_each g body st)).
Proof.
  intros Hreq Hbody. unfold for_each. now apply for_each_items_trace.
Qed.

End TraceInvariant.

(* ================================================================== *)
(** * Flat sync *)
(* ================================================================== *)

Lemma advance_then_emit_app entity stream bookmark a b :
  advance_then_emit entity stream bookmark a ->
  advance_then_emit entity stream bookmark b ->
  advance_then_emit entity stream bookmark (a ++ b).
Proof.
  induction 1; intros Hb; simpl; auto.
  - apply ate_pair; auto.
  - apply ate_other; auto.
Qed.

Section FlatSync.

Variable CONFIG : config.
Variable request : string -> dict -> result (list value).

(** The two ways the body of the loop ends: nothing done, or the record
    kept, the watermark advanced and the record emitted. *)
Lemma sync_row_cases entity start row st :
  let x := sync_row entity "updated_at" start row st in
  (trace x = [] /\ final_state x = st) \/
  (exists d d' v,
      row = VDict d /\
      dict_get d "updated_at" = Some v /\
      ge v start = Ok true /\
      dict_get d' "updated_at" = Some v /\
      (dict_get d "custom_fields" = None -> d' = d) /\
      x = (Ok tt, update_state st entity v,
           [EvUpdateState entity v; EvWriteRecord entity (VDict d')])).
Proof.
  cbv zeta. unfold sync_row.
  destruct row as [| | | |l|d]; try (left; split; reflexivity).
  run_py.
  destruct (dict_get d "updated_at") as [v|] eqn:Hv; [|left; split; reflexivity].
  destruct (ge v start) as [[|]|e|] eqn:Hge; try (left; split; reflexivity).
  unfold dict_mem.
  destruct (dict_get d "custom_fields") as [cf|] eqn:Hcf.
  - destruct (transform_dict cf "name" "value" true) as [cf'|e|] eqn:Ht;
      try (left; split; reflexivity).
    rewrite dict_get_set_other by discriminate. rewrite Hv.
    right. exists d, (dict_set d "custom_fields" cf'), v.
    repeat split; auto.
    + rewrite dict_get_set_other by discriminate. exact Hv.
    + congruence.
  - rewrite Hv.
    right. exists d, d, v. repeat split; auto.
Qed.

Lemma sync_row_trace entity start row st :
  advance_then_emit entity entity "updated_at"
    (trace (sync_row entity "updated_at" start row st)).
Proof.
  destruct (sync_row_cases entity start row st) as [[Ht _]|(d & d' & v & _ & _ & _ & Hv & _ & Hx)].
  - rewrite Ht. constructor.
  - cbv zeta in Hx. rewrite Hx. unfold trace. cbn [snd].
    apply ate_pair; [|constructor].
    simpl. now rewrite Hv.
Qed.

Lemma sync_time_filtered_trace fuel entity st :
  advance_then_emit entity entity "updated_at"
    (trace (sync_time_filtered CONFIG request fuel entity st)).
Proof.
  pose proof (ate_nil entity entity "updated_at") as Hnil.
  pose proof (advance_then_emit_app entity entity "updated_at") as Happ.
  unfold sync_time_filtered.
  apply bind_trace; auto.
  { apply ate_other; [exact I | constructor]. }
  intros _ st1. apply bind_trace; auto.
  intros STATE st2. apply bind_trace; auto.
  intros url st3. apply bind_trace; auto.
  - apply for_each_trace; auto.
    + intros u p. apply ate_other; [exact I | constructor].
    + intros row st'. apply sync_row_trace.
  - intros _ st4. apply ate_other; [exact I | constructor].
Qed.

End FlatSync.

(* ================================================================== *)
(** * Hierarchical sync *)
(* ================================================================== *)

Section HierarchicalSync.

Variable CONFIG : config.
Variable request : string -> dict -> result (list value).

Lemma sub_events_app bookmark start a b :
  Forall (sub_event bookmark start) a -> Forall (sub_event bookmark start) b ->
  Forall (sub_event bookmark start) (a ++ b).
Proof. intros Ha Hb. apply Forall_app. now split. Qed.

Lemma sub_row_trace stream bookmark start subrow st :
  In stream ["conversations"; "satisfaction_ratings"; "time_entries"] ->
  Forall (sub_event bookmark start)
    (trace ((subrow <- as_dict subrow ;;
             b <- getitem subrow bookmark ;;
             keep <- lift (ge b start) ;;
             if keep : bool then write_record stream subrow else ret tt) st)).
Proof.
  intros Hin. destruct subrow as [| | | |l|d]; try (run_py; constructor).
  run_py. destruct (dict_get d bookmark) as [b|] eqn:Hb; [|constructor].
  destruct (ge b start) as [[|]|e|] eqn:Hge; try constructor; [|constructor].
  simpl. split; auto. exists b. now rewrite Hb.
Qed.

Lemma ratings_row_trace bookmark start subrow st :
  Forall (sub_event bookmark start)
    (trace ((subrow <- as_dict subrow ;;
             ratings <- getitem subrow "ratings" ;;
             ratings <- lift (transform_dict ratings "question" "value" false) ;;
             let subrow := dict_set subrow "ratings" ratings in
             b <- getitem subrow bookmark ;;
             keep <- lift (ge b start) ;;
             if keep : bool then write_record "satisfaction_ratings" subrow
             else ret tt) st)).
Proof.
  destruct subrow as [| | | |l|d]; try (run_py; constructor).
  run_py. destruct (dict_get d "ratings") as [r|] eqn:Hr; [|constructor].
  destruct (transform_dict r "question" "value" false) as [r'|e|]; try constructor.
  destruct (dict_get (dict_set d "ratings" r') bookmark) as [b|] eqn:Hb; [|constructor].
  destruct (ge b start) as [[|]|e|] eqn:Hge; try constructor; [|constructor].
  simpl. split; auto. exists b. now rewrite Hb.
Qed.

Lemma sync_conversations_trace fuel bookmark start id st :
  Forall (sub_event bookmark start)
    (trace (sync_conversations CONFIG request fuel bookmark start id st)).
Proof.
  pose proof (Forall_nil (sub_event bookmark start)) as Hnil.
  pose proof (sub_events_app bookmark start) as Happ.
  unfold sync_conversations. apply try_except_trace; auto.
  - apply bind_trace; auto. intros url st'. apply for_each_trace; auto.
    + intros u p. constructor; [exact I | constructor].
    + intros row st''. apply sub_row_trace. simpl. auto.
  - intros status content st'. destruct (status =? 403); exact Hnil.
Qed.

Lemma sync_satisfaction_ratings_trace fuel bookmark start id st :
  Forall (sub_event bookmark start)
    (trace (sync_satisfaction_ratings CONFIG request fuel bookmark start id st)).
Proof.
  pose proof (Forall_nil (sub_event bookmark start)) as Hnil.
  pose proof (sub_events_app bookmark start) as Happ.
  unfold sync_satisfaction_ratings. apply try_except_trace; auto.
  - apply bind_trace; auto. intros url st'. apply for_each_trace; auto.
    + intros u p. constructor; [exact I | constructor].
    + intros row st''. apply ratings_row_trace.
  - intros status content st'. destruct (status =? 403); exact Hnil.
Qed.

Lemma sync_time_entries_trace fuel bookmark start id st :
  Forall (sub_event bookmark start)
    (trace (sync_time_entries CONFIG request fuel bookmark start id st)).
Proof.
  pose proof (Forall_nil (sub_event bookmark start)) as Hnil.
  pose proof (sub_events_app bookmark start) as Happ.
  unfold sync_time_entries. apply try_except_trace; auto.
  - apply bind_trace; auto. intros url st'. apply for_each_trace; auto.
    + intros u p. constructor; [exact I | constructor].
    + intros row st''. apply sub_row_trace. simpl. auto.
  - intros status content st'.
    destruct (status =? 403); [exact Hnil|].
    destruct (status =? 404); exact Hnil.
Qed.

(** The two ways the body of the loop over the tickets ends: with the
    events of some sub-resource loops only and no normal end, or with the
    watermark advanced, the ticket emitted and the state written. *)
Lemma sync_ticket_cases fuel bookmark start state_entity row st :
  let x := sync_ticket CONFIG request fuel bookmark start state_entity row st in
  exists sub,
    Forall (sub_event bookmark start) sub /\
    ((trace x = sub /\ outcome x <> Ok tt) \/
     (exists d d' v st',
         row = VDict d /\
         ticket_record d = Some d' /\
         dict_get d' bookmark = Some v /\
         outcome x = Ok tt /\
         trace x = (sub ++ [EvUpdateState state_entity v;
                            EvWriteRecord "tickets" (VDict d');
                            EvWriteState st'])%list)).
Proof.
  cbv zeta. unfold sync_ticket.
  destruct row as [| | | |l|d];
    try (exists []; split; [apply Forall_nil | left; split; [reflexivity | discriminate]]).
  rewrite trace_bind, outcome_bind. cbn [as_dict ret trace outcome final_state fst snd app].
  rewrite trace_bind, outcome_bind. unfold getitem.
  destruct (dict_get d "id") as [id|] eqn:Hid;
    [|exists []; split; [apply Forall_nil | left; split; [reflexivity | discriminate]]].
  cbn [ret trace outcome final_state fst snd app].
  rewrite trace_bind, outcome_bind. unfold getitem.
  unfold ticket_record.
  destruct (dict_get (dict_pop d "attachments") "custom_fields") as [cf|] eqn:Hcf;
    [|exists []; split; [apply Forall_nil | left; split; [reflexivity | discriminate]]].
  cbn [ret trace outcome final_state fst snd app].
  rewrite trace_bind, outcome_bind. unfold lift.
  destruct (transform_dict cf "name" "value" true) as [cf'|e|] eqn:Hcf';
    try (exists []; split; [apply Forall_nil | left; split; [reflexivity | discriminate]]).
  cbn [trace outcome final_state fst snd app].
  set (row' := dict_set (dict_pop d "attachments") "custom_fields" cf').
  pose proof (sync_conversations_trace fuel bookmark start id st) as H1.
  rewrite trace_bind, outcome_bind.
  destruct (outcome (sync_conversations CONFIG request fuel bookmark start id st))
    as [[]|e|] eqn:E1;
    try (eexists; split; [exact H1 | left; split; [now rewrite app_nil_r | discriminate]]).
  set (st1 := final_state (sync_conversations CONFIG request fuel bookmark start id st)).
  pose proof (sync_satisfaction_ratings_trace fuel bookmark start id st1) as H2.
  rewrite trace_bind, outcome_bind.
  destruct (outcome (sync_satisfaction_ratings CONFIG request fuel bookmark start id st1))
    as [[]|e|] eqn:E2;
    try (eexists; split; [exact (sub_events_app _ _ _ _ H1 H2)
                         | left; split; [now rewrite app_nil_r | discriminate]]).
  set (st2 := final_state
                (sync_satisfaction_ratings CONFIG request fuel bookmark start id st1)).
  pose proof (sync_time_entries_trace fuel bookmark start id st2) as H3.
  rewrite trace_bind, outcome_bind.
  destruct (outcome (sync_time_entries CONFIG request fuel bookmark start id st2))
    as [[]|e|] eqn:E3;
    try (eexists; split; [exact (sub_events_app _ _ _ _ H1 (sub_events_app _ _ _ _ H2 H3))
                         | left; split; [now rewrite app_nil_r | discriminate]]).
  set (st3 := final_state (sync_time_entries CONFIG request fuel bookmark start id st2)).
  exists (trace (sync_conversations CONFIG request fuel bookmark start id st) ++
          trace (sync_satisfaction_ratings CONFIG request fuel bookmark start id st1) ++
          trace (sync_time_entries CONFIG request fuel bookmark start id st2))%list.
  split; [exact (sub_events_app _ _ _ _ H1 (sub_events_app _ _ _ _ H2 H3))|].
  run_py. fold row'.
  destruct (dict_get row' bookmark) as [v|] eqn:Hv.
  - right. exists d, row', v, (update_state st3 state_entity v).
    split; [reflexivity|]. split; [now rewrite Hcf, Hcf'|].
    split; [exact Hv|]. split; [reflexivity|].
    cbn [app]. now rewrite <- !app_assoc.
  - left. split; [now rewrite !app_nil_r | discriminate].
Qed.

End HierarchicalSync.

(* ================================================================== *)
(** * Order of advance and emission *)
(* ================================================================== *)

Section Orchestrator.

Variable CONFIG : config.
Variable request : string -> dict -> result (list value).

Lemma sub_events_advance_then_emit entity bookmark start tr :
  Forall (sub_event bookmark start) tr ->
  advance_then_emit entity "tickets" bookmark tr.
Proof.
  induction 1 as [|e tr He _ IH]; [constructor|].
  apply ate_other; auto.
  destruct e as [u p|s|e v|s r|st]; simpl in *; auto.
  destruct He as [[<-|[<-|[<-|[]]]] _]; discriminate.
Qed.

Lemma sync_ticket_trace fuel bookmark start state_entity row st :
  advance_then_emit state_entity "tickets" bookmark
    (trace (sync_ticket CONFIG request fuel bookmark start state_entity row st)).
Proof.
  destruct (sync_ticket_cases CONFIG request fuel bookmark start state_entity row st)
    as (sub & Hsub & [[Ht _]|(d & d' & v & st' & _ & _ & Hv & _ & Ht)]);
    rewrite Ht.
  - now apply sub_events_advance_then_emit with (start := start).
  - apply advance_then_emit_app.
    + now apply sub_events_advance_then_emit with (start := start).
    + apply ate_pair; [simpl; now rewrite Hv|].
      apply ate_other; [exact I | constructor].
Qed.

Lemma sync_tickets_by_filter_trace fuel bookmark predefined_filter st :
  advance_then_emit (ticket_namespace predefined_filter) "tickets" bookmark
    (trace (sync_tickets_by_filter CONFIG request fuel bookmark predefined_filter st)).
Proof.
  pose proof (ate_nil (ticket_namespace predefined_filter) "tickets" bookmark) as Hnil.
  pose proof (advance_then_emit_app (ticket_namespace predefined_filter) "tickets" bookmark)
    as Happ.
  unfold sync_tickets_by_filter.
  apply bind_trace; auto. intros STATE st1.
  apply bind_trace; auto. intros url st2.
  apply for_each_trace; auto.
  - intros u p. apply ate_other; [exact I | constructor].
  - intros row st'. apply sync_ticket_trace.
Qed.

End Orchestrator.

(** C1, as stated, fails: in both strategies the watermark is advanced
    before the record is handed to the sink. *)
Lemma advance_precedes_emission :
  trace (sync_time_filtered example_config example_api 5 "roles" []) =
    [ EvWriteSchema "roles";
      EvRequest "https://acme.freshdesk.com/api/v2/roles"
                [("per_page", VInt 100); ("page", VInt 1)];
      EvUpdateState "roles" (VStr "2021-03-01T10:00:00Z");
      EvWriteRecord "roles" role1;
      EvWriteState [("roles", VStr "2021-03-01T10:00:00Z")] ] /\
  emitted_before_advance []
    (trace (sync_time_filtered example_config example_api 5 "roles" [])) = false /\
  emitted_before_advance []
    (trace (sync_tickets_by_filter example_config example_api 5 "updated_at" None []))
    = false.
Proof. repeat split; reflexivity. Qed.

(** C1, amended.  For every top-level record emitted (a ticket in
    [sync_tickets_by_filter], a flat-entity record in [sync_time_filtered])
    the watermark of the record's namespace is advanced to the record's
    bookmark value immediately before the record is handed to the sink:
    every advance is directly followed by the emission of the record that
    carries that bookmark, and no such record is emitted otherwise. *)
Theorem advance_immediately_before_emission
    (CONFIG : config) (request : string -> dict -> result (list value))
    (fuel : nat) (STATE : dict) :
  (forall entity,
     advance_then_emit entity entity "updated_at"
       (trace (sync_time_filtered CONFIG request fuel entity STATE))) /\
  (forall bookmark_property predefined_filter,
     advance_then_emit (ticket_namespace predefined_filter) "tickets" bookmark_property
       (trace (sync_tickets_by_filter CONFIG request fuel bookmark_property
                 predefined_filter STATE))).
Proof.
  split.
  - intros entity. apply sync_time_filtered_trace.
  - intros bookmark_property predefined_filter. apply sync_tickets_by_filter_trace.
Qed.

(* ================================================================== *)
(** * The client-side comparison *)
(* ================================================================== *)

Section Comparison.

Variable CONFIG : config.
Variable request : string -> dict -> result (list value).

Lemma records_kept_nil exempt streams bookmark start :
  records_kept exempt streams bookmark start [].
Proof. constructor. Qed.

Lemma records_kept_app exempt streams bookmark start a b :
  records_kept exempt streams bookmark start a ->
  records_kept exempt streams bookmark start b ->
  records_kept exempt streams bookmark start (a ++ b).
Proof. intros Ha Hb. apply Forall_app. now split. Qed.

Lemma records_kept_request exempt streams bookmark start u p :
  records_kept exempt streams bookmark start [EvRequest u p].
Proof. constructor; [exact I | constructor]. Qed.

Lemma sync_row_kept entity start row st :
  records_kept (fun _ => False) [entity] "updated_at" start
    (trace (sync_row entity "updated_at" start row st)).
Proof.
  destruct (sync_row_cases entity start row st)
    as [[Ht _]|(d & d' & v & _ & _ & Hge & Hv & _ & Hx)].
  - rewrite Ht. constructor.
  - cbv zeta in Hx. rewrite Hx. unfold trace. cbn [snd].
    constructor; [exact I|]. constructor; [|constructor].
    right. split; [simpl; auto|].
    exists v. simpl. now rewrite Hv.
Qed.

Lemma sync_time_filtered_kept fuel entity st :
  records_kept (fun _ => False) [entity] "updated_at" (get_start CONFIG st entity)
    (trace (sync_time_filtered CONFIG request fuel entity st)).
Proof.
  set (start := get_start CONFIG st entity).
  pose proof (records_kept_nil (fun _ => False) [entity] "updated_at" start) as Hnil.
  pose proof (records_kept_app (fun _ => False) [entity] "updated_at" start) as Happ.
  unfold sync_time_filtered.
  rewrite trace_bind. cbn [write_schema emit trace outcome final_state fst snd].
  rewrite trace_bind. cbn [read_state trace outcome final_state fst snd].
  apply Happ; [constructor; [exact I | constructor]|]. apply Happ; [exact Hnil|].
  fold start.
  apply bind_trace; auto. intros url st3. apply bind_trace; auto.
  - apply for_each_trace; auto.
    + apply records_kept_request.
    + intros row st'. apply sync_row_kept.
  - intros _ st4. constructor; [exact I | constructor].
Qed.

Lemma sub_events_kept bookmark start tr :
  Forall (sub_event bookmark start) tr ->
  records_kept (fun s => s = "tickets")
    ["conversations"; "satisfaction_ratings"; "time_entries"] bookmark start tr.
Proof.
  induction 1 as [|e tr He _ IH]; constructor; auto.
  destruct e as [u p|s|e v|s r|st]; simpl in *; auto.
Qed.

Lemma sync_ticket_kept fuel bookmark start state_entity row st :
  records_kept (fun s => s = "tickets")
    ["conversations"; "satisfaction_ratings"; "time_entries"] bookmark start
    (trace (sync_ticket CONFIG request fuel bookmark start state_entity row st)).
Proof.
  destruct (sync_ticket_cases CONFIG request fuel bookmark start state_entity row st)
    as (sub & Hsub & [[Ht _]|(d & d' & v & st' & _ & _ & Hv & _ & Ht)]);
    rewrite Ht.
  - now apply sub_events_kept.
  - apply records_kept_app; [now apply sub_events_kept|].
    constructor; [exact I|]. constructor; [now left|].
    constructor; [exact I | constructor].
Qed.

Lemma sync_tickets_by_filter_kept fuel bookmark predefined_filter st :
  records_kept (fun s => s = "tickets")
    ["conversations"; "satisfaction_ratings"; "time_entries"]
    bookmark (get_start CONFIG st (ticket_namespace predefined_filter))
    (trace (sync_tickets_by_filter CONFIG request fuel bookmark predefined_filter st)).
Proof.
  set (start := get_start CONFIG st (ticket_namespace predefined_filter)).
  pose proof (records_kept_nil (fun s => s = "tickets")
                ["conversations"; "satisfaction_ratings"; "time_entries"]
                bookmark start) as Hnil.
  pose proof (records_kept_app (fun s => s = "tickets")
                ["conversations"; "satisfaction_ratings"; "time_entries"]
                bookmark start) as Happ.
  unfold sync_tickets_by_filter.
  rewrite trace_bind. cbn [read_state trace outcome final_state fst snd].
  apply Happ; [exact Hnil|].
  apply bind_trace; auto. intros url st2.
  apply for_each_trace; auto.
  - apply records_kept_request.
  - intros row st'. apply sync_ticket_kept.
Qed.

End Comparison.

(** C2, as stated, fails: a second run on the state the first run left
    emits again the record that carries the watermark, and the tickets and
    sub-resource records the upstream still returns. *)
Lemma rerun_emits_records :
  final_state (sync_time_filtered example_config example_api 5 "roles" []) =
    [("roles", VStr "2021-03-01T10:00:00Z")] /\
  written (trace (sync_time_filtered example_config example_api 5 "roles"
                    [("roles", VStr "2021-03-01T10:00:00Z")])) =
    [("roles", role1)] /\
  final_state (sync_tickets_by_filter example_config example_api 5 "updated_at" None []) =
    [("tickets", VStr "2019-06-01T00:00:00Z")] /\
  map fst (written (trace (sync_tickets_by_filter example_config example_api 5
                             "updated_at" None
                             [("tickets", VStr "2019-06-01T00:00:00Z")]))) =
    ["conversations"; "time_entries"; "tickets"].
Proof. repeat split; reflexivity. Qed.

(** C2, amended.  Whatever the persisted state and the upstream data, a run
    emits no flat-entity record and no sub-resource record whose bookmark
    fails the comparison with the namespace's starting watermark: every
    such record emitted has a bookmark [>=] the starting watermark, so a
    record carrying the watermark itself is emitted again. *)
Theorem only_kept_records_emitted
    (CONFIG : config) (request : string -> dict -> result (list value))
    (fuel : nat) (STATE : dict) :
  (forall entity s r,
     In (EvWriteRecord s r)
        (trace (sync_time_filtered CONFIG request fuel entity STATE)) ->
     s = entity /\ kept "updated_at" (get_start CONFIG STATE entity) r) /\
  (forall bookmark_property predefined_filter s r,
     In (EvWriteRecord s r)
        (trace (sync_tickets_by_filter CONFIG request fuel bookmark_property
                  predefined_filter STATE)) ->
     s <> "tickets" ->
     In s ["conversations"; "satisfaction_ratings"; "time_entries"] /\
     kept bookmark_property
          (get_start CONFIG STATE (ticket_namespace predefined_filter)) r).
Proof.
  split.
  - intros entity s r Hin.
    pose proof (sync_time_filtered_kept CONFIG request fuel entity STATE) as H.
    unfold records_kept in H. rewrite Forall_forall in H.
    destruct (H _ Hin) as [[]|[[<-|[]] Hk]]. auto.
  - intros bookmark_property predefined_filter s r Hin Hs.
    pose proof (sync_tickets_by_filter_kept CONFIG request fuel bookmark_property
                  predefined_filter STATE) as H.
    unfold records_kept in H. rewrite Forall_forall in H.
    destruct (H _ Hin) as [E|Hk]; [contradiction | exact Hk].
Qed.

Lemma only_kept_records_emitted_witness :
  kept "updated_at" (VStr "2021-03-01T10:00:00Z") role1 /\
  kept "updated_at" (VStr "2020-01-01T00:00:00Z") conversation_new.
Proof.
  split.
  - apply (proj1 (only_kept_records_emitted example_config example_api 5
                    [("roles", VStr "2021-03-01T10:00:00Z")]) "roles" "roles" role1).
    simpl. right. right. right. left. reflexivity.
  - apply (proj2 (only_kept_records_emitted example_config example_api 5 [])
             "updated_at" None "conversations" conversation_new).
    + simpl. right. right. left. reflexivity.
    + discriminate.
Defined.

(* ================================================================== *)
(** * Order of the watermark values *)
(* ================================================================== *)

Section WatermarkOrder.

Variable CONFIG : config.
Variable request : string -> dict -> result (list value).

(** A loop whose body advances the watermark at most once, to the bookmark
    of its row, advances it in the order of the rows. *)
Lemma for_each_items_advances entity bookmark (body : value -> M unit) :
  (forall row st,
     advances entity (trace (body row st)) = [] \/
     exists v, subscript row bookmark = Ok v /\
               advances entity (trace (body row st)) = [v]) ->
  forall items fin st,
    ascending bookmark (yielded items) ->
    non_decreasing (advances entity (trace (for_each_items items fin body st))) /\
    Forall (fun v => exists row, In row (yielded items) /\ subscript row bookmark = Ok v)
           (advances entity (trace (for_each_items items fin body st))).
Proof.
  intros Hbody. unfold ascending, non_decreasing.
  induction items as [|[u p|row] items IH]; intros fin st Hasc; cbn [for_each_items].
  - split; constructor.
  - rewrite trace_bind. cbn [emit trace outcome final_state fst snd app advances yielded].
    now apply IH.
  - rewrite trace_bind, advances_app. cbn [yielded] in *.
    apply StronglySorted_inv in Hasc. destruct Hasc as [Hasc Hrow].
    set (rest := match outcome (body row st) with
                 | Ok a => trace (for_each_items items fin body (final_state (body row st)))
                 | _ => []
                 end).
    assert (Hrest :
      StronglySorted (fun v1 v2 => ge v2 v1 = Ok true) (advances entity rest) /\
      Forall (fun v => exists row', In row' (yielded items) /\
                                    subscript row' bookmark = Ok v)
             (advances entity rest)).
    { subst rest. destruct (outcome (body row st)); [now apply IH | |];
        split; constructor. }
    destruct Hrest as [Hsorted Hfrom].
    assert (Hfrom' :
      Forall (fun v => exists row', In row' (row :: yielded items) /\
                                    subscript row' bookmark = Ok v)
             (advances entity rest)).
    { eapply Forall_impl; [|exact Hfrom].
      intros v (row' & Hin & Hv). exists row'. split; [now right | exact Hv]. }
    destruct (Hbody row st) as [Hnone|(v & Hv & Hone)].
    + rewrite Hnone. cbn [app]. split; assumption.
    + rewrite Hone. cbn [app]. split.
      * constructor; [exact Hsorted|].
        eapply Forall_impl; [|exact Hfrom].
        intros w (row' & Hin & Hw).
        rewrite Forall_forall in Hrow. exact (Hrow row' Hin v w Hv Hw).
      * constructor; [|exact Hfrom'].
        exists row. split; [now left | exact Hv].
Qed.

Lemma sync_row_advances entity start row st :
  advances entity (trace (sync_row entity "updated_at" start row st)) = [] \/
  exists v, subscript row "updated_at" = Ok v /\
            advances entity (trace (sync_row entity "updated_at" start row st)) = [v].
Proof.
  destruct (sync_row_cases entity start row st)
    as [[Ht _]|(d & d' & v & -> & Hd & _ & _ & _ & Hx)].
  - left. now rewrite Ht.
  - right. exists v. split; [simpl; now rewrite Hd|].
    cbv zeta in Hx. rewrite Hx. unfold trace. cbn [snd advances].
    now rewrite String.eqb_refl.
Qed.

Lemma sub_events_advances entity bookmark start tr :
  Forall (sub_event bookmark start) tr -> advances entity tr = [].
Proof.
  induction 1 as [|e tr He _ IH]; [reflexivity|].
  destruct e as [u p|s|e v|s r|st]; simpl in *; auto. contradiction.
Qed.

Lemma ticket_record_bookmark d d' :
  ticket_record d = Some d' ->
  dict_get d' "updated_at" = dict_get d "updated_at".
Proof.
  unfold ticket_record.
  destruct (dict_get (dict_pop d "attachments") "custom_fields") as [cf|]; [|discriminate].
  destruct (transform_dict cf "name" "value" true) as [l|e|]; try discriminate.
  intros H. inversion H; subst d'. clear H.
  rewrite dict_get_set_other by discriminate.
  now rewrite dict_get_pop_other by discriminate.
Qed.

Lemma sync_ticket_advances fuel start state_entity row st :
  advances state_entity
    (trace (sync_ticket CONFIG request fuel "updated_at" start state_entity row st)) = [] \/
  exists v, subscript row "updated_at" = Ok v /\
            advances state_entity
              (trace (sync_ticket CONFIG request fuel "updated_at" start
                        state_entity row st)) = [v].
Proof.
  destruct (sync_ticket_cases CONFIG request fuel "updated_at" start state_entity row st)
    as (sub & Hsub & [[Ht _]|(d & d' & v & st' & -> & Hrec & Hv & _ & Ht)]);
    rewrite Ht.
  - left. now apply sub_events_advances with (bookmark := "updated_at") (start := start).
  - right. exists v. split.
    + simpl. rewrite <- (ticket_record_bookmark d d' Hrec). now rewrite Hv.
    + rewrite advances_app.
      rewrite (sub_events_advances state_entity "updated_at" start sub Hsub).
      cbn [app advances]. now rewrite String.eqb_refl.
Qed.

Lemma sync_time_filtered_advances fuel entity st :
  ascending "updated_at" (flat_listing CONFIG request fuel entity) ->
  non_decreasing (advances entity (trace (sync_time_filtered CONFIG request fuel entity st))).
Proof.
  unfold flat_listing, sync_time_filtered. intros Hasc.
  rewrite trace_bind. cbn [write_schema emit trace outcome final_state fst snd].
  rewrite trace_bind. cbn [read_state trace outcome final_state fst snd].
  rewrite trace_bind. unfold lift at 1 2 3.
  cbn [trace outcome final_state fst snd app advances].
  destruct (get_url CONFIG entity []) as [url|e|]; try constructor.
  rewrite trace_bind, advances_app.
  replace (advances entity
             match outcome (for_each (gen_request request fuel url None)
                              (sync_row entity "updated_at"
                                 (get_start CONFIG st entity)) st) with
             | Ok _ => trace (write_state
                                (final_state
                                   (for_each (gen_request request fuel url None)
                                      (sync_row entity "updated_at"
                                         (get_start CONFIG st entity)) st)))
             | _ => []
             end) with (@nil value)
    by (now destruct (outcome (for_each (gen_request request fuel url None)
                                 (sync_row entity "updated_at"
                                    (get_start CONFIG st entity)) st))).
  rewrite app_nil_r. unfold for_each.
  apply (for_each_items_advances entity "updated_at"); auto.
  intros row st'. apply sync_row_advances.
Qed.

Lemma sync_tickets_by_filter_advances fuel predefined_filter st :
  ascending "updated_at"
    (tickets_listing CONFIG request fuel "updated_at" predefined_filter st) ->
  non_decreasing
    (advances (ticket_namespace predefined_filter)
       (trace (sync_tickets_by_filter CONFIG request fuel "updated_at"
                 predefined_filter st))).
Proof.
  unfold tickets_listing, sync_tickets_by_filter. intros Hasc.
  rewrite trace_bind. cbn [read_state trace outcome final_state fst snd].
  rewrite trace_bind. unfold lift at 1 2 3.
  cbn [trace outcome final_state fst snd app advances].
  cbv zeta in Hasc.
  destruct (get_url CONFIG "tickets" []) as [url|e|]; try constructor.
  unfold for_each.
  apply (for_each_items_advances (ticket_namespace predefined_filter) "updated_at");
    auto.
  intros row st'. apply sync_ticket_advances.
Qed.

End WatermarkOrder.

(** C3, as stated, fails: the watermark follows the order in which the
    upstream returns the records, and goes down when that order is not
    ascending. *)
Lemma watermark_decreases_on_unordered_listing :
  advances "groups"
    (trace (sync_time_filtered example_config example_api 5 "groups" [])) =
    [VStr "2021-05-01T00:00:00Z"; VStr "2021-03-01T00:00:00Z"] /\
  ge (VStr "2021-03-01T00:00:00Z") (VStr "2021-05-01T00:00:00Z") = Ok false /\
  final_state (sync_time_filtered example_config example_api 5 "groups" []) =
    [("groups", VStr "2021-03-01T00:00:00Z")].
Proof. repeat split; reflexivity. Qed.

(** C3, amended.  Within a run, for every namespace, when the upstream
    returns the records of the listing in ascending bookmark order the
    values stored into the watermark by the successive advances are
    non-decreasing; each advance stores the value it is given. *)
Theorem watermark_non_decreasing
    (CONFIG : config) (request : string -> dict -> result (list value))
    (fuel : nat) (STATE : dict) :
  (forall entity,
     ascending "updated_at" (flat_listing CONFIG request fuel entity) ->
     non_decreasing
       (advances entity (trace (sync_time_filtered CONFIG request fuel entity STATE)))) /\
  (forall predefined_filter,
     ascending "updated_at"
       (tickets_listing CONFIG request fuel "updated_at" predefined_filter STATE) ->
     non_decreasing
       (advances (ticket_namespace predefined_filter)
          (trace (sync_tickets_by_filter CONFIG request fuel "updated_at"
                    predefined_filter STATE)))) /\
  (forall st entity dt, dict_get (update_state st entity dt) entity = Some dt).
Proof.
  split; [|split].
  - intros entity. apply sync_time_filtered_advances.
  - intros predefined_filter. apply sync_tickets_by_filter_advances.
  - apply update_state_stores.
Qed.

Lemma watermark_non_decreasing_witness :
  non_decreasing
    (advances "agents" (trace (sync_time_filtered example_config example_api 5 "agents" []))).
Proof.
  apply (proj1 (watermark_non_decreasing example_config example_api 5 []) "agents").
  change (flat_listing example_config example_api 5 "agents")
    with [group_early; group_late].
  repeat constructor.
  intros b1 b2 H1 H2. inversion H1. inversion H2. reflexivity.
Defined.

(* ================================================================== *)
(** * Emission of the tickets *)
(* ================================================================== *)

Section Tickets.

Variable CONFIG : config.
Variable request : string -> dict -> result (list value).

Lemma sub_events_records bookmark start tr :
  Forall (sub_event bookmark start) tr -> records_of "tickets" tr = [].
Proof.
  induction 1 as [|e tr He _ IH]; [reflexivity|].
  destruct e as [u p|s|e v|s r|st]; simpl in *; auto.
  destruct He as [[<-|[<-|[<-|[]]]] _]; simpl; exact IH.
Qed.

Lemma sync_ticket_records fuel bookmark start state_entity row st :
  let x := sync_ticket CONFIG request fuel bookmark start state_entity row st in
  (outcome x = Ok tt /\
   exists r, emitted_as row r /\ records_of "tickets" (trace x) = [r]) \/
  (outcome x <> Ok tt /\ records_of "tickets" (trace x) = []).
Proof.
  cbv zeta.
  destruct (sync_ticket_cases CONFIG request fuel bookmark start state_entity row st)
    as (sub & Hsub & [[Ht Ho]|(d & d' & v & st' & -> & Hrec & Hv & Ho & Ht)]);
    rewrite Ht.
  - right. split; [exact Ho|]. now apply sub_events_records with bookmark start.
  - left. split; [exact Ho|]. exists (VDict d'). split.
    + now exists d, d'.
    + rewrite records_of_app, (sub_events_records bookmark start sub Hsub).
      reflexivity.
Qed.

(** The loop emits the tickets it goes through in order, up to the first
    whose processing fails. *)
Lemma for_each_items_tickets fuel bookmark start state_entity :
  forall items fin st,
    let x := for_each_items items fin
               (sync_ticket CONFIG request fuel bookmark start state_entity) st in
    exists n : nat,
      Forall2 emitted_as (firstn n (yielded items)) (records_of "tickets" (trace x)) /\
      (outcome x = Ok tt -> n = List.length (yielded items)).
Proof.
  induction items as [|[u p|row] items IH]; intros fin st; cbv zeta;
    cbn [for_each_items yielded].
  - exists 0%nat. split; [constructor | reflexivity].
  - rewrite trace_bind, outcome_bind.
    cbn [emit trace outcome final_state fst snd app records_of].
    apply IH.
  - rewrite trace_bind, outcome_bind, records_of_app.
    destruct (sync_ticket_records fuel bookmark start state_entity row st)
      as [[Ho (r & Hr & Hrec)]|[Ho Hrec]]; cbv zeta in *; rewrite Hrec.
    + rewrite Ho.
      destruct (IH fin (final_state
                          (sync_ticket CONFIG request fuel bookmark start
                             state_entity row st))) as (n & Hn & Hlen).
      exists (S n). cbn [firstn app List.length]. split.
      * constructor; assumption.
      * intros H. f_equal. now apply Hlen.
    + exists 0%nat. cbn [firstn app]. split.
      * destruct (outcome (sync_ticket CONFIG request fuel bookmark start
                             state_entity row st)) as [[]|e|];
          [congruence | constructor | constructor].
      * destruct (outcome (sync_ticket CONFIG request fuel bookmark start
                             state_entity row st)) as [[]|e|];
          [congruence | discriminate | discriminate].
Qed.

Lemma sync_tickets_by_filter_records fuel bookmark predefined_filter st :
  let x := sync_tickets_by_filter CONFIG request fuel bookmark predefined_filter st in
  exists n : nat,
    Forall2 emitted_as
      (firstn n (tickets_listing CONFIG request fuel bookmark predefined_filter st))
      (records_of "tickets" (trace x)) /\
    (outcome x = Ok tt ->
     n = List.length (tickets_listing CONFIG request fuel bookmark predefined_filter st)).
Proof.
  cbv zeta. unfold tickets_listing, sync_tickets_by_filter.
  rewrite trace_bind, outcome_bind. cbn [read_state trace outcome final_state fst snd app].
  rewrite trace_bind, outcome_bind. unfold lift at 1 2 3 4.
  cbn [trace outcome final_state fst snd app].
  destruct (get_url CONFIG "tickets" []) as [url|e|];
    try (exists 0%nat; split; [constructor | discriminate]).
  unfold for_each. apply for_each_items_tickets.
Qed.





End Tickets.

Section Passes.

Variable CONFIG : config.
Variable request : string -> dict -> result (list value).

Lemma gen_request_first_row fuel url params r rest :
  yielded (fst (gen_request request fuel url params)) = r :: rest ->
  exists u p items,
    fst (gen_request request fuel url params) = GRequest u p :: GYield r :: items.
Proof.
  unfold gen_request.
  set (q := dict_set _ "per_page" (VInt PER_PAGE)). clearbody q.
  destruct fuel as [|fuel]; [discriminate|]. cbn [gen_request_loop].
  destruct (request url (dict_set q "page" (VInt 1))) as [data|e|]; try discriminate.
  destruct (Z.of_nat (List.length data) =? PER_PAGE) eqn:E.
  - destruct (gen_request_loop request fuel url (dict_set q "page" (VInt 1)) (1 + 1))
      as [more fin].
    cbn [fst]. destruct data as [|r0 data]; [discriminate E|].
    cbn [map app yielded]. intros H. inversion H; subst r0.
    now exists url, (dict_set q "page" (VInt 1)), (map GYield data ++ more)%list.
  - cbn [fst yielded]. rewrite yielded_map_GYield. intros ->.
    now exists url, (dict_set q "page" (VInt 1)), (map GYield rest).
Qed.

(** When the processing of the first ticket of the listing raises, the
    pass raises. *)
Lemma sync_tickets_by_filter_first fuel bookmark predefined_filter st row rest :
  tickets_listing CONFIG request fuel bookmark predefined_filter st = row :: rest ->
  forall e,
    outcome (sync_ticket CONFIG request fuel bookmark
               (get_start CONFIG st (ticket_namespace predefined_filter))
               (ticket_namespace predefined_filter) row st) = Raise e ->
    outcome (sync_tickets_by_filter CONFIG request fuel bookmark predefined_filter st)
      = Raise e /\
    records_of "tickets"
      (trace (sync_tickets_by_filter CONFIG request fuel bookmark predefined_filter st))
      = [].
Proof.
  unfold tickets_listing, sync_tickets_by_filter. cbv zeta. intros Hl e He.
  pose proof (sync_ticket_records CONFIG request fuel bookmark
                (get_start CONFIG st (ticket_namespace predefined_filter))
                (ticket_namespace predefined_filter) row st) as Hrecords.
  unfold ticket_namespace in *.
  rewrite trace_bind, outcome_bind. cbn [read_state trace outcome final_state fst snd app].
  rewrite trace_bind, outcome_bind. unfold lift.
  cbn [trace outcome final_state fst snd app].
  destruct (get_url CONFIG "tickets" []) as [url|e'|]; try discriminate.
  apply gen_request_first_row in Hl. destruct Hl as (u & p & items & Hitems).
  unfold for_each. rewrite Hitems. cbn [for_each_items].
  rewrite trace_bind, outcome_bind. cbn [emit trace outcome final_state fst snd app].
  rewrite trace_bind, outcome_bind.
  rewrite !He. split; [reflexivity|].
  cbn [records_of]. rewrite app_nil_r.
  destruct Hrecords as [[Ho _]|[_ Hrec]]; cbv zeta in *.
  - rewrite He in Ho. discriminate.
  - exact Hrec.
Qed.

(** An [HTTPError] that leaves the first pass over the tickets ends the
    run with exit status 1. *)
Lemma do_sync_exits fuel st l code content :
  selected_streams CONFIG = Ok l ->
  In "tickets" l ->
  outcome (sync_tickets_by_filter CONFIG request fuel "updated_at" None st)
    = Raise (HTTPError code content) ->
  outcome (do_sync CONFIG request fuel st) = Raise (SystemExit 1).
Proof.
  intros Hsel Hin Hpass. unfold do_sync.
  rewrite outcome_bind. unfold lift at 1 2. cbn [outcome final_state fst snd].
  rewrite Hsel.
  assert (Ht : existsb (String.eqb "tickets") l = true).
  { apply existsb_exists. exists "tickets". split; [exact Hin | apply String.eqb_refl]. }
  rewrite outcome_try_except, outcome_bind. rewrite Ht. cbn [when].
  unfold sync_tickets.
  rewrite outcome_bind. cbn [write_schema emit outcome final_state fst snd].
  rewrite outcome_bind. cbn [write_schema emit outcome final_state fst snd].
  rewrite outcome_bind. cbn [write_schema emit outcome final_state fst snd].
  rewrite outcome_bind. cbn [write_schema emit outcome final_state fst snd].
  rewrite outcome_bind. rewrite Hpass. reflexivity.
Qed.

End Passes.



(* ================================================================== *)
(** * Sub-resource isolation *)
(* ================================================================== *)

Lemma append_empty (s : string) : s ++ "" = s.
Proof. induction s; simpl; [reflexivity | now rewrite IHs]. Qed.

Lemma ge_raises : forall a b e, ge a b = Raise e -> e = TypeError.
Proof.
  fix IH 1. intros a b e.
  destruct a as [|x|x|x|l|d]; destruct b as [|y|y|y|m|c]; cbn [ge as_number];
    try (destruct x); try (destruct y);
    try (intros H; inversion H; reflexivity).
  revert m. induction l as [|x l IHl]; intros [|y m]; try discriminate.
  destruct (eq x y); [apply IHl | apply IH].
Qed.

Lemma ge_ends : forall a b, ge a b <> Fuel.
Proof.
  fix IH 1. intros a b.
  destruct a as [|x|x|x|l|d]; destruct b as [|y|y|y|m|c]; cbn [ge as_number];
    try (destruct x); try (destruct y); try discriminate.
  revert m. induction l as [|x l IHl]; intros [|y m]; try discriminate.
  destruct (eq x y); [apply IHl | apply IH].
Qed.

Section Isolation.

Variable CONFIG : config.
Variable request : string -> dict -> result (list value).

Lemma get_url_sub_ticket id entity :
  get_url CONFIG "sub_ticket" (dict_lit [("id", id); ("entity", VStr entity)]) =
  Ok (sub_url CONFIG id entity).
Proof.
  unfold get_url, sub_url. cbn. now rewrite append_empty.
Qed.

Lemma gen_request_first_raise fuel url e :
  (0 < fuel)%nat ->
  request url (page_params None 1) = Raise e ->
  gen_request request fuel url None = ([GRequest url (page_params None 1)], Raise e).
Proof.
  intros Hfuel Hreq. destruct fuel as [|fuel]; [lia|].
  unfold gen_request, page_params in *. cbn [gen_request_loop]. now rewrite Hreq.
Qed.

(** A loop over a generator that ends with an exception raises it, unless
    its body raised before. *)
Lemma for_each_items_raises (body : value -> M unit) e :
  (forall row st, no_HTTPError (outcome (body row st))) ->
  forall items st,
    outcome (for_each_items items (Raise e) body st) = Raise e \/
    exists x, outcome (for_each_items items (Raise e) body st) = Raise x /\
              is_HTTPError x = false.
Proof.
  intros Hbody. induction items as [|[u p|row] items IH]; intros st;
    cbn [for_each_items].
  - now left.
  - rewrite outcome_bind. cbn [emit outcome final_state fst snd]. apply IH.
  - rewrite outcome_bind. specialize (Hbody row st).
    destruct (outcome (body row st)) as [[]|x|]; simpl in Hbody.
    + apply IH.
    + right. now exists x.
    + contradiction.
Qed.

Lemma sub_row_no_HTTPError stream bookmark start subrow st :
  no_HTTPError
    (outcome ((subrow <- as_dict subrow ;;
               b <- getitem subrow bookmark ;;
               keep <- lift (ge b start) ;;
               if keep : bool then write_record stream subrow else ret tt) st)).
Proof.
  destruct subrow as [| | | |l|d]; try (run_py; reflexivity).
  run_py. destruct (dict_get d bookmark) as [b|]; [|reflexivity].
  destruct (ge b start) as [[|]|e|] eqn:Hge; try exact I.
  - apply ge_raises in Hge. now subst e.
  - now apply ge_ends in Hge.
Qed.

Lemma ratings_row_no_HTTPError bookmark start subrow st :
  no_HTTPError
    (outcome ((subrow <- as_dict subrow ;;
               ratings <- getitem subrow "ratings" ;;
               ratings <- lift (transform_dict ratings "question" "value" false) ;;
               let subrow := dict_set subrow "ratings" ratings in
               b <- getitem subrow bookmark ;;
               keep <- lift (ge b start) ;;
               if keep : bool then write_record "satisfaction_ratings" subrow
               else ret tt) st)).
Proof.
  destruct subrow as [| | | |l|d]; try (run_py; reflexivity).
  run_py. destruct (dict_get d "ratings") as [r|]; [|reflexivity].
  destruct r as [| | | |l|items]; try reflexivity. cbn [transform_dict].
  destruct (dict_get _ bookmark) as [b|]; [|reflexivity].
  destruct (ge b start) as [[|]|e|] eqn:Hge; try exact I.
  - apply ge_raises in Hge. now subst e.
  - now apply ge_ends in Hge.
Qed.

(** A try block around a loop whose generator fails on its first request. *)
Lemma block_first_request fuel url (body : value -> M unit) handler st code content :
  (0 < fuel)%nat ->
  request url (page_params None 1) = Raise (HTTPError code content) ->
  try_except_HTTPError
    (u <- lift (Ok url) ;; for_each (gen_request request fuel u None) body)
    handler st =
  (fst (fst (handler code content st)),
   snd (fst (handler code content st)),
   EvRequest url (page_params None 1) :: snd (handler code content st)).
Proof.
  intros Hfuel Hreq.
  unfold try_except_HTTPError, bind, lift, for_each.
  rewrite (gen_request_first_raise fuel url _ Hfuel Hreq).
  cbn [fst snd for_each_items]. unfold bind, emit, lift. cbn [app].
  now destruct (handler code content st) as [[r st'] tr].
Qed.

(** A try block around a loop whose generator ends with an [HTTPError]:
    the handler decides, unless the body raised before. *)
Lemma block_generator_raises fuel url (body : value -> M unit) handler st code content :
  (forall row st', no_HTTPError (outcome (body row st'))) ->
  snd (gen_request request fuel url None) = Raise (HTTPError code content) ->
  (exists st',
     outcome (try_except_HTTPError
                (u <- lift (Ok url) ;; for_each (gen_request request fuel u None) body)
                handler st) = outcome (handler code content st')) \/
  (exists e,
     outcome (try_except_HTTPError
                (u <- lift (Ok url) ;; for_each (gen_request request fuel u None) body)
                handler st) = Raise e /\
     is_HTTPError e = false).
Proof.
  intros Hbody Hgen. rewrite outcome_try_except, outcome_bind.
  cbn [lift outcome final_state fst snd]. unfold for_each. rewrite Hgen.
  destruct (for_each_items_raises body (HTTPError code content) Hbody
              (fst (gen_request request fuel url None)) st) as [Ho|(x & Ho & Hx)].
  - left. unfold outcome in *. rewrite Ho. eexists. reflexivity.
  - right. unfold outcome in *. rewrite Ho. exists x.
    destruct x; try discriminate; auto.
Qed.

Lemma sync_conversations_first_request fuel bookmark start id st code content :
  (0 < fuel)%nat ->
  request (sub_url CONFIG id "conversations") (page_params None 1)
    = Raise (HTTPError code content) ->
  sync_conversations CONFIG request fuel bookmark start id st =
  (if code =? 403 then Ok tt else Raise (HTTPError code content),
   st, [EvRequest (sub_url CONFIG id "conversations") (page_params None 1)]).
Proof.
  intros Hfuel Hreq. unfold sync_conversations. rewrite get_url_sub_ticket.
  rewrite (block_first_request fuel _ _ _ st code content Hfuel Hreq).
  now destruct (code =? 403).
Qed.

Lemma sync_satisfaction_ratings_first_request fuel bookmark start id st code content :
  (0 < fuel)%nat ->
  request (sub_url CONFIG id "satisfaction_ratings") (page_params None 1)
    = Raise (HTTPError code content) ->
  sync_satisfaction_ratings CONFIG request fuel bookmark start id st =
  (if code =? 403 then Ok tt else Raise (HTTPError code content),
   st, [EvRequest (sub_url CONFIG id "satisfaction_ratings") (page_params None 1)]).
Proof.
  intros Hfuel Hreq. unfold sync_satisfaction_ratings. rewrite get_url_sub_ticket.
  rewrite (block_first_request fuel _ _ _ st code content Hfuel Hreq).
  now destruct (code =? 403).
Qed.

Lemma sync_time_entries_first_request fuel bookmark start id st code content :
  (0 < fuel)%nat ->
  request (sub_url CONFIG id "time_entries") (page_params None 1)
    = Raise (HTTPError code content) ->
  sync_time_entries CONFIG request fuel bookmark start id st =
  (if (code =? 403) || (code =? 404) then Ok tt else Raise (HTTPError code content),
   st, [EvRequest (sub_url CONFIG id "time_entries") (page_params None 1)]).
Proof.
  intros Hfuel Hreq. unfold sync_time_entries. rewrite get_url_sub_ticket.
  rewrite (block_first_request fuel _ _ _ st code content Hfuel Hreq).
  destruct (code =? 403); [reflexivity|]. now destruct (code =? 404).
Qed.

Lemma sync_conversations_generator_raises fuel bookmark start id st code content :
  snd (gen_request request fuel (sub_url CONFIG id "conversations") None)
    = Raise (HTTPError code content) ->
  outcome (sync_conversations CONFIG request fuel bookmark start id st) =
    (if code =? 403 then Ok tt else Raise (HTTPError code content)) \/
  exists e,
    outcome (sync_conversations CONFIG request fuel bookmark start id st) = Raise e /\
    is_HTTPError e = false.
Proof.
  intros Hgen. unfold sync_conversations. rewrite get_url_sub_ticket.
  match goal with
  | |- context [try_except_HTTPError ?m ?h st] =>
      destruct (block_generator_raises fuel _
                  (fun subrow =>
                     subrow <- as_dict subrow ;;
                     b <- getitem subrow bookmark ;;
                     keep <- lift (ge b start) ;;
                     if keep : bool then write_record "conversations" subrow else ret tt)
                  h st code content
                  (fun row st' => sub_row_no_HTTPError "conversations" bookmark start row st')
                  Hgen) as [[st' Ho]|He]
  end.
  - left. etransitivity; [exact Ho|]. now destruct (code =? 403).
  - now right.
Qed.

Lemma sync_satisfaction_ratings_generator_raises fuel bookmark start id st code content :
  snd (gen_request request fuel (sub_url CONFIG id "satisfaction_ratings") None)
    = Raise (HTTPError code content) ->
  outcome (sync_satisfaction_ratings CONFIG request fuel bookmark start id st) =
    (if code =? 403 then Ok tt else Raise (HTTPError code content)) \/
  exists e,
    outcome (sync_satisfaction_ratings CONFIG request fuel bookmark start id st)
      = Raise e /\
    is_HTTPError e = false.
Proof.
  intros Hgen. unfold sync_satisfaction_ratings. rewrite get_url_sub_ticket.
  match goal with
  | |- context [try_except_HTTPError ?m ?h st] =>
      destruct (block_generator_raises fuel _
                  (fun subrow =>
                     subrow <- as_dict subrow ;;
                     ratings <- getitem subrow "ratings" ;;
                     ratings <- lift (transform_dict ratings "question" "value" false) ;;
                     let subrow := dict_set subrow "ratings" ratings in
                     b <- getitem subrow bookmark ;;
                     keep <- lift (ge b start) ;;
                     if keep : bool then write_record "satisfaction_ratings" subrow
                     else ret tt)
                  h st code content
                  (fun row st' => ratings_row_no_HTTPError bookmark start row st')
                  Hgen) as [[st' Ho]|He]
  end.
  - left. etransitivity; [exact Ho|]. now destruct (code =? 403).
  - now right.
Qed.

Lemma sync_time_entries_generator_raises fuel bookmark start id st code content :
  snd (gen_request request fuel (sub_url CONFIG id "time_entries") None)
    = Raise (HTTPError code content) ->
  outcome (sync_time_entries CONFIG request fuel bookmark start id st) =
    (if (code =? 403) || (code =? 404) then Ok tt
     else Raise (HTTPError code content)) \/
  exists e,
    outcome (sync_time_entries CONFIG request fuel bookmark start id st) = Raise e /\
    is_HTTPError e = false.
Proof.
  intros Hgen. unfold sync_time_entries. rewrite get_url_sub_ticket.
  match goal with
  | |- context [try_except_HTTPError ?m ?h st] =>
      destruct (block_generator_raises fuel _
                  (fun subrow =>
                     subrow <- as_dict subrow ;;
                     b <- getitem subrow bookmark ;;
                     keep <- lift (ge b start) ;;
                     if keep : bool then write_record "time_entries" subrow else ret tt)
                  h st code content
                  (fun row st' => sub_row_no_HTTPError "time_entries" bookmark start row st')
                  Hgen) as [[st' Ho]|He]
  end.
  - left. etransitivity; [exact Ho|].
    destruct (code =? 403); [reflexivity|]. now destruct (code =? 404).
  - now right.
Qed.

(** The body of the loop over the tickets, from the runs of its three
    sub-resource blocks. *)
Lemma sync_ticket_blocks fuel bookmark start state_entity d id d' v st :
  dict_get d "id" = Some id ->
  ticket_record d = Some d' ->
  dict_get d' bookmark = Some v ->
  let c := sync_conversations CONFIG request fuel bookmark start id st in
  let s := sync_satisfaction_ratings CONFIG request fuel bookmark start id
             (final_state c) in
  let t := sync_time_entries CONFIG request fuel bookmark start id (final_state s) in
  sync_ticket CONFIG request fuel bookmark start state_entity (VDict d) st =
  match outcome c with
  | Ok _ =>
      match outcome s with
      | Ok _ =>
          match outcome t with
          | Ok _ =>
              (Ok tt, update_state (final_state t) state_entity v,
               (trace c ++ trace s ++ trace t ++
                [EvUpdateState state_entity v;
                 EvWriteRecord "tickets" (VDict d');
                 EvWriteState (update_state (final_state t) state_entity v)])%list)
          | other => (other, final_state t, (trace c ++ trace s ++ trace t)%list)
          end
      | other => (other, final_state s, (trace c ++ trace s)%list)
      end
  | other => (other, final_state c, trace c)
  end.
Proof.
  intros Hid Hrec Hv. cbv zeta. unfold ticket_record in Hrec.
  destruct (dict_get (dict_pop d "attachments") "custom_fields") as [cf|] eqn:Hcf;
    [|discriminate].
  destruct (transform_dict cf "name" "value" true) as [l|e|] eqn:Hl; try discriminate.
  inversion Hrec; subst d'. clear Hrec.
  unfold sync_ticket. run_py. rewrite Hid, Hcf, Hl.
  destruct (sync_conversations CONFIG request fuel bookmark start id st)
    as [[[[]|e|] st1] tr1]; cbn [app]; try now rewrite ?app_nil_r.
  destruct (sync_satisfaction_ratings CONFIG request fuel bookmark start id st1)
    as [[[[]|e|] st2] tr2]; cbn [app]; try reflexivity.
  destruct (sync_time_entries CONFIG request fuel bookmark start id st2)
    as [[[[]|e|] st3] tr3]; cbn [app]; try reflexivity.
  now rewrite Hv.
Qed.

End Isolation.

(** C9.  In the hierarchical sync the tickets returned by the upstream are
    emitted in order, each one as soon as its processing ends, and a pass
    that ends normally has emitted every one of them: the records emitted
    under "tickets" are the records of the first [n] tickets of the
    listing, with [n] the length of the listing when the pass ends
    normally.  No comparison of the ticket's bookmark with the starting
    watermark takes part: whatever its bookmark value, a ticket is emitted
    once its three sub-resource blocks have ended normally, and the ticket
    of the example, last updated before the starting watermark, is
    emitted. *)
Theorem tickets_emitted_unconditionally
    (CONFIG : config) (request : string -> dict -> result (list value))
    (fuel : nat) (bookmark_property : string) (predefined_filter : option string)
    (STATE : dict) :
  let x := sync_tickets_by_filter CONFIG request fuel bookmark_property
             predefined_filter STATE in
  let listing := tickets_listing CONFIG request fuel bookmark_property
                   predefined_filter STATE in
  (exists n : nat,
     Forall2 emitted_as (firstn n listing) (records_of "tickets" (trace x)) /\
     (outcome x = Ok tt -> n = List.length listing)) /\
  (outcome x = Ok tt ->
     Forall2 emitted_as listing (records_of "tickets" (trace x))) /\
  (forall start state_entity d id d' v st,
     dict_get d "id" = Some id ->
     ticket_record d = Some d' ->
     dict_get d' bookmark_property = Some v ->
     let c := sync_conversations CONFIG request fuel bookmark_property start id st in
     let s := sync_satisfaction_ratings CONFIG request fuel bookmark_property start id
                (final_state c) in
     let t := sync_time_entries CONFIG request fuel bookmark_property start id
                (final_state s) in
     let ticket := sync_ticket CONFIG request fuel bookmark_property start state_entity
                     (VDict d) st in
     outcome c = Ok tt -> outcome s = Ok tt -> outcome t = Ok tt ->
     outcome ticket = Ok tt /\ records_of "tickets" (trace ticket) = [VDict d']) /\
  (let y := sync_tickets_by_filter example_config example_api 5 "updated_at" None [] in
   tickets_listing example_config example_api 5 "updated_at" None [] = [ticket7] /\
   subscript ticket7 "updated_at" = Ok (VStr "2019-06-01T00:00:00Z") /\
   ge (VStr "2019-06-01T00:00:00Z") (get_start example_config [] "tickets") = Ok false /\
   outcome y = Ok tt /\
   List.length (records_of "tickets" (trace y)) = 1%nat).
Proof.
  cbv zeta. split; [|split; [|split]].
  - apply sync_tickets_by_filter_records.
  - intros Ho.
    destruct (sync_tickets_by_filter_records CONFIG request fuel bookmark_property
                predefined_filter STATE) as (n & Hn & Hlen).
    cbv zeta in *. rewrite (Hlen Ho), firstn_all in Hn. exact Hn.
  - intros start state_entity d id d' v st Hid Hrec Hv Hc Hs Ht.
    pose proof (sync_ticket_blocks CONFIG request fuel bookmark_property start
                  state_entity d id d' v st Hid Hrec Hv) as Hticket.
    cbv zeta in Hticket. rewrite Hc, Hs, Ht in Hticket.
    split; [now rewrite Hticket|].
    destruct (sync_ticket_records CONFIG request fuel bookmark_property start
                state_entity (VDict d) st)
      as [[_ (r & (d0 & d0' & Hd & Hrec0 & ->) & Hone)]|[Hno _]]; cbv zeta in *.
    + inversion Hd; subst d0. rewrite Hrec in Hrec0. inversion Hrec0; subst d0'.
      exact Hone.
    + rewrite Hticket in Hno. now elim Hno.
  - repeat split; reflexivity.
Qed.

Lemma tickets_emitted_unconditionally_witness :
  Forall2 emitted_as
    (tickets_listing example_config example_api 5 "updated_at" None [])
    (records_of "tickets"
       (trace (sync_tickets_by_filter example_config example_api 5 "updated_at" None []))).
Proof.
  apply (proj1 (proj2 (tickets_emitted_unconditionally example_config example_api 5
                         "updated_at" None []))).
  reflexivity.
Defined.

(** The blocks of one ticket.  A 403 answer to the fetch of any of the
    three sub-resources, and a 404 answer to the fetch of the time entries,
    is recovered locally: the block ends normally, having emitted nothing
    when the fetch is refused at its first request, and when the three
    blocks end normally the ticket is emitted after their records.  Any
    other [HTTPError] of a fetch leaves the block and the ticket is not
    emitted; on the first ticket of the first pass the run ends with exit
    status 1. *)
Lemma sub_resource_blocks
    (CONFIG : config) (request : string -> dict -> result (list value))
    (fuel : nat) (bookmark_property : string) (start : value) (state_entity : string)
    (d : dict) (id : value) (d' : dict) (v : value) (STATE : dict) :
  (0 < fuel)%nat ->
  dict_get d "id" = Some id ->
  ticket_record d = Some d' ->
  dict_get d' bookmark_property = Some v ->
  let conversations := sync_conversations CONFIG request fuel bookmark_property start id in
  let ratings := sync_satisfaction_ratings CONFIG request fuel bookmark_property start id in
  let entries := sync_time_entries CONFIG request fuel bookmark_property start id in
  let blocks := [("conversations", conversations);
                 ("satisfaction_ratings", ratings);
                 ("time_entries", entries)] in
  let c := conversations STATE in
  let s := ratings (final_state c) in
  let t := entries (final_state s) in
  let ticket := sync_ticket CONFIG request fuel bookmark_property start state_entity
                  (VDict d) STATE in
  (forall entity block code content st,
     In (entity, block) blocks ->
     code = 403 \/ (entity = "time_entries" /\ code = 404) ->
     (request (sub_url CONFIG id entity) (page_params None 1)
        = Raise (HTTPError code content) ->
      block st = (Ok tt, st,
                  [EvRequest (sub_url CONFIG id entity) (page_params None 1)])) /\
     (snd (gen_request request fuel (sub_url CONFIG id entity) None)
        = Raise (HTTPError code content) ->
      outcome (block st) = Ok tt \/
      exists e, outcome (block st) = Raise e /\ is_HTTPError e = false)) /\
  (outcome c = Ok tt -> outcome s = Ok tt -> outcome t = Ok tt ->
   ticket =
     (Ok tt, update_state (final_state t) state_entity v,
      (trace c ++ trace s ++ trace t ++
       [EvUpdateState state_entity v;
        EvWriteRecord "tickets" (VDict d');
        EvWriteState (update_state (final_state t) state_entity v)])%list)) /\
  (forall entity block code content st,
     In (entity, block) blocks ->
     code <> 403 ->
     ~ (entity = "time_entries" /\ code = 404) ->
     (request (sub_url CONFIG id entity) (page_params None 1)
        = Raise (HTTPError code content) ->
      block st = (Raise (HTTPError code content), st,
                  [EvRequest (sub_url CONFIG id entity) (page_params None 1)])) /\
     (snd (gen_request request fuel (sub_url CONFIG id entity) None)
        = Raise (HTTPError code content) ->
      exists e, outcome (block st) = Raise e /\
                (e = HTTPError code content \/ is_HTTPError e = false))) /\
  (forall e,
     outcome c = Raise e \/
     (outcome c = Ok tt /\ outcome s = Raise e) \/
     (outcome c = Ok tt /\ outcome s = Ok tt /\ outcome t = Raise e) ->
     outcome ticket = Raise e /\ records_of "tickets" (trace ticket) = []) /\
  (forall l rest code content,
     selected_streams CONFIG = Ok l ->
     In "tickets" l ->
     bookmark_property = "updated_at" ->
     start = get_start CONFIG STATE "tickets" ->
     state_entity = "tickets" ->
     tickets_listing CONFIG request fuel "updated_at" None STATE = VDict d :: rest ->
     outcome ticket = Raise (HTTPError code content) ->
     outcome (do_sync CONFIG request fuel STATE) = Raise (SystemExit 1)) /\
  (let run := sync_tickets_by_filter example_config example_api 5 "updated_at" None [] in
   let failed := do_sync (selecting ["tickets"; "contacts"]) broken_api 5 [] in
   outcome run = Ok tt /\
   records_of "conversations" (trace run) = [conversation_new] /\
   records_of "satisfaction_ratings" (trace run) = [] /\
   records_of "time_entries" (trace run) = [time_entry1] /\
   List.length (records_of "tickets" (trace run)) = 1%nat /\
   outcome failed = Raise (SystemExit 1) /\
   records_of "tickets" (trace failed) = [] /\
   records_of "contacts" (trace failed) = []).
Proof.
  intros Hfuel Hid Hrec Hv. cbv zeta.
  pose proof (sync_ticket_blocks CONFIG request fuel bookmark_property start
                state_entity d id d' v STATE Hid Hrec Hv) as Hticket.
  cbv zeta in Hticket.
  split; [|split; [|split; [|split; [|split]]]].
  - intros entity block code content st Hin Hcode.
    destruct Hin as [E|[E|[E|[]]]]; inversion E; subst entity block; clear E.
    + assert (E403 : (code =? 403) = true)
        by (destruct Hcode as [->|[E _]]; [reflexivity | discriminate E]).
      split.
      * intros Hreq.
        rewrite (sync_conversations_first_request CONFIG request fuel _ _ _ st
                   code content Hfuel Hreq).
        now rewrite E403.
      * intros Hgen.
        destruct (sync_conversations_generator_raises CONFIG request fuel
                    bookmark_property start id st code content Hgen) as [Ho|He];
          [left; now rewrite Ho, E403 | now right].
    + assert (E403 : (code =? 403) = true)
        by (destruct Hcode as [->|[E _]]; [reflexivity | discriminate E]).
      split.
      * intros Hreq.
        rewrite (sync_satisfaction_ratings_first_request CONFIG request fuel _ _ _ st
                   code content Hfuel Hreq).
        now rewrite E403.
      * intros Hgen.
        destruct (sync_satisfaction_ratings_generator_raises CONFIG request fuel
                    bookmark_property start id st code content Hgen) as [Ho|He];
          [left; now rewrite Ho, E403 | now right].
    + assert (E40x : (code =? 403) || (code =? 404) = true)
        by (destruct Hcode as [->|[_ ->]]; reflexivity).
      split.
      * intros Hreq.
        rewrite (sync_time_entries_first_request CONFIG request fuel _ _ _ st
                   code content Hfuel Hreq).
        now rewrite E40x.
      * intros Hgen.
        destruct (sync_time_entries_generator_raises CONFIG request fuel
                    bookmark_property start id st code content Hgen) as [Ho|He];
          [left; now rewrite Ho, E40x | now right].
  - intros Hc Hs Ht. rewrite Hticket, Hc, Hs, Ht. reflexivity.
  - intros entity block code content st Hin H403 H404.
    assert (E403 : (code =? 403) = false) by now apply Z.eqb_neq.
    destruct Hin as [E|[E|[E|[]]]]; inversion E; subst entity block; clear E.
    + split.
      * intros Hreq.
        rewrite (sync_conversations_first_request CONFIG request fuel _ _ _ st
                   code content Hfuel Hreq).
        now rewrite E403.
      * intros Hgen.
        destruct (sync_conversations_generator_raises CONFIG request fuel
                    bookmark_property start id st code content Hgen) as [Ho|(e & He & Hn)].
        -- exists (HTTPError code content). rewrite Ho, E403. auto.
        -- exists e. auto.
    + split.
      * intros Hreq.
        rewrite (sync_satisfaction_ratings_first_request CONFIG request fuel _ _ _ st
                   code content Hfuel Hreq).
        now rewrite E403.
      * intros Hgen.
        destruct (sync_satisfaction_ratings_generator_raises CONFIG request fuel
                    bookmark_property start id st code content Hgen) as [Ho|(e & He & Hn)].
        -- exists (HTTPError code content). rewrite Ho, E403. auto.
        -- exists e. auto.
    + assert (N404 : code <> 404) by (intros ->; apply H404; auto).
      assert (E404 : (code =? 404) = false) by now apply Z.eqb_neq.
      split.
      * intros Hreq.
        rewrite (sync_time_entries_first_request CONFIG request fuel _ _ _ st
                   code content Hfuel Hreq).
        now rewrite E403, E404.
      * intros Hgen.
        destruct (sync_time_entries_generator_raises CONFIG request fuel
                    bookmark_property start id st code content Hgen) as [Ho|(e & He & Hn)].
        -- exists (HTTPError code content). rewrite Ho, E403, E404. auto.
        -- exists e. auto.
  - intros e He.
    assert (Ho : outcome (sync_ticket CONFIG request fuel bookmark_property start
                            state_entity (VDict d) STATE) = Raise e).
    { rewrite Hticket.
      destruct He as [Hc|[[Hc Hs]|(Hc & Hs & Ht)]].
      - now rewrite Hc.
      - now rewrite Hc, Hs.
      - now rewrite Hc, Hs, Ht. }
    split; [exact Ho|].
    destruct (sync_ticket_records CONFIG request fuel bookmark_property start
                state_entity (VDict d) STATE) as [[Ho' _]|[_ Hnone]]; cbv zeta in *.
    + rewrite Ho in Ho'. discriminate.
    + exact Hnone.
  - intros l rest code content Hsel Hin -> -> -> Hl Ho.
    apply (do_sync_exits CONFIG request fuel STATE l code content Hsel Hin).
    apply (sync_tickets_by_filter_first CONFIG request fuel "updated_at" None STATE
             (VDict d) rest Hl).
    exact Ho.
  - repeat split; reflexivity.
Qed.

(* ================================================================== *)
(** * Further properties: request executor *)
(* ================================================================== *)

Section Throttling.

Variable server : nat -> Executor.sent.

(** The seconds [time.sleep] refuses, and with which error. *)
Lemma sleep_error_cases seconds :
  Executor.sleep_error seconds =
  if (seconds <? -9223372036) || (9223372036 <? seconds) then Some OverflowError
  else if seconds <? 0 then Some ValueError
  else None.
Proof.
  unfold Executor.sleep_error.
  change (10 ^ 9) with 1000000000. change (2 ^ 63) with 9223372036854775808.
  repeat match goal with
         | |- context [?a <? ?b] => destruct (Z.ltb_spec a b)
         end; try reflexivity; exfalso; lia.
Qed.







End Throttling.



(** X2.  A [Retry-After] header that [int()] or [time.sleep] refuses ends
    the request after that one send, whatever the status of the response
    and whatever the attempt: with [ValueError] when the header is not an
    integer or is a negative number of seconds down to -9223372036, with
    [OverflowError] when the seconds are beyond 9223372036 either way.
    Neither error is a [RequestException], so nothing is retried. *)
Theorem request_bad_retry_after (server : nat -> Executor.sent)
    (fuel tries k : nat) (resp : Executor.response) (e : exn) :
  server k = Executor.Sent resp ->
  (Executor.retry_after resp = Some None /\ e = ValueError) \/
  (exists seconds,
      Executor.retry_after resp = Some (Some seconds) /\
      ((-9223372036 <= seconds < 0 /\ e = ValueError) \/
       ((seconds < -9223372036 \/ 9223372036 < seconds) /\ e = OverflowError))) ->
  Executor.retry server (S fuel) tries k = (Raise e, S k, [Executor.Send k]) /\
  Executor.is_RequestException e = false.
Proof.
  intros Hs [[Hh ->]|(seconds & Hh & [[Hneg ->]|[Hbig ->]])];
    (split; [|reflexivity]); cbn [Executor.retry]; rewrite Hs, Hh.
  - reflexivity.
  - rewrite sleep_error_cases.
    replace (seconds <? -9223372036) with false by (symmetry; apply Z.ltb_ge; lia).
    replace (9223372036 <? seconds) with false by (symmetry; apply Z.ltb_ge; lia).
    replace (seconds <? 0) with true by (symmetry; apply Z.ltb_lt; lia).
    reflexivity.
  - rewrite sleep_error_cases.
    destruct Hbig as [Hbig|Hbig].
    + replace (seconds <? -9223372036) with true by (symmetry; apply Z.ltb_lt; lia).
      reflexivity.
    + replace (9223372036 <? seconds) with true by (symmetry; apply Z.ltb_lt; lia).
      now rewrite orb_true_r.
Qed.

Lemma request_bad_retry_after_witness :
  Executor.retry overflowing_server 1 1 0 = (Raise OverflowError, 1%nat, [Executor.Send 0]) /\
  Executor.is_RequestException OverflowError = false.
Proof.
  apply (request_bad_retry_after overflowing_server 0 1 0
           {| Executor.status_code := 429;
              Executor.retry_after := Some (Some 9223372037);
              Executor.content := "rate limit" |}).
  - reflexivity.
  - right. exists 9223372037. split; [reflexivity|]. right. split; [lia | reflexivity].
Defined.

(* ================================================================== *)
(** * Further properties: paginator *)
(* ================================================================== *)

(** [n] full pages from [first] on, then a refused request. *)
Lemma gen_request_loop_error request url params :
  forall (n : nat) (first : Z) (page : nat -> list value) (e : exn) (fuel : nat),
    (n < fuel)%nat ->
    (forall i, (i < n)%nat ->
       request url (dict_set params "page" (VInt (first + Z.of_nat i))) = Ok (page i) /\
       List.length (page i) = 100%nat) ->
    request url (dict_set params "page" (VInt (first + Z.of_nat n))) = Raise e ->
    let g := gen_request_loop request fuel url params first in
    snd g = Raise e /\
    yielded (fst g) = flat_map page (seq 0 n) /\
    issued (fst g) =
      map (fun i => (url, dict_set params "page" (VInt (first + Z.of_nat i))))
          (seq 0 (S n)).
Proof.
  induction n as [|n IH]; intros first page e fuel Hfuel Hfull Hlast.
  - destruct fuel as [|fuel]; [lia|].
    simpl in Hlast. rewrite Z.add_0_r in Hlast.
    cbv zeta. rewrite (gen_request_loop_raise _ _ _ _ _ _ Hlast). simpl.
    now rewrite Z.add_0_r.
  - destruct fuel as [|fuel]; [lia|].
    destruct (Hfull 0%nat (Nat.lt_0_succ _)) as [H0 L0].
    simpl in H0. rewrite Z.add_0_r in H0.
    cbv zeta. rewrite (gen_request_loop_full _ _ _ _ _ _ H0 L0).
    specialize (IH (first + 1) (fun i => page (S i)) e fuel).
    assert (Hfull' : forall i, (i < n)%nat ->
       request url (dict_set params "page" (VInt (first + 1 + Z.of_nat i)))
         = Ok (page (S i)) /\
       List.length (page (S i)) = 100%nat).
    { intros i Hi. destruct (Hfull (S i) ltac:(lia)) as [Hr Hl]. split; [|exact Hl].
      rewrite <- Hr. do 3 f_equal. lia. }
    assert (Hlast' :
       request url (dict_set params "page" (VInt (first + 1 + Z.of_nat n))) = Raise e).
    { rewrite <- Hlast. do 3 f_equal. lia. }
    destruct (IH ltac:(lia) Hfull' Hlast') as (Hfin & Hy & Hi).
    cbn [fst snd]. split; [exact Hfin|]. split.
    + cbn [app yielded]. rewrite yielded_app, yielded_map_GYield, Hy.
      change (seq 0 (S n)) with (0%nat :: seq 1 n).
      cbn [flat_map]. f_equal. now rewrite <- seq_shift, flat_map_shift.
    + cbn [app issued]. rewrite issued_app, issued_map_GYield, Hi. cbn [app].
      change (seq 0 (S (S n))) with (0%nat :: seq 1 (S n)).
      cbn [map]. rewrite Z.add_0_r. f_equal.
      rewrite <- seq_shift, map_map. apply map_ext. intros i.
      do 3 f_equal. lia.
Qed.

(** X3.  [gen_request] propagates the error of a page request unchanged
    and keeps what came before: after [n] full pages, a request for page
    [n + 1] that raises ends the generator with that exception, the rows of
    the [n] pages having been yielded in order and [n + 1] requests
    issued. *)
Theorem gen_request_error_page
    (request : string -> dict -> result (list value)) (url : string)
    (params : option dict) (n : nat) (page : nat -> list value) (e : exn)
    (fuel : nat) :
  (n < fuel)%nat ->
  (forall i, (i < n)%nat ->
     request url (page_params params (1 + Z.of_nat i)) = Ok (page i) /\
     List.length (page i) = 100%nat) ->
  request url (page_params params (1 + Z.of_nat n)) = Raise e ->
  let g := gen_request request fuel url params in
  snd g = Raise e /\
  yielded (fst g) = flat_map page (seq 0 n) /\
  issued (fst g) = map (fun i => (url, page_params params (1 + Z.of_nat i))) (seq 0 (S n)).
Proof.
  intros Hfuel Hfull Hlast. unfold gen_request, page_params in *.
  now apply gen_request_loop_error.
Qed.

Lemma gen_request_error_page_witness :
  let g := gen_request refusing_api 5 "u" None in
  snd g = Raise (HTTPError 403 "") /\
  yielded (fst g) = flat_map (fun _ => firstn 100 records250) (seq 0 1) /\
  issued (fst g) = map (fun i => ("u", page_params None (1 + Z.of_nat i))) (seq 0 2).
Proof.
  apply (gen_request_error_page refusing_api "u" None 1
           (fun _ => firstn 100 records250) (HTTPError 403 "") 5).
  - lia.
  - intros i Hi. destruct i as [|i]; [|lia]. split; reflexivity.
  - reflexivity.
Defined.

Lemma page_params_caller params page k :
  k <> "per_page" -> k <> "page" ->
  dict_get (page_params params page) k = caller_param params k.
Proof.
  intros H1 H2. unfold page_params, caller_param.
  rewrite dict_get_set_other by congruence.
  rewrite dict_get_set_other by congruence.
  destruct params as [[|kv d]|]; reflexivity.
Qed.

(** The query of every request issued. *)
Lemma gen_request_issued_query
    (request : string -> dict -> result (list value)) (fuel : nat) (url : string)
    (params : option dict) (u : string) (p : dict) :
  In (u, p) (issued (fst (gen_request request fuel url params))) ->
  u = url /\
  dict_get p "per_page" = Some (VInt 100) /\
  (exists n : nat, dict_get p "page" = Some (VInt (1 + Z.of_nat n))) /\
  (forall k, k <> "per_page" -> k <> "page" -> dict_get p k = caller_param params k).
Proof.
  intros Hin.
  assert (Hshape : exists m : nat,
    issued (fst (gen_request request fuel url params)) =
      map (fun i => (url, page_params params (1 + Z.of_nat i))) (seq 0 m) /\
    forall i, (S i < m)%nat ->
      exists data,
        request url (page_params params (1 + Z.of_nat i)) = Ok data /\
        List.length data = 100%nat).
  { unfold gen_request, page_params. apply gen_request_loop_shape. }
  destruct Hshape as (m & Hm & _). rewrite Hm in Hin.
  apply in_map_iff in Hin. destruct Hin as (i & Hi & _).
  inversion Hi; subst u p. clear Hi.
  destruct (page_params_query params (1 + Z.of_nat i)) as [Hpp Hp].
  split; [reflexivity|]. split; [exact Hpp|]. split; [now exists i|].
  intros k. apply page_params_caller.
Qed.

(** X4.  Every request [gen_request] issues goes to the URL it was given
    and carries [per_page] = 100 and a page number from 1 on, whatever the
    caller passed under these two keys; every other parameter of the caller
    is sent unchanged, and nothing else is added. *)
Theorem gen_request_query
    (request : string -> dict -> result (list value)) (fuel : nat) (url : string)
    (params : option dict) (u : string) (p : dict) :
  In (u, p) (issued (fst (gen_request request fuel url params))) ->
  u = url /\
  dict_get p "per_page" = Some (VInt 100) /\
  (exists n : nat, dict_get p "page" = Some (VInt (1 + Z.of_nat n))) /\
  (forall k, k <> "per_page" -> k <> "page" -> dict_get p k = caller_param params k).
Proof. apply gen_request_issued_query. Qed.

Lemma gen_request_query_witness :
  "u" = "u" /\
  dict_get [("filter", VStr "spam"); ("per_page", VInt 100); ("page", VInt 1)] "per_page"
    = Some (VInt 100) /\
  (exists n : nat,
      dict_get [("filter", VStr "spam"); ("per_page", VInt 100); ("page", VInt 1)] "page"
        = Some (VInt (1 + Z.of_nat n))) /\
  (forall k, k <> "per_page" -> k <> "page" ->
     dict_get [("filter", VStr "spam"); ("per_page", VInt 100); ("page", VInt 1)] k
       = caller_param (Some [("filter", VStr "spam"); ("per_page", VInt 5)]) k).
Proof.
  apply (gen_request_query example_api 3 "u"
           (Some [("filter", VStr "spam"); ("per_page", VInt 5)])).
  simpl. left. reflexivity.
Defined.

(** X5.  A page is the last one whenever it does not hold exactly 100 rows:
    a page of more than 100 rows ends the pagination as a short page does,
    all its rows being yielded. *)
Theorem gen_request_oversized_page
    (request : string -> dict -> result (list value)) (url : string)
    (params : option dict) (n : nat) (page : nat -> list value) (fuel : nat) :
  (n < fuel)%nat ->
  (forall i, (i <= n)%nat ->
     request url (page_params params (1 + Z.of_nat i)) = Ok (page i)) ->
  (forall i, (i < n)%nat -> List.length (page i) = 100%nat) ->
  (100 < List.length (page n))%nat ->
  let g := gen_request request fuel url params in
  snd g = Ok tt /\
  yielded (fst g) = flat_map page (seq 0 (S n)) /\
  issued (fst g) = map (fun i => (url, page_params params (1 + Z.of_nat i))) (seq 0 (S n)).
Proof.
  intros Hfuel Hreq Hfull Hlong. unfold gen_request, page_params in *.
  apply gen_request_loop_pages; auto. lia.
Qed.

Lemma gen_request_oversized_page_witness :
  let g := gen_request unpaged_api 2 "u" None in
  snd g = Ok tt /\
  yielded (fst g) = flat_map (fun _ => records250) (seq 0 1) /\
  issued (fst g) = map (fun i => ("u", page_params None (1 + Z.of_nat i))) (seq 0 1).
Proof.
  apply (gen_request_oversized_page unpaged_api "u" None 0 (fun _ => records250) 2).
  - lia.
  - intros i Hi. reflexivity.
  - intros i Hi. lia.
  - vm_compute. lia.
Defined.

(* ================================================================== *)
(** * Further properties: flat sync *)
(* ================================================================== *)

Section FlatRuns.

Variable CONFIG : config.
Variable request : string -> dict -> result (list value).

Lemma state_writes_app a b :
  state_writes (a ++ b) = (state_writes a ++ state_writes b)%list.
Proof.
  induction a as [|[u p|s|e v|s r|st] a IH]; simpl; auto. now rewrite IH.
Qed.

(** The body of the loop, case by case. *)
Lemma sync_row_run entity start row st :
  sync_row entity "updated_at" start row st =
  match row with
  | VDict d =>
      match dict_get d "updated_at" with
      | Some b =>
          match ge b start with
          | Ok true =>
              match dict_get d "custom_fields" with
              | None =>
                  (Ok tt, update_state st entity b,
                   [EvUpdateState entity b; EvWriteRecord entity (VDict d)])
              | Some custom_fields =>
                  match transform_dict custom_fields "name" "value" true with
                  | Ok l =>
                      (Ok tt, update_state st entity b,
                       [EvUpdateState entity b;
                        EvWriteRecord entity (VDict (dict_set d "custom_fields" l))])
                  | Raise e => (Raise e, st, [])
                  | Fuel => (Fuel, st, [])
                  end
              end
          | Ok false => (Ok tt, st, [])
          | Raise e => (Raise e, st, [])
          | Fuel => (Fuel, st, [])
          end
      | None => (Raise (KeyError "updated_at"), st, [])
      end
  | _ => (Raise TypeError, st, [])
  end.
Proof.
  unfold sync_row, dict_mem. destruct row as [| | | |l|d]; try reflexivity.
  run_py. destruct (dict_get d "updated_at") as [b|] eqn:Hb; [|reflexivity].
  destruct (ge b start) as [[|]|e|]; try reflexivity.
  destruct (dict_get d "custom_fields") as [cf|] eqn:Hcf.
  - destruct (transform_dict cf "name" "value" true) as [l|e|]; try reflexivity.
    rewrite dict_get_set_other by discriminate. now rewrite Hb.
  - now rewrite Hb.
Qed.

(** What the loop of a flat sync has done when it ends normally. *)
Lemma for_each_items_flat entity start :
  forall items fin st,
    let x := for_each_items items fin (sync_row entity "updated_at" start) st in
    state_writes (trace x) = [] /\
    (outcome x = Ok tt ->
     Forall (comparable "updated_at" start) (yielded items) /\
     Forall2 flat_emitted_as
       (filter (passes "updated_at" start) (yielded items))
       (records_of entity (trace x)) /\
     Forall2 (fun row v => subscript row "updated_at" = Ok v)
       (filter (passes "updated_at" start) (yielded items))
       (advances entity (trace x))).
Proof.
  induction items as [|[u p|row] items IH]; intros fin st; cbv zeta;
    cbn [for_each_items yielded].
  - split; [reflexivity|]. intros _. repeat split; constructor.
  - rewrite trace_bind, outcome_bind.
    cbn [emit trace outcome final_state fst snd app state_writes records_of advances].
    apply IH.
  - rewrite trace_bind, outcome_bind, state_writes_app, records_of_app, advances_app.
    rewrite sync_row_run.
    destruct row as [| | | |l|d];
      try (cbn [trace outcome final_state fst snd state_writes app];
           split; [reflexivity | discriminate]).
    destruct (dict_get d "updated_at") as [b|] eqn:Hb;
      [|cbn [trace outcome final_state fst snd state_writes app];
        split; [reflexivity | discriminate]].
    destruct (ge b start) as [[|]|e|] eqn:Hge;
      try (cbn [trace outcome final_state fst snd state_writes app];
           split; [reflexivity | discriminate]).
    + assert (Hc : comparable "updated_at" start (VDict d)) by now exists d, b, true.
      assert (Hp : passes "updated_at" start (VDict d) = true)
        by (unfold passes; simpl; now rewrite Hb, Hge).
      destruct (dict_get d "custom_fields") as [cf|] eqn:Hcf.
      * destruct (transform_dict cf "name" "value" true) as [l|e|] eqn:Hl;
          try (cbn [trace outcome final_state fst snd state_writes app];
               split; [reflexivity | discriminate]).
        cbn [trace outcome final_state fst snd state_writes app records_of advances filter].
        rewrite String.eqb_refl, Hp.
        destruct (IH fin (update_state st entity b)) as [Hws Hok].
        split; [exact Hws|]. intros Ho. destruct (Hok Ho) as (Hall & Hrec & Hadv).
        repeat split.
        -- now constructor.
        -- cbn [app]. constructor; [|exact Hrec].
           exists d. split; [reflexivity|]. rewrite Hcf. now exists l.
        -- cbn [app]. constructor; [|exact Hadv]. simpl. now rewrite Hb.
      * cbn [trace outcome final_state fst snd state_writes app records_of advances filter].
        rewrite String.eqb_refl, Hp.
        destruct (IH fin (update_state st entity b)) as [Hws Hok].
        split; [exact Hws|]. intros Ho. destruct (Hok Ho) as (Hall & Hrec & Hadv).
        repeat split.
        -- now constructor.
        -- cbn [app]. constructor; [|exact Hrec].
           exists d. split; [reflexivity|]. now rewrite Hcf.
        -- cbn [app]. constructor; [|exact Hadv]. simpl. now rewrite Hb.
    + assert (Hc : comparable "updated_at" start (VDict d)) by now exists d, b, false.
      assert (Hp : passes "updated_at" start (VDict d) = false)
        by (unfold passes; simpl; now rewrite Hb, Hge).
      cbn [trace outcome final_state fst snd state_writes app records_of advances filter].
      rewrite Hp.
      destruct (IH fin st) as [Hws Hok].
      split; [exact Hws|]. intros Ho. destruct (Hok Ho) as (Hall & Hrec & Hadv).
      repeat split; auto.
Qed.

(** A flat sync, from the run of its loop. *)
Lemma sync_time_filtered_run fuel entity st url :
  get_url CONFIG entity [] = Ok url ->
  let loop := for_each (gen_request request fuel url None)
                (sync_row entity "updated_at" (get_start CONFIG st entity)) st in
  sync_time_filtered CONFIG request fuel entity st =
  match outcome loop with
  | Ok _ =>
      (Ok tt, final_state loop,
       (EvWriteSchema entity :: trace loop ++ [EvWriteState (final_state loop)])%list)
  | other => (other, final_state loop, EvWriteSchema entity :: trace loop)
  end.
Proof.
  intros Hurl. cbv zeta. unfold sync_time_filtered. run_py. rewrite Hurl.
  destruct (for_each (gen_request request fuel url None)
              (sync_row entity "updated_at" (get_start CONFIG st entity)) st)
    as [[[[]|e|] st1] tr1]; cbn [app]; try now rewrite ?app_nil_r.
Qed.

Lemma sync_time_filtered_no_url fuel entity st :
  (forall url, get_url CONFIG entity [] <> Ok url) ->
  outcome (sync_time_filtered CONFIG request fuel entity st) <> Ok tt /\
  trace (sync_time_filtered CONFIG request fuel entity st) = [EvWriteSchema entity].
Proof.
  intros Hurl. unfold sync_time_filtered. run_py.
  destruct (get_url CONFIG entity []) as [url|e|].
  - now elim (Hurl url).
  - split; [discriminate | reflexivity].
  - split; [discriminate | reflexivity].
Qed.

End FlatRuns.

(** The state written by a flat sync. *)
Lemma flat_sync_state_writes
    (CONFIG : config) (request : string -> dict -> result (list value))
    (fuel : nat) (entity : string) (STATE : dict) :
  let x := sync_time_filtered CONFIG request fuel entity STATE in
  state_writes (trace x) =
    match outcome x with
    | Ok _ => [final_state x]
    | _ => []
    end /\
  (outcome x = Ok tt ->
   exists tr, trace x = (tr ++ [EvWriteState (final_state x)])%list /\
              state_writes tr = []).
Proof.
  cbv zeta. destruct (get_url CONFIG entity []) as [url|e|] eqn:Hurl.
  - rewrite (sync_time_filtered_run CONFIG request fuel entity STATE url Hurl).
    cbv zeta. unfold for_each.
    destruct (for_each_items_flat entity (get_start CONFIG STATE entity)
                (fst (gen_request request fuel url None))
                (snd (gen_request request fuel url None)) STATE) as [Hws _].
    cbv zeta in Hws.
    destruct (outcome (for_each_items (fst (gen_request request fuel url None))
                         (snd (gen_request request fuel url None))
                         (sync_row entity "updated_at" (get_start CONFIG STATE entity))
                         STATE)) as [[]|e|];
      cbn [trace outcome final_state fst snd state_writes].
    + rewrite state_writes_app, Hws. split; [reflexivity|]. intros _.
      eexists (EvWriteSchema entity :: _). split; [reflexivity|].
      cbn [state_writes]. exact Hws.
    + split; [exact Hws | discriminate].
    + split; [exact Hws | discriminate].
  - destruct (sync_time_filtered_no_url CONFIG request fuel entity STATE) as [Ho Ht].
    { intros url. rewrite Hurl. discriminate. }
    rewrite Ht.
    destruct (outcome (sync_time_filtered CONFIG request fuel entity STATE)) as [[]|x|];
      [now elim Ho | |]; split; [reflexivity | discriminate | reflexivity | discriminate].
  - destruct (sync_time_filtered_no_url CONFIG request fuel entity STATE) as [Ho Ht].
    { intros url. rewrite Hurl. discriminate. }
    rewrite Ht.
    destruct (outcome (sync_time_filtered CONFIG request fuel entity STATE)) as [[]|x|];
      [now elim Ho | |]; split; [reflexivity | discriminate | reflexivity | discriminate].
Qed.

(** X6.  A flat sync writes the state once, as its last action, when it
    ends normally, and the snapshot written is the state it leaves; a flat
    sync that fails writes no state at all. *)
Theorem sync_time_filtered_writes_state
    (CONFIG : config) (request : string -> dict -> result (list value))
    (fuel : nat) (entity : string) (STATE : dict) :
  let x := sync_time_filtered CONFIG request fuel entity STATE in
  state_writes (trace x) =
    match outcome x with
    | Ok _ => [final_state x]
    | _ => []
    end /\
  (outcome x = Ok tt ->
   exists tr, trace x = (tr ++ [EvWriteState (final_state x)])%list /\
              state_writes tr = []).
Proof. apply flat_sync_state_writes. Qed.

Lemma flat_sync_kept_rows
    (CONFIG : config) (request : string -> dict -> result (list value))
    (fuel : nat) (entity : string) (STATE : dict) :
  let x := sync_time_filtered CONFIG request fuel entity STATE in
  let kept_rows := filter (passes "updated_at" (get_start CONFIG STATE entity))
                     (flat_listing CONFIG request fuel entity) in
  outcome x = Ok tt ->
  Forall2 flat_emitted_as kept_rows (records_of entity (trace x)) /\
  Forall2 (fun row v => subscript row "updated_at" = Ok v)
    kept_rows (advances entity (trace x)).
Proof.
  cbv zeta. unfold flat_listing.
  destruct (get_url CONFIG entity []) as [url|e|] eqn:Hurl.
  - rewrite (sync_time_filtered_run CONFIG request fuel entity STATE url Hurl).
    cbv zeta. unfold for_each.
    destruct (for_each_items_flat entity (get_start CONFIG STATE entity)
                (fst (gen_request request fuel url None))
                (snd (gen_request request fuel url None)) STATE) as [_ Hok].
    cbv zeta in Hok.
    destruct (outcome (for_each_items (fst (gen_request request fuel url None))
                         (snd (gen_request request fuel url None))
                         (sync_row entity "updated_at" (get_start CONFIG STATE entity))
                         STATE)) as [[]|e|];
      cbn [trace outcome final_state fst snd]; try discriminate.
    intros _. destruct (Hok eq_refl) as (_ & Hrec & Hadv).
    cbn [records_of advances]. rewrite records_of_app, advances_app.
    cbn [records_of advances]. rewrite !app_nil_r. split; assumption.
  - intros Ho.
    destruct (sync_time_filtered_no_url CONFIG request fuel entity STATE) as [Hn _].
    { intros url. rewrite Hurl. discriminate. }
    now elim Hn.
  - intros Ho.
    destruct (sync_time_filtered_no_url CONFIG request fuel entity STATE) as [Hn _].
    { intros url. rewrite Hurl. discriminate. }
    now elim Hn.
Qed.

(** X7.  A flat sync that ends normally has emitted, in the order of the
    listing, exactly the rows that pass the comparison with the starting
    watermark, each one unchanged but for its custom fields turned into a
    list, and has advanced the watermark once per emitted row, to the
    bookmark of that row. *)
Theorem sync_time_filtered_emits_kept_rows
    (CONFIG : config) (request : string -> dict -> result (list value))
    (fuel : nat) (entity : string) (STATE : dict) :
  let x := sync_time_filtered CONFIG request fuel entity STATE in
  let kept_rows := filter (passes "updated_at" (get_start CONFIG STATE entity))
                     (flat_listing CONFIG request fuel entity) in
  outcome x = Ok tt ->
  Forall2 flat_emitted_as kept_rows (records_of entity (trace x)) /\
  Forall2 (fun row v => subscript row "updated_at" = Ok v)
    kept_rows (advances entity (trace x)).
Proof. apply flat_sync_kept_rows. Qed.

Lemma sync_time_filtered_emits_kept_rows_witness :
  Forall2 flat_emitted_as
    (filter (passes "updated_at" (get_start example_config [] "contacts"))
       (flat_listing example_config example_api 5 "contacts"))
    (records_of "contacts"
       (trace (sync_time_filtered example_config example_api 5 "contacts" []))) /\
  Forall2 (fun row v => subscript row "updated_at" = Ok v)
    (filter (passes "updated_at" (get_start example_config [] "contacts"))
       (flat_listing example_config example_api 5 "contacts"))
    (advances "contacts"
       (trace (sync_time_filtered example_config example_api 5 "contacts" []))).
Proof.
  apply (sync_time_filtered_emits_kept_rows example_config example_api 5 "contacts" []).
  reflexivity.
Defined.

(** X8.  A flat sync ends normally only if every row of the listing is a
    record with an [updated_at] that can be compared with the starting
    watermark: a row without that key makes the sync fail, and no state is
    written. *)
Theorem sync_time_filtered_needs_bookmark
    (CONFIG : config) (request : string -> dict -> result (list value))
    (fuel : nat) (entity : string) (STATE : dict) :
  let x := sync_time_filtered CONFIG request fuel entity STATE in
  let listing := flat_listing CONFIG request fuel entity in
  (outcome x = Ok tt ->
   Forall (comparable "updated_at" (get_start CONFIG STATE entity)) listing) /\
  (forall n d,
     nth_error listing n = Some (VDict d) ->
     dict_get d "updated_at" = None ->
     outcome x <> Ok tt /\ state_writes (trace x) = []).
Proof.
  cbv zeta.
  assert (Hall : outcome (sync_time_filtered CONFIG request fuel entity STATE) = Ok tt ->
                 Forall (comparable "updated_at" (get_start CONFIG STATE entity))
                        (flat_listing CONFIG request fuel entity)).
  { unfold flat_listing.
    destruct (get_url CONFIG entity []) as [url|e|] eqn:Hurl; [|constructor|constructor].
    rewrite (sync_time_filtered_run CONFIG request fuel entity STATE url Hurl).
    cbv zeta. unfold for_each.
    destruct (for_each_items_flat entity (get_start CONFIG STATE entity)
                (fst (gen_request request fuel url None))
                (snd (gen_request request fuel url None)) STATE) as [_ Hok].
    cbv zeta in Hok.
    destruct (outcome (for_each_items (fst (gen_request request fuel url None))
                         (snd (gen_request request fuel url None))
                         (sync_row entity "updated_at" (get_start CONFIG STATE entity))
                         STATE)) as [[]|e|];
      cbn [trace outcome final_state fst snd]; try discriminate.
    intros _. now destruct (Hok eq_refl) as (H & _ & _). }
  split; [exact Hall|].
  intros n d Hn Hd.
  assert (Hno : outcome (sync_time_filtered CONFIG request fuel entity STATE) <> Ok tt).
  { intros Ho. specialize (Hall Ho). rewrite Forall_forall in Hall.
    destruct (Hall (VDict d) (nth_error_In _ _ Hn)) as (d0 & b & c & Hd0 & Hb & _).
    inversion Hd0; subst d0. congruence. }
  split; [exact Hno|].
  destruct (flat_sync_state_writes CONFIG request fuel entity STATE) as [Hws _].
  rewrite Hws.
  destruct (outcome (sync_time_filtered CONFIG request fuel entity STATE)) as [[]|e|];
    [now elim Hno | reflexivity | reflexivity].
Qed.

Lemma sync_time_filtered_needs_bookmark_witness :
  outcome (sync_time_filtered example_config undated_api 5 "roles" []) <> Ok tt /\
  state_writes (trace (sync_time_filtered example_config undated_api 5 "roles" [])) = [].
Proof.
  apply (proj2 (sync_time_filtered_needs_bookmark example_config undated_api 5 "roles" [])
           0%nat [("id", VInt 1); ("name", VStr "Admin")]); reflexivity.
Defined.

(* ================================================================== *)
(** * Further properties: hierarchical sync *)
(* ================================================================== *)

Section TicketRuns.

Variable CONFIG : config.
Variable request : string -> dict -> result (list value).

Lemma persisted_per_ticket_app a b :
  persisted_per_ticket a -> persisted_per_ticket b -> persisted_per_ticket (a ++ b).
Proof.
  induction 1; intros Hb; simpl; auto.
  - now apply ppt_ticket; auto.
  - apply ppt_other; auto.
Qed.

Lemma sub_events_persisted bookmark start tr :
  Forall (sub_event bookmark start) tr -> persisted_per_ticket tr.
Proof.
  induction 1 as [|e tr He _ IH]; [constructor|].
  apply ppt_other; auto.
  destruct e as [u p|s|e v|s r|st]; simpl in *; auto.
  destruct He as [[<-|[<-|[<-|[]]]] _]; discriminate.
Qed.

Lemma sync_ticket_persisted fuel bookmark start state_entity row st :
  persisted_per_ticket
    (trace (sync_ticket CONFIG request fuel bookmark start state_entity row st)).
Proof.
  destruct (sync_ticket_cases CONFIG request fuel bookmark start state_entity row st)
    as (sub & Hsub & [[Ht _]|(d & d' & v & st' & _ & _ & _ & _ & Ht)]);
    rewrite Ht.
  - now apply sub_events_persisted with bookmark start.
  - apply persisted_per_ticket_app.
    + now apply sub_events_persisted with bookmark start.
    + apply ppt_other; [exact I|]. apply ppt_ticket. constructor.
Qed.

Lemma persisted_per_ticket_count tr :
  persisted_per_ticket tr ->
  List.length (state_writes tr) = List.length (records_of "tickets" tr).
Proof.
  induction 1 as [|r st tr _ IH|e tr He _ IH]; simpl; auto.
  destruct e as [u p|s|e v|s r|st]; simpl in *; auto; [|contradiction].
  destruct (String.eqb s "tickets") eqn:E; auto.
  apply String.eqb_eq in E. contradiction.
Qed.

Lemma advance_then_emit_other entity stream bookmark tr other :
  advance_then_emit entity stream bookmark tr ->
  other <> entity ->
  advances other tr = [].
Proof.
  intros H Hne. induction H as [|v r tr _ _ IH|e tr He _ IH]; simpl; auto.
  - destruct (String.eqb entity other) eqn:E; auto.
    apply String.eqb_eq in E. congruence.
  - destruct e as [u p|s|e v|s r|st]; simpl in *; auto. contradiction.
Qed.

End TicketRuns.

(** X9.  In a pass over the tickets the state is written immediately after
    each ticket emitted and at no other moment, so the number of state
    writes is the number of tickets emitted: a failure loses at most the
    work on the ticket in progress. *)
Theorem sync_tickets_by_filter_persists_each_ticket
    (CONFIG : config) (request : string -> dict -> result (list value))
    (fuel : nat) (bookmark_property : string) (predefined_filter : option string)
    (STATE : dict) :
  let x := sync_tickets_by_filter CONFIG request fuel bookmark_property
             predefined_filter STATE in
  persisted_per_ticket (trace x) /\
  List.length (state_writes (trace x)) = List.length (records_of "tickets" (trace x)).
Proof.
  cbv zeta.
  assert (H : persisted_per_ticket
                (trace (sync_tickets_by_filter CONFIG request fuel bookmark_property
                          predefined_filter STATE))).
  { unfold sync_tickets_by_filter.
    apply bind_trace; [exact ppt_nil | exact persisted_per_ticket_app | constructor |].
    intros st0 st1.
    apply bind_trace; [exact ppt_nil | exact persisted_per_ticket_app | constructor |].
    intros url st2.
    apply for_each_trace; [exact ppt_nil | exact persisted_per_ticket_app | |].
    - intros u p. apply ppt_other; [exact I | constructor].
    - intros row st'. apply sync_ticket_persisted. }
  split; [exact H | now apply persisted_per_ticket_count].
Qed.

(** X10.  A sync advances no watermark but its own: a flat sync of an
    entity, and a pass over the tickets, never call [update_state] for
    another namespace. *)
Theorem sync_advances_own_namespace_only
    (CONFIG : config) (request : string -> dict -> result (list value))
    (fuel : nat) (STATE : dict) (other : string) :
  (forall entity,
     other <> entity ->
     advances other (trace (sync_time_filtered CONFIG request fuel entity STATE)) = []) /\
  (forall bookmark_property predefined_filter,
     other <> ticket_namespace predefined_filter ->
     advances other
       (trace (sync_tickets_by_filter CONFIG request fuel bookmark_property
                 predefined_filter STATE)) = []).
Proof.
  split.
  - intros entity Hne.
    apply (advance_then_emit_other entity entity "updated_at"); [|exact Hne].
    apply sync_time_filtered_trace.
  - intros bookmark_property predefined_filter Hne.
    apply (advance_then_emit_other (ticket_namespace predefined_filter) "tickets"
             bookmark_property); [|exact Hne].
    apply sync_tickets_by_filter_trace.
Qed.

Lemma sync_advances_own_namespace_only_witness :
  advances "tickets_spam"
    (trace (sync_tickets_by_filter example_config example_api 5 "updated_at" None [])) = [] /\
  advances "tickets"
    (trace (sync_tickets_by_filter example_config example_api 5 "updated_at" None [])) =
    [VStr "2019-06-01T00:00:00Z"].
Proof.
  split.
  - apply (proj2 (sync_advances_own_namespace_only example_config example_api 5 []
                    "tickets_spam") "updated_at" None).
    discriminate.
  - reflexivity.
Defined.

Section SubResources.

Variable CONFIG : config.
Variable request : string -> dict -> result (list value).

(** The body of the loops over the conversations and the time entries. *)
Lemma sub_row_run stream bookmark start subrow st :
  (subrow <- as_dict subrow ;;
   b <- getitem subrow bookmark ;;
   keep <- lift (ge b start) ;;
   if keep : bool then write_record stream subrow else ret tt) st =
  match subrow with
  | VDict d =>
      match dict_get d bookmark with
      | Some b =>
          match ge b start with
          | Ok true => (Ok tt, st, [EvWriteRecord stream (VDict d)])
          | Ok false => (Ok tt, st, [])
          | Raise e => (Raise e, st, [])
          | Fuel => (Fuel, st, [])
          end
      | None => (Raise (KeyError bookmark), st, [])
      end
  | _ => (Raise TypeError, st, [])
  end.
Proof.
  destruct subrow as [| | | |l|d]; try reflexivity.
  run_py. destruct (dict_get d bookmark) as [b|]; [|reflexivity].
  now destruct (ge b start) as [[|]|e|].
Qed.

(** A loop over a sub-resource that ends normally, or with an [HTTPError],
    has emitted the rows yielded that pass the comparison, as they are, and
    left the state alone. *)
Lemma for_each_items_sub stream bookmark start :
  forall items fin st,
    let x := for_each_items items fin
               (fun subrow =>
                  subrow <- as_dict subrow ;;
                  b <- getitem subrow bookmark ;;
                  keep <- lift (ge b start) ;;
                  if keep : bool then write_record stream subrow else ret tt) st in
    final_state x = st /\
    (outcome x = Ok tt \/ (exists code content, outcome x = Raise (HTTPError code content)) ->
     records_of stream (trace x) = filter (passes bookmark start) (yielded items)).
Proof.
  induction items as [|[u p|row] items IH]; intros fin st; cbv zeta;
    cbn [for_each_items yielded].
  - split; reflexivity.
  - rewrite trace_bind, outcome_bind, final_state_bind.
    cbn [emit trace outcome final_state fst snd app records_of]. apply IH.
  - rewrite trace_bind, outcome_bind, final_state_bind, records_of_app.
    rewrite sub_row_run.
    destruct row as [| | | |l|d];
      try (cbn [trace outcome final_state fst snd];
           split; [reflexivity | intros [H|(c0 & s0 & H)]; discriminate H]).
    destruct (dict_get d bookmark) as [b|] eqn:Hb;
      [|cbn [trace outcome final_state fst snd];
        split; [reflexivity | intros [H|(c0 & s0 & H)]; discriminate H]].
    destruct (ge b start) as [[|]|e|] eqn:Hge.
    + assert (Hp : passes bookmark start (VDict d) = true)
        by (unfold passes; simpl; now rewrite Hb, Hge).
      cbn [trace outcome final_state fst snd records_of app filter].
      rewrite String.eqb_refl, Hp.
      destruct (IH fin st) as [Hst Hrec]. split; [exact Hst|].
      intros Ho. cbn [app]. f_equal. now apply Hrec.
    + assert (Hp : passes bookmark start (VDict d) = false)
        by (unfold passes; simpl; now rewrite Hb, Hge).
      cbn [trace outcome final_state fst snd records_of app filter].
      rewrite Hp. apply IH.
    + apply ge_raises in Hge. subst e.
      cbn [trace outcome final_state fst snd].
      split; [reflexivity | intros [H|(c0 & s0 & H)]; discriminate H].
    + now apply ge_ends in Hge.
Qed.

Lemma sync_conversations_emits fuel bookmark start id st :
  let x := sync_conversations CONFIG request fuel bookmark start id st in
  final_state x = st /\
  (outcome x = Ok tt ->
   records_of "conversations" (trace x) =
     filter (passes bookmark start)
       (yielded (fst (gen_request request fuel (sub_url CONFIG id "conversations") None)))).
Proof.
  cbv zeta. unfold sync_conversations. rewrite get_url_sub_ticket.
  set (g := gen_request request fuel (sub_url CONFIG id "conversations") None).
  destruct (for_each_items_sub "conversations" bookmark start (fst g) (snd g) st)
    as [Hst Hrec]. cbv zeta in Hst, Hrec.
  unfold try_except_HTTPError, bind, lift, for_each, trace, outcome, final_state in *.
  fold g.
  destruct (for_each_items (fst g) (snd g) _ st) as [[[[]|e|] st1] tr1];
    cbn [fst snd] in *.
  - cbn [app]. split; [exact Hst|]. intros _. apply Hrec. now left.
  - destruct e as [k| | | |code content| |c|];
      try (cbn [fst snd app]; split; [exact Hst | discriminate]).
    destruct (code =? 403); cbn [ret raise fst snd app]; rewrite !app_nil_r.
    + split; [exact Hst|]. intros _. apply Hrec. right. now exists code, content.
    + split; [exact Hst | discriminate].
  - cbn [app]. split; [exact Hst | discriminate].
Qed.

Lemma sync_time_entries_emits fuel bookmark start id st :
  let x := sync_time_entries CONFIG request fuel bookmark start id st in
  final_state x = st /\
  (outcome x = Ok tt ->
   records_of "time_entries" (trace x) =
     filter (passes bookmark start)
       (yielded (fst (gen_request request fuel (sub_url CONFIG id "time_entries") None)))).
Proof.
  cbv zeta. unfold sync_time_entries. rewrite get_url_sub_ticket.
  set (g := gen_request request fuel (sub_url CONFIG id "time_entries") None).
  destruct (for_each_items_sub "time_entries" bookmark start (fst g) (snd g) st)
    as [Hst Hrec]. cbv zeta in Hst, Hrec.
  unfold try_except_HTTPError, bind, lift, for_each, trace, outcome, final_state in *.
  fold g.
  destruct (for_each_items (fst g) (snd g) _ st) as [[[[]|e|] st1] tr1];
    cbn [fst snd] in *.
  - cbn [app]. split; [exact Hst|]. intros _. apply Hrec. now left.
  - destruct e as [k| | | |code content| |c|];
      try (cbn [fst snd app]; split; [exact Hst | discriminate]).
    destruct (code =? 403); [|destruct (code =? 404)];
      cbn [ret raise fst snd app]; rewrite ?app_nil_r.
    + split; [exact Hst|]. intros _. apply Hrec. right. now exists code, content.
    + split; [exact Hst|]. intros _. apply Hrec. right. now exists code, content.
    + split; [exact Hst | discriminate].
  - cbn [app]. split; [exact Hst | discriminate].
Qed.

End SubResources.

(** X11.  When the block of the conversations, or of the time entries, of
    a ticket ends normally, it has emitted exactly the rows its fetch
    yielded that pass the comparison with the starting watermark, in order
    and unchanged (after a recovered 403 or 404: those of the pages before
    the refusal), and it has left the watermarks alone. *)
Theorem sub_resource_emits_kept_rows
    (CONFIG : config) (request : string -> dict -> result (list value))
    (fuel : nat) (bookmark_property : string) (start id : value) (STATE : dict) :
  let c := sync_conversations CONFIG request fuel bookmark_property start id STATE in
  let t := sync_time_entries CONFIG request fuel bookmark_property start id STATE in
  (final_state c = STATE /\
   (outcome c = Ok tt ->
    records_of "conversations" (trace c) =
      filter (passes bookmark_property start)
        (yielded (fst (gen_request request fuel
                         (sub_url CONFIG id "conversations") None))))) /\
  (final_state t = STATE /\
   (outcome t = Ok tt ->
    records_of "time_entries" (trace t) =
      filter (passes bookmark_property start)
        (yielded (fst (gen_request request fuel
                         (sub_url CONFIG id "time_entries") None))))).
Proof.
  split; [apply sync_conversations_emits | apply sync_time_entries_emits].
Qed.

Lemma sub_resource_emits_kept_rows_witness :
  records_of "conversations"
    (trace (sync_conversations example_config example_api 5 "updated_at"
              (VStr "2020-01-01T00:00:00Z") (VInt 7) [])) =
  filter (passes "updated_at" (VStr "2020-01-01T00:00:00Z"))
    (yielded (fst (gen_request example_api 5
                     (sub_url example_config (VInt 7) "conversations") None))).
Proof.
  apply (proj2 (proj1 (sub_resource_emits_kept_rows example_config example_api 5
                         "updated_at" (VStr "2020-01-01T00:00:00Z") (VInt 7) []))).
  reflexivity.
Defined.

(* ================================================================== *)
(** * Further properties: the driver *)
(* ================================================================== *)

Section Driver.

Variable CONFIG : config.
Variable request : string -> dict -> result (list value).

Lemma schemas_app a b : schemas (a ++ b) = (schemas a ++ schemas b)%list.
Proof.
  induction a as [|[u p|s|e v|s r|st] a IH]; simpl; auto. now rewrite IH.
Qed.

Lemma streams_of_app a b : streams_of (a ++ b) = (streams_of a ++ streams_of b)%list.
Proof.
  induction a as [|[u p|s|e v|s r|st] a IH]; simpl; auto; now rewrite IH.
Qed.

Lemma loop_events_nil streams : loop_events streams [].
Proof. split; [reflexivity | constructor]. Qed.

Lemma loop_events_app streams a b :
  loop_events streams a -> loop_events streams b -> loop_events streams (a ++ b).
Proof.
  intros [Ha1 Ha2] [Hb1 Hb2]. split.
  - now rewrite schemas_app, Ha1, Hb1.
  - rewrite streams_of_app. apply Forall_app. now split.
Qed.

Lemma loop_events_request streams u p : loop_events streams [EvRequest u p].
Proof. split; [reflexivity | constructor]. Qed.

Lemma sync_row_loop_events entity start row st :
  loop_events [entity] (trace (sync_row entity "updated_at" start row st)).
Proof.
  destruct (sync_row_cases entity start row st)
    as [[Ht _]|(d & d' & v & _ & _ & _ & _ & _ & Hx)].
  - rewrite Ht. apply loop_events_nil.
  - cbv zeta in Hx. rewrite Hx. split; [reflexivity|].
    simpl. constructor; [now left | constructor].
Qed.

Lemma sub_events_loop_events bookmark start tr :
  Forall (sub_event bookmark start) tr ->
  loop_events ["tickets"; "conversations"; "satisfaction_ratings"; "time_entries"] tr.
Proof.
  induction 1 as [|e tr He _ [IH1 IH2]]; [apply loop_events_nil|].
  destruct e as [u p|s|e v|s r|st]; simpl in He; try contradiction.
  - split; assumption.
  - split; [exact IH1|]. simpl. constructor; [|exact IH2].
    destruct He as [Hin _]. now right.
Qed.

Lemma sync_ticket_loop_events fuel bookmark start state_entity row st :
  loop_events ["tickets"; "conversations"; "satisfaction_ratings"; "time_entries"]
    (trace (sync_ticket CONFIG request fuel bookmark start state_entity row st)).
Proof.
  destruct (sync_ticket_cases CONFIG request fuel bookmark start state_entity row st)
    as (sub & Hsub & [[Ht _]|(d & d' & v & st' & _ & _ & _ & _ & Ht)]);
    rewrite Ht.
  - now apply sub_events_loop_events with bookmark start.
  - apply loop_events_app; [now apply sub_events_loop_events with bookmark start|].
    split; [reflexivity|]. simpl. constructor; [now left | constructor].
Qed.

Lemma sync_tickets_by_filter_loop_events fuel bookmark predefined_filter st :
  loop_events ["tickets"; "conversations"; "satisfaction_ratings"; "time_entries"]
    (trace (sync_tickets_by_filter CONFIG request fuel bookmark predefined_filter st)).
Proof.
  pose proof (loop_events_nil
                ["tickets"; "conversations"; "satisfaction_ratings"; "time_entries"])
    as Hnil.
  pose proof (loop_events_app
                ["tickets"; "conversations"; "satisfaction_ratings"; "time_entries"])
    as Happ.
  unfold sync_tickets_by_filter.
  apply bind_trace; [exact Hnil | exact Happ | exact Hnil |]. intros st0 st1.
  apply bind_trace; [exact Hnil | exact Happ | exact Hnil |]. intros url st2.
  apply for_each_trace;
    [exact Hnil | exact Happ | intros u p; apply loop_events_request
     | intros row st'; apply sync_ticket_loop_events].
Qed.

(** A flat sync writes its schema first, and only records of its entity. *)
Lemma sync_time_filtered_streams fuel entity st :
  schemas (trace (sync_time_filtered CONFIG request fuel entity st)) = [entity] /\
  Forall (fun s => In s [entity])
    (streams_of (trace (sync_time_filtered CONFIG request fuel entity st))).
Proof.
  pose proof (loop_events_nil [entity]) as Hnil.
  pose proof (loop_events_app [entity]) as Happ.
  unfold sync_time_filtered.
  rewrite trace_bind. cbn [write_schema emit trace outcome final_state fst snd app].
  assert (H : loop_events [entity]
    (trace ((STATE <- read_state ;;
             url <- lift (get_url CONFIG entity []) ;;
             for_each (gen_request request fuel url None)
               (sync_row entity "updated_at" (get_start CONFIG STATE entity)) ;;
             write_state) st))).
  { apply bind_trace; [exact Hnil | exact Happ | exact Hnil |]. intros STATE st1.
    apply bind_trace; [exact Hnil | exact Happ | exact Hnil |]. intros url st2.
    apply bind_trace; [exact Hnil | exact Happ | |].
    - apply for_each_trace;
        [exact Hnil | exact Happ | intros u p; apply loop_events_request
         | intros row st'; apply sync_row_loop_events].
    - intros _ st3. split; [reflexivity | constructor]. }
  destruct H as [H1 H2]. cbn [schemas streams_of]. split.
  - now rewrite H1.
  - constructor; [now left | exact H2].
Qed.

(** [sync_tickets] writes its four schemas first, and only records of its
    four streams. *)
Lemma sync_tickets_streams fuel st :
  schemas (trace (sync_tickets CONFIG request fuel st)) =
    ["tickets"; "conversations"; "satisfaction_ratings"; "time_entries"] /\
  Forall (fun s => In s ["tickets"; "conversations"; "satisfaction_ratings";
                         "time_entries"])
    (streams_of (trace (sync_tickets CONFIG request fuel st))).
Proof.
  pose proof (loop_events_nil
                ["tickets"; "conversations"; "satisfaction_ratings"; "time_entries"])
    as Hnil.
  pose proof (loop_events_app
                ["tickets"; "conversations"; "satisfaction_ratings"; "time_entries"])
    as Happ.
  unfold sync_tickets.
  rewrite trace_bind. cbn [write_schema emit trace outcome final_state fst snd app].
  rewrite trace_bind. cbn [write_schema emit trace outcome final_state fst snd app].
  rewrite trace_bind. cbn [write_schema emit trace outcome final_state fst snd app].
  rewrite trace_bind. cbn [write_schema emit trace outcome final_state fst snd app].
  assert (H : loop_events
    ["tickets"; "conversations"; "satisfaction_ratings"; "time_entries"]
    (trace ((sync_tickets_by_filter CONFIG request fuel "updated_at" None ;;
             sync_tickets_by_filter CONFIG request fuel "updated_at" (Some "deleted") ;;
             sync_tickets_by_filter CONFIG request fuel "updated_at" (Some "spam")) st))).
  { apply bind_trace;
      [exact Hnil | exact Happ | apply sync_tickets_by_filter_loop_events |].
    intros _ st1.
    apply bind_trace;
      [exact Hnil | exact Happ | apply sync_tickets_by_filter_loop_events |].
    intros _ st2. apply sync_tickets_by_filter_loop_events. }
  destruct H as [H1 H2]. cbn [schemas streams_of]. split.
  - now rewrite H1.
  - repeat (constructor; [simpl; tauto|]). exact H2.
Qed.

End Driver.

Section Selection.

Variable CONFIG : config.
Variable request : string -> dict -> result (list value).



Lemma selected_of_raises items e :
  selected_of items = Raise e -> e = AttributeError.
Proof.
  induction items as [|[key v] items IH]; cbn [selected_of]; [discriminate|].
  destruct v as [| | | |l|d]; cbn [selected]; try (intros H; now inversion H).
  destruct (dict_get d "selected"); destruct (selected_of items); try discriminate;
    intros H; now apply IH.
Qed.

Lemma selected_streams_raises e :
  selected_streams CONFIG = Raise e -> e = AttributeError.
Proof.
  unfold selected_streams. destruct (streams CONFIG) as [[| | | |l|d]|];
    try (intros H; now inversion H).
  apply selected_of_raises.
Qed.

(** The statements [do_sync] runs under its [try]. *)
Lemma do_sync_run fuel st l :
  selected_streams CONFIG = Ok l ->
  exists inner : M unit,
    inner =
      (when (existsb (String.eqb "tickets") l) (sync_tickets CONFIG request fuel) ;;
       when (existsb (String.eqb "contacts") l)
            (sync_time_filtered CONFIG request fuel "contacts") ;;
       when (existsb (String.eqb "agents") l)
            (sync_time_filtered CONFIG request fuel "agents") ;;
       when (existsb (String.eqb "roles") l)
            (sync_time_filtered CONFIG request fuel "roles") ;;
       when (existsb (String.eqb "groups") l)
            (sync_time_filtered CONFIG request fuel "groups") ;;
       when (existsb (String.eqb "companies") l)
            (sync_time_filtered CONFIG request fuel "companies")) /\
    trace (do_sync CONFIG request fuel st) = trace (inner st) /\
    outcome (do_sync CONFIG request fuel st) =
      match outcome (inner st) with
      | Raise (HTTPError _ _) => Raise (SystemExit 1)
      | other => other
      end.
Proof.
  intros Hsel. eexists. split; [reflexivity|].
  unfold do_sync. rewrite trace_bind, outcome_bind. unfold lift at 1 2 3 4 5.
  rewrite Hsel. cbn [trace outcome final_state fst snd app].
  rewrite trace_try_except, outcome_try_except.
  match goal with
  | |- context [outcome (?inner st)] => destruct (outcome (inner st)) as [[]|e|]
  end; try (rewrite app_nil_r; split; reflexivity).
  destruct e; rewrite app_nil_r; split; reflexivity.
Qed.

End Selection.



(** X14.  [do_sync] writes schemas and records for selected streams only:
    every stream it writes to is a selected entity of its list, or one of the
    three sub-streams of the tickets when the tickets are selected. *)
Theorem do_sync_selected_streams_only
    (CONFIG : config) (request : string -> dict -> result (list value))
    (fuel : nat) (STATE : dict) (selected_streams_ : list string) (s : string) :
  selected_streams CONFIG = Ok selected_streams_ ->
  In s (streams_of (trace (do_sync CONFIG request fuel STATE))) ->
  exists x, In x stream_order /\ In x selected_streams_ /\ In s (schemas_for x).
Proof.
  intros Hsel Hin.
  destruct (do_sync_run CONFIG request fuel STATE selected_streams_ Hsel)
    as (inner & Hinner & Ht & _).
  rewrite Ht in Hin. subst inner. revert Hin.
  set (P := fun tr : list event =>
              Forall (fun s => exists x, In x stream_order /\ In x selected_streams_ /\
                                         In s (schemas_for x)) (streams_of tr)).
  assert (Pnil : P []) by constructor.
  assert (Papp : forall a b, P a -> P b -> P (a ++ b)%list).
  { intros a b Ha Hb. unfold P. rewrite streams_of_app. apply Forall_app. now split. }
  assert (Hflat : forall entity st,
            In entity stream_order -> entity <> "tickets" ->
            P (trace (when (existsb (String.eqb entity) selected_streams_)
                           (sync_time_filtered CONFIG request fuel entity) st))).
  { intros entity st Ho Hne.
    destruct (existsb (String.eqb entity) selected_streams_) eqn:E; [|exact Pnil].
    cbn [when]. apply existsb_exists in E. destruct E as (y & Hy & Hey).
    apply String.eqb_eq in Hey. subst y.
    destruct (sync_time_filtered_streams CONFIG request fuel entity st) as [_ H].
    eapply Forall_impl; [|exact H]. intros a [<-|[]].
    exists entity. split; [exact Ho|]. split; [exact Hy|].
    unfold schemas_for. apply String.eqb_neq in Hne. rewrite Hne. now left. }
  assert (Htickets : forall st,
            P (trace (when (existsb (String.eqb "tickets") selected_streams_)
                           (sync_tickets CONFIG request fuel) st))).
  { intros st.
    destruct (existsb (String.eqb "tickets") selected_streams_) eqn:E; [|exact Pnil].
    cbn [when]. apply existsb_exists in E. destruct E as (y & Hy & Hey).
    apply String.eqb_eq in Hey. subst y.
    destruct (sync_tickets_streams CONFIG request fuel st) as [_ H].
    eapply Forall_impl; [|exact H]. intros a Ha.
    exists "tickets". split; [now left|]. split; [exact Hy | exact Ha]. }
  assert (H : P (trace
    ((when (existsb (String.eqb "tickets") selected_streams_)
           (sync_tickets CONFIG request fuel) ;;
      when (existsb (String.eqb "contacts") selected_streams_)
           (sync_time_filtered CONFIG request fuel "contacts") ;;
      when (existsb (String.eqb "agents") selected_streams_)
           (sync_time_filtered CONFIG request fuel "agents") ;;
      when (existsb (String.eqb "roles") selected_streams_)
           (sync_time_filtered CONFIG request fuel "roles") ;;
      when (existsb (String.eqb "groups") selected_streams_)
           (sync_time_filtered CONFIG request fuel "groups") ;;
      when (existsb (String.eqb "companies") selected_streams_)
           (sync_time_filtered CONFIG request fuel "companies")) STATE))).
  { apply bind_trace; [exact Pnil | exact Papp | apply Htickets |]. intros _ st1.
    apply bind_trace;
      [exact Pnil | exact Papp
       | apply Hflat; [simpl; tauto | discriminate] |]. intros _ st2.
    apply bind_trace;
      [exact Pnil | exact Papp
       | apply Hflat; [simpl; tauto | discriminate] |]. intros _ st3.
    apply bind_trace;
      [exact Pnil | exact Papp
       | apply Hflat; [simpl; tauto | discriminate] |]. intros _ st4.
    apply bind_trace;
      [exact Pnil | exact Papp
       | apply Hflat; [simpl; tauto | discriminate] |]. intros _ st5.
    apply Hflat; [simpl; tauto | discriminate]. }
  intros Hin. unfold P in H. rewrite Forall_forall in H. exact (H s Hin).
Qed.

Lemma do_sync_selected_streams_only_witness :
  exists x, In x stream_order /\ In x ["tickets"; "contacts"] /\
            In "conversations" (schemas_for x).
Proof.
  apply (do_sync_selected_streams_only (selecting ["tickets"; "contacts"]) example_api 5 []
           ["tickets"; "contacts"] "conversations").
  - reflexivity.
  - simpl. right. left. reflexivity.
Defined.

(* ================================================================== *)
(** * Further properties: the requests sent *)
(* ================================================================== *)

Section Requests.

Variable CONFIG : config.
Variable request : string -> dict -> result (list value).

Lemma requests_app a b : requests (a ++ b) = (requests a ++ requests b)%list.
Proof.
  induction a as [|[u p|s|e v|s r|st] a IH]; simpl; auto. now rewrite IH.
Qed.

(** The requests of a loop are those its generator issues and those of its
    body. *)
Lemma for_each_items_requests (Q : string * dict -> Prop) (body : value -> M unit) :
  (forall row st, Forall Q (requests (trace (body row st)))) ->
  forall items fin st,
    Forall Q (issued items) ->
    Forall Q (requests (trace (for_each_items items fin body st))).
Proof.
  intros Hbody. induction items as [|[u p|row] items IH]; intros fin st Hissued;
    cbn [for_each_items issued] in *.
  - constructor.
  - rewrite trace_bind. cbn [emit trace outcome final_state fst snd app requests].
    inversion Hissued; subst. constructor; auto.
  - rewrite trace_bind, requests_app. apply Forall_app. split; [apply Hbody|].
    destruct (outcome (body row st)); [now apply IH | constructor | constructor].
Qed.

Lemma gen_request_paging_only fuel url :
  Forall (fun r => fst r = url /\ paging_only (snd r))
         (issued (fst (gen_request request fuel url None))).
Proof.
  apply Forall_forall. intros [u p] Hin.
  assert (Hshape : exists m : nat,
    issued (fst (gen_request request fuel url None)) =
      map (fun i => (url, page_params None (1 + Z.of_nat i))) (seq 0 m) /\
    forall i, (S i < m)%nat ->
      exists data,
        request url (page_params None (1 + Z.of_nat i)) = Ok data /\
        List.length data = 100%nat).
  { unfold gen_request, page_params. apply gen_request_loop_shape. }
  destruct Hshape as (m & Hm & _). rewrite Hm in Hin.
  apply in_map_iff in Hin. destruct Hin as (i & Hi & _).
  inversion Hi; subst u p. split; [reflexivity|]. now exists i.
Qed.

Lemma sync_row_requests entity start row st :
  requests (trace (sync_row entity "updated_at" start row st)) = [].
Proof.
  destruct (sync_row_cases entity start row st)
    as [[Ht _]|(d & d' & v & _ & _ & _ & _ & _ & Hx)].
  - now rewrite Ht.
  - cbv zeta in Hx. now rewrite Hx.
Qed.

End Requests.

Lemma flat_sync_requests
    (CONFIG : config) (request : string -> dict -> result (list value))
    (fuel : nat) (entity : string) (STATE : dict) (u : string) (p : dict) :
  In (u, p) (requests (trace (sync_time_filtered CONFIG request fuel entity STATE))) ->
  get_url CONFIG entity [] = Ok u /\ paging_only p.
Proof.
  destruct (get_url CONFIG entity []) as [url|e|] eqn:Hurl.
  - rewrite (sync_time_filtered_run CONFIG request fuel entity STATE url Hurl).
    cbv zeta. unfold for_each.
    pose proof (for_each_items_requests
                  (fun r => fst r = url /\ paging_only (snd r))
                  (sync_row entity "updated_at" (get_start CONFIG STATE entity))
                  (fun row st => eq_ind_r (Forall _) (Forall_nil _)
                                   (sync_row_requests entity _ row st))
                  (fst (gen_request request fuel url None))
                  (snd (gen_request request fuel url None)) STATE
                  (gen_request_paging_only request fuel url)) as Hloop.
    rewrite Forall_forall in Hloop.
    destruct (outcome (for_each_items (fst (gen_request request fuel url None))
                         (snd (gen_request request fuel url None))
                         (sync_row entity "updated_at" (get_start CONFIG STATE entity))
                         STATE)) as [[]|e|];
      cbn [trace outcome final_state fst snd requests]; intros Hin.
    + rewrite requests_app in Hin. cbn [requests] in Hin. rewrite app_nil_r in Hin.
      destruct (Hloop (u, p) Hin) as [Hu Hp]. cbn [fst snd] in *. now subst u.
    + destruct (Hloop (u, p) Hin) as [Hu Hp]. cbn [fst snd] in *. now subst u.
    + destruct (Hloop (u, p) Hin) as [Hu Hp]. cbn [fst snd] in *. now subst u.
  - destruct (sync_time_filtered_no_url CONFIG request fuel entity STATE) as [_ Ht].
    { intros url. rewrite Hurl. discriminate. }
    rewrite Ht. intros [].
  - destruct (sync_time_filtered_no_url CONFIG request fuel entity STATE) as [_ Ht].
    { intros url. rewrite Hurl. discriminate. }
    rewrite Ht. intros [].
Qed.

(** X15.  A flat sync sends nothing but the paging parameters: every
    request goes to the URL of the entity with [per_page] = 100 and a page
    number from 1 on, and with no [updated_since], ordering or filter
    parameter, whatever the watermark; the rows are filtered on the client
    side only. *)
Theorem sync_time_filtered_requests
    (CONFIG : config) (request : string -> dict -> result (list value))
    (fuel : nat) (entity : string) (STATE : dict) (u : string) (p : dict) :
  In (u, p) (requests (trace (sync_time_filtered CONFIG request fuel entity STATE))) ->
  get_url CONFIG entity [] = Ok u /\ paging_only p.
Proof. apply flat_sync_requests. Qed.

Lemma sync_time_filtered_requests_witness :
  get_url example_config "roles" [] = Ok "https://acme.freshdesk.com/api/v2/roles" /\
  paging_only [("per_page", VInt 100); ("page", VInt 1)].
Proof.
  apply (sync_time_filtered_requests example_config example_api 5 "roles"
           [("roles", VStr "2021-03-01T10:00:00Z")]).
  simpl. left. reflexivity.
Defined.

Section PassRequests.

Variable CONFIG : config.
Variable request : string -> dict -> result (list value).

Lemma sub_row_requests stream bookmark start subrow st :
  requests
    (trace ((subrow <- as_dict subrow ;;
             b <- getitem subrow bookmark ;;
             keep <- lift (ge b start) ;;
             if keep : bool then write_record stream subrow else ret tt) st)) = [].
Proof.
  rewrite sub_row_run. destruct subrow as [| | | |l|d]; try reflexivity.
  destruct (dict_get d bookmark) as [b|]; [|reflexivity].
  now destruct (ge b start) as [[|]|e|].
Qed.

Lemma ratings_row_requests bookmark start subrow st :
  requests
    (trace ((subrow <- as_dict subrow ;;
             ratings <- getitem subrow "ratings" ;;
             ratings <- lift (transform_dict ratings "question" "value" false) ;;
             let subrow := dict_set subrow "ratings" ratings in
             b <- getitem subrow bookmark ;;
             keep <- lift (ge b start) ;;
             if keep : bool then write_record "satisfaction_ratings" subrow
             else ret tt) st)) = [].
Proof.
  destruct subrow as [| | | |l|d]; try reflexivity.
  run_py. destruct (dict_get d "ratings") as [r|]; [|reflexivity].
  destruct (transform_dict r "question" "value" false) as [r'|e|]; try reflexivity.
  destruct (dict_get (dict_set d "ratings" r') bookmark) as [b|]; [|reflexivity].
  now destruct (ge b start) as [[|]|e|].
Qed.

(** The requests of a try block around a loop over a sub-resource. *)
Lemma block_requests fuel url (body : value -> M unit) handler st :
  (forall row st', requests (trace (body row st')) = []) ->
  (forall code content st', trace (handler code content st') = []) ->
  Forall (fun r => fst r = url /\ paging_only (snd r))
    (requests
       (trace (try_except_HTTPError
                 (u <- lift (Ok url) ;; for_each (gen_request request fuel u None) body)
                 handler st))).
Proof.
  intros Hbody Hhandler. rewrite trace_try_except, requests_app.
  apply Forall_app. split.
  - rewrite trace_bind. cbn [lift trace outcome final_state fst snd app].
    unfold for_each. apply for_each_items_requests.
    + intros row st'. rewrite Hbody. constructor.
    + apply gen_request_paging_only.
  - match goal with
    | |- Forall _ (requests match ?o with _ => _ end) => destruct o as [a|e|]
    end; try constructor.
    destruct e; try constructor. rewrite Hhandler. constructor.
Qed.

Lemma sync_ticket_requests fuel bookmark start predefined_filter state_entity row st :
  Forall (pass_request CONFIG bookmark start predefined_filter)
    (requests (trace (sync_ticket CONFIG request fuel bookmark start state_entity row st))).
Proof.
  set (P := fun tr : list event =>
              Forall (pass_request CONFIG bookmark start predefined_filter) (requests tr)).
  assert (Pnil : P []) by constructor.
  assert (Papp : forall a b, P a -> P b -> P (a ++ b)%list).
  { intros a b Ha Hb. unfold P. rewrite requests_app. apply Forall_app. now split. }
  assert (Hsub : forall id entity tr,
            In entity ["conversations"; "satisfaction_ratings"; "time_entries"] ->
            Forall (fun r => fst r = sub_url CONFIG id entity /\ paging_only (snd r))
                   (requests tr) ->
            P tr).
  { intros id entity tr Hin H. unfold P. eapply Forall_impl; [|exact H].
    intros r [Hu Hp]. right. now exists id, entity. }
  change (P (trace (sync_ticket CONFIG request fuel bookmark start state_entity row st))).
  unfold sync_ticket.
  apply bind_trace; [exact Pnil | exact Papp | apply as_dict_trace; exact Pnil |].
  intros d st1.
  apply bind_trace; [exact Pnil | exact Papp | apply getitem_trace; exact Pnil |].
  intros id st2.
  apply bind_trace; [exact Pnil | exact Papp | apply getitem_trace; exact Pnil |].
  intros cf st3.
  apply bind_trace; [exact Pnil | exact Papp | exact Pnil |].
  intros cf' st4.
  apply bind_trace; [exact Pnil | exact Papp | |].
  { apply (Hsub id "conversations"); [simpl; tauto|].
    unfold sync_conversations. rewrite get_url_sub_ticket.
    apply block_requests.
    - intros row' st'. apply sub_row_requests.
    - intros code content st'. now destruct (code =? 403). }
  intros _ st5.
  apply bind_trace; [exact Pnil | exact Papp | |].
  { apply (Hsub id "satisfaction_ratings"); [simpl; tauto|].
    unfold sync_satisfaction_ratings. rewrite get_url_sub_ticket.
    apply block_requests.
    - intros row' st'. apply ratings_row_requests.
    - intros code content st'. now destruct (code =? 403). }
  intros _ st6.
  apply bind_trace; [exact Pnil | exact Papp | |].
  { apply (Hsub id "time_entries"); [simpl; tauto|].
    unfold sync_time_entries. rewrite get_url_sub_ticket.
    apply block_requests.
    - intros row' st'. apply sub_row_requests.
    - intros code content st'. destruct (code =? 403); [reflexivity|].
      now destruct (code =? 404). }
  intros _ st7.
  apply bind_trace; [exact Pnil | exact Papp | apply getitem_trace; exact Pnil |].
  intros b st8.
  apply bind_trace; [exact Pnil | exact Papp | constructor |].
  intros _ st9.
  apply bind_trace; [exact Pnil | exact Papp | constructor |].
  intros _ st10. constructor.
Qed.

End PassRequests.

Lemma ticket_pass_requests
    (CONFIG : config) (request : string -> dict -> result (list value))
    (fuel : nat) (bookmark_property : string) (predefined_filter : option string)
    (STATE : dict) (r : string * dict) :
  In r (requests (trace (sync_tickets_by_filter CONFIG request fuel bookmark_property
                           predefined_filter STATE))) ->
  pass_request CONFIG bookmark_property
    (get_start CONFIG STATE (ticket_namespace predefined_filter)) predefined_filter r.
Proof.
  intros Hin.
  set (start := get_start CONFIG STATE (ticket_namespace predefined_filter)) in *.
  assert (H : Forall (pass_request CONFIG bookmark_property start predefined_filter)
                (requests (trace (sync_tickets_by_filter CONFIG request fuel
                                    bookmark_property predefined_filter STATE)))).
  { unfold sync_tickets_by_filter.
    rewrite trace_bind. cbn [read_state trace outcome final_state fst snd app].
    rewrite trace_bind. unfold lift at 1 2 3.
    cbn [trace outcome final_state fst snd app].
    destruct (get_url CONFIG "tickets" []) as [url|e|] eqn:Hurl;
      [|constructor|constructor].
    fold (ticket_namespace predefined_filter). fold start. clearbody start.
    unfold for_each. apply for_each_items_requests.
    - intros row st'. apply sync_ticket_requests.
    - apply Forall_forall. intros [u p] Hissued.
      destruct (gen_request_issued_query request fuel url _ u p Hissued)
        as (Hu & Hpp & Hpage & Hother).
      left. cbn [fst snd]. split; [now subst u|].
      unfold listing_query.
      rewrite !Hother by discriminate. unfold caller_param.
      split; [|split; [|split; [|split; [|split; [|split; [exact Hpp | exact Hpage]]]]]];
        destruct predefined_filter as [f|];
        try destruct (is_true_str (Some f)); reflexivity. }
  rewrite Forall_forall in H. exact (H r Hin).
Qed.

(** X16.  Every request of a pass over the tickets is either a page of the
    ticket listing, asked with [updated_since] set to the starting
    watermark of the pass, ascending order on the bookmark field, the
    inline expansions, the filter of the pass when it has one, and
    [per_page] = 100; or a page of one of the three sub-resources of a
    ticket, asked with the paging parameters alone. *)
Theorem sync_tickets_by_filter_requests
    (CONFIG : config) (request : string -> dict -> result (list value))
    (fuel : nat) (bookmark_property : string) (predefined_filter : option string)
    (STATE : dict) (r : string * dict) :
  In r (requests (trace (sync_tickets_by_filter CONFIG request fuel bookmark_property
                           predefined_filter STATE))) ->
  pass_request CONFIG bookmark_property
    (get_start CONFIG STATE (ticket_namespace predefined_filter)) predefined_filter r.
Proof. apply ticket_pass_requests. Qed.

Lemma sync_tickets_by_filter_requests_witness :
  pass_request example_config "updated_at"
    (get_start example_config [] (ticket_namespace (Some "spam"))) (Some "spam")
    ("https://acme.freshdesk.com/api/v2/tickets",
     [("updated_since", VStr "2020-01-01T00:00:00Z");
      ("order_by", VStr "updated_at"); ("order_type", VStr "asc");
      ("include", VStr "requester,company,stats,description");
      ("filter", VStr "spam"); ("per_page", VInt 100); ("page", VInt 1)]).
Proof.
  apply (sync_tickets_by_filter_requests example_config example_api 5 "updated_at"
           (Some "spam") []).
  simpl. left. reflexivity.
Defined.

(* ================================================================== *)
(** * Further properties: the state a run leaves *)
(* ================================================================== *)

Lemma replay_app a b st : replay (a ++ b) st = replay b (replay a st).
Proof. apply fold_left_app. Qed.

Lemma final_state_try_except (m : M unit) handler st :
  final_state (try_except_HTTPError m handler st) =
  match outcome (m st) with
  | Raise (HTTPError status content) =>
      final_state (handler status content (final_state (m st)))
  | _ => final_state (m st)
  end.
Proof.
  unfold try_except_HTTPError, outcome, final_state.
  destruct (m st) as [[[a|e|] st1] tr1]; simpl; auto.
  destruct e; simpl; auto.
  now destruct (handler status_code content st1) as [[r st2] tr2].
Qed.

Lemma tracks_bind {A B} (m : M A) (f : A -> M B) :
  tracks m -> (forall a, tracks (f a)) -> tracks (bind m f).
Proof.
  intros Hm Hf st. rewrite final_state_bind, trace_bind, replay_app, <- Hm.
  destruct (outcome (m st)) as [a|e|]; [apply Hf | reflexivity | reflexivity].
Qed.

Lemma tracks_try_except (m : M unit) handler :
  tracks m -> (forall status content, tracks (handler status content)) ->
  tracks (try_except_HTTPError m handler).
Proof.
  intros Hm Hh st. rewrite final_state_try_except, trace_try_except, replay_app, <- Hm.
  destruct (outcome (m st)) as [a|e|]; try reflexivity.
  destruct e; try reflexivity. apply Hh.
Qed.

Lemma tracks_lift {A} (r : result A) : tracks (lift r).
Proof. intros st. reflexivity. Qed.

Lemma tracks_ret {A} (a : A) : tracks (ret a).
Proof. intros st. reflexivity. Qed.

Lemma tracks_raise {A} e : tracks (@raise A e).
Proof. intros st. reflexivity. Qed.

Lemma tracks_emit e :
  match e with EvUpdateState _ _ => False | _ => True end -> tracks (emit e).
Proof. intros He st. destruct e; try reflexivity. elim He. Qed.

Lemma tracks_getitem d k : tracks (getitem d k).
Proof. intros st. unfold getitem. now destruct (dict_get d k). Qed.

Lemma tracks_as_dict row : tracks (as_dict row).
Proof. intros st. now destruct row. Qed.

Lemma tracks_read_state : tracks read_state.
Proof. intros st. reflexivity. Qed.

Lemma tracks_write_state : tracks write_state.
Proof. intros st. reflexivity. Qed.

Lemma tracks_do_update_state entity dt : tracks (do_update_state entity dt).
Proof. intros st. reflexivity. Qed.

Lemma tracks_for_each_items (body : value -> M unit) :
  (forall row, tracks (body row)) ->
  forall items fin, tracks (for_each_items items fin body).
Proof.
  intros Hbody. induction items as [|[u p|row] items IH]; intros fin; cbn [for_each_items].
  - apply tracks_lift.
  - apply tracks_bind; [now apply tracks_emit | intros _; apply IH].
  - apply tracks_bind; [apply Hbody | intros _; apply IH].
Qed.

Section Tracking.

Variable CONFIG : config.
Variable request : string -> dict -> result (list value).

Lemma tracks_sync_row entity bookmark start row :
  tracks (sync_row entity bookmark start row).
Proof.
  unfold sync_row.
  apply tracks_bind; [apply tracks_as_dict | intros d].
  apply tracks_bind; [apply tracks_getitem | intros b].
  apply tracks_bind; [apply tracks_lift | intros [|]]; [|apply tracks_ret].
  apply tracks_bind.
  - destruct (dict_mem d "custom_fields"); [|apply tracks_ret].
    apply tracks_bind; [apply tracks_getitem | intros cf].
    apply tracks_bind; [apply tracks_lift | intros cf']. apply tracks_ret.
  - intros d'. apply tracks_bind; [apply tracks_getitem | intros b'].
    apply tracks_bind; [apply tracks_do_update_state | intros _].
    now apply tracks_emit.
Qed.

Lemma tracks_sync_time_filtered fuel entity :
  tracks (sync_time_filtered CONFIG request fuel entity).
Proof.
  unfold sync_time_filtered.
  apply tracks_bind; [now apply tracks_emit | intros _].
  apply tracks_bind; [apply tracks_read_state | intros STATE].
  apply tracks_bind; [apply tracks_lift | intros url].
  apply tracks_bind; [|intros _; apply tracks_write_state].
  apply tracks_for_each_items. intros row. apply tracks_sync_row.
Qed.

Lemma tracks_sub_row stream bookmark start subrow :
  tracks (subrow <- as_dict subrow ;;
          b <- getitem subrow bookmark ;;
          keep <- lift (ge b start) ;;
          if keep : bool then write_record stream subrow else ret tt).
Proof.
  apply tracks_bind; [apply tracks_as_dict | intros d].
  apply tracks_bind; [apply tracks_getitem | intros b].
  apply tracks_bind; [apply tracks_lift | intros [|]];
    [now apply tracks_emit | apply tracks_ret].
Qed.

Lemma tracks_sync_conversations fuel bookmark start id :
  tracks (sync_conversations CONFIG request fuel bookmark start id).
Proof.
  unfold sync_conversations. apply tracks_try_except.
  - apply tracks_bind; [apply tracks_lift | intros url].
    apply tracks_for_each_items. intros row. apply tracks_sub_row.
  - intros status content. destruct (status =? 403); [apply tracks_ret | apply tracks_raise].
Qed.

Lemma tracks_sync_satisfaction_ratings fuel bookmark start id :
  tracks (sync_satisfaction_ratings CONFIG request fuel bookmark start id).
Proof.
  unfold sync_satisfaction_ratings. apply tracks_try_except.
  - apply tracks_bind; [apply tracks_lift | intros url].
    apply tracks_for_each_items. intros row.
    apply tracks_bind; [apply tracks_as_dict | intros d].
    apply tracks_bind; [apply tracks_getitem | intros r].
    apply tracks_bind; [apply tracks_lift | intros r'].
    apply tracks_bind; [apply tracks_getitem | intros b].
    apply tracks_bind; [apply tracks_lift | intros [|]];
      [now apply tracks_emit | apply tracks_ret].
  - intros status content. destruct (status =? 403); [apply tracks_ret | apply tracks_raise].
Qed.

Lemma tracks_sync_time_entries fuel bookmark start id :
  tracks (sync_time_entries CONFIG request fuel bookmark start id).
Proof.
  unfold sync_time_entries. apply tracks_try_except.
  - apply tracks_bind; [apply tracks_lift | intros url].
    apply tracks_for_each_items. intros row. apply tracks_sub_row.
  - intros status content. destruct (status =? 403); [apply tracks_ret|].
    destruct (status =? 404); [apply tracks_ret | apply tracks_raise].
Qed.

Lemma tracks_sync_ticket fuel bookmark start state_entity row :
  tracks (sync_ticket CONFIG request fuel bookmark start state_entity row).
Proof.
  unfold sync_ticket.
  apply tracks_bind; [apply tracks_as_dict | intros d].
  apply tracks_bind; [apply tracks_getitem | intros id].
  apply tracks_bind; [apply tracks_getitem | intros cf].
  apply tracks_bind; [apply tracks_lift | intros cf'].
  apply tracks_bind; [apply tracks_sync_conversations | intros _].
  apply tracks_bind; [apply tracks_sync_satisfaction_ratings | intros _].
  apply tracks_bind; [apply tracks_sync_time_entries | intros _].
  apply tracks_bind; [apply tracks_getitem | intros b].
  apply tracks_bind; [apply tracks_do_update_state | intros _].
  apply tracks_bind; [now apply tracks_emit | intros _].
  apply tracks_write_state.
Qed.

Lemma tracks_sync_tickets_by_filter fuel bookmark predefined_filter :
  tracks (sync_tickets_by_filter CONFIG request fuel bookmark predefined_filter).
Proof.
  unfold sync_tickets_by_filter.
  apply tracks_bind; [apply tracks_read_state | intros STATE].
  apply tracks_bind; [apply tracks_lift | intros url].
  apply tracks_for_each_items. intros row. apply tracks_sync_ticket.
Qed.

Lemma tracks_sync_tickets fuel : tracks (sync_tickets CONFIG request fuel).
Proof.
  unfold sync_tickets.
  apply tracks_bind; [now apply tracks_emit | intros _].
  apply tracks_bind; [now apply tracks_emit | intros _].
  apply tracks_bind; [now apply tracks_emit | intros _].
  apply tracks_bind; [now apply tracks_emit | intros _].
  apply tracks_bind; [apply tracks_sync_tickets_by_filter | intros _].
  apply tracks_bind; [apply tracks_sync_tickets_by_filter | intros _].
  apply tracks_sync_tickets_by_filter.
Qed.

Lemma tracks_when (b : bool) (m : M unit) : tracks m -> tracks (when b m).
Proof. intros Hm. destruct b; [exact Hm | apply tracks_ret]. Qed.

Lemma tracks_do_sync fuel : tracks (do_sync CONFIG request fuel).
Proof.
  unfold do_sync.
  apply tracks_bind; [apply tracks_lift | intros l].
  apply tracks_try_except; [|intros status content; apply tracks_raise].
  apply tracks_bind; [apply tracks_when, tracks_sync_tickets | intros _].
  apply tracks_bind; [apply tracks_when, tracks_sync_time_filtered | intros _].
  apply tracks_bind; [apply tracks_when, tracks_sync_time_filtered | intros _].
  apply tracks_bind; [apply tracks_when, tracks_sync_time_filtered | intros _].
  apply tracks_bind; [apply tracks_when, tracks_sync_time_filtered | intros _].
  apply tracks_when, tracks_sync_time_filtered.
Qed.

End Tracking.

(** The advances of another namespace aside, the state is kept. *)
Lemma replay_frame tr : forall st ns,
  advances ns tr = [] -> dict_get (replay tr st) ns = dict_get st ns.
Proof.
  induction tr as [|[u p|s|e v|s r|w] tr IH]; intros st ns H; cbn [replay fold_left];
    try (apply IH; exact H); [reflexivity|].
  cbn [advances] in H. destruct (String.eqb e ns) eqn:E; [discriminate|].
  apply String.eqb_neq in E.
  fold (replay tr (update_state st e v)). rewrite IH by exact H.
  now apply update_state_other.
Qed.

(** The state after a trace whose advances are each followed by the
    emission of the record advanced to. *)
Lemma advance_then_emit_replay entity stream bookmark tr :
  advance_then_emit entity stream bookmark tr ->
  forall st,
    (records_of stream tr = [] -> replay tr st = st) /\
    (forall rs r, records_of stream tr = (rs ++ [r])%list ->
       exists v, subscript r bookmark = Ok v /\ dict_get (replay tr st) entity = Some v).
Proof.
  induction 1 as [|v r tr Hv Htr IH|e tr He Htr IH]; intros st.
  - split; [reflexivity|]. intros [|r0 rs] r Hr; discriminate.
  - cbn [records_of]. rewrite String.eqb_refl.
    change (replay (EvUpdateState entity v :: EvWriteRecord stream r :: tr) st)
      with (replay tr (update_state st entity v)).
    destruct (IH (update_state st entity v)) as [IH0 IH1].
    split; [discriminate|].
    intros rs r0 Hr.
    destruct (records_of stream tr) as [|r1 recs] eqn:Hrecs.
    + destruct rs as [|r2 [|r3 rs]]; try discriminate.
      inversion Hr; subst r0. exists v. split; [exact Hv|].
      rewrite IH0 by reflexivity. apply update_state_stores.
    + destruct rs as [|r2 rs]; [discriminate|].
      inversion Hr as [[Hr2 Hrest]]. apply (IH1 rs r0). exact Hrest.
  - assert (Hrep : replay (e :: tr) st = replay tr st)
      by (destruct e; [reflexivity | reflexivity | elim He | reflexivity | reflexivity]).
    assert (Hrec : records_of stream (e :: tr) = records_of stream tr).
    { destruct e as [u p|s|e' v|s r|w]; try reflexivity.
      cbn [records_of]. apply String.eqb_neq in He. now rewrite He. }
    rewrite Hrep, Hrec. apply IH.
Qed.

Section Watermarks.

Variable CONFIG : config.
Variable request : string -> dict -> result (list value).

Lemma sync_tickets_advances fuel st ns :
  ~ In ns ["tickets"; "tickets_deleted"; "tickets_spam"] ->
  advances ns (trace (sync_tickets CONFIG request fuel st)) = [].
Proof.
  intros Hns.
  set (P := fun tr : list event => advances ns tr = []).
  assert (Pnil : P []) by reflexivity.
  assert (Papp : forall a b, P a -> P b -> P (a ++ b)%list).
  { intros a b Ha Hb. unfold P in *. now rewrite advances_app, Ha, Hb. }
  assert (Hpass : forall predefined_filter st',
            In (ticket_namespace predefined_filter)
               ["tickets"; "tickets_deleted"; "tickets_spam"] ->
            P (trace (sync_tickets_by_filter CONFIG request fuel "updated_at"
                        predefined_filter st'))).
  { intros predefined_filter st' Hin.
    apply (advance_then_emit_other (ticket_namespace predefined_filter) "tickets"
             "updated_at"); [apply sync_tickets_by_filter_trace|].
    intros ->. now apply Hns. }
  change (P (trace (sync_tickets CONFIG request fuel st))). unfold sync_tickets.
  apply bind_trace; [exact Pnil | exact Papp | reflexivity | intros _ st1].
  apply bind_trace; [exact Pnil | exact Papp | reflexivity | intros _ st2].
  apply bind_trace; [exact Pnil | exact Papp | reflexivity | intros _ st3].
  apply bind_trace; [exact Pnil | exact Papp | reflexivity | intros _ st4].
  apply bind_trace; [exact Pnil | exact Papp | apply Hpass; simpl; tauto | intros _ st5].
  apply bind_trace; [exact Pnil | exact Papp | apply Hpass; simpl; tauto | intros _ st6].
  apply Hpass; simpl; tauto.
Qed.

End Watermarks.

(** X18.  [do_sync] changes the watermarks of the selected streams only: a
    namespace whose stored value differs after the run is a selected flat
    entity, or one of the three namespaces of the tickets when the tickets
    are selected. *)
Theorem do_sync_changes_selected_watermarks_only
    (CONFIG : config) (request : string -> dict -> result (list value))
    (fuel : nat) (STATE : dict) (selected_streams_ : list string) (ns : string) :
  selected_streams CONFIG = Ok selected_streams_ ->
  dict_get (final_state (do_sync CONFIG request fuel STATE)) ns <> dict_get STATE ns ->
  (In ns selected_streams_ /\
   In ns ["contacts"; "agents"; "roles"; "groups"; "companies"]) \/
  (In "tickets" selected_streams_ /\
   In ns ["tickets"; "tickets_deleted"; "tickets_spam"]).
Proof.
  intros Hsel Hchanged.
  set (flat := ["contacts"; "agents"; "roles"; "groups"; "companies"]) in *.
  set (tick := ["tickets"; "tickets_deleted"; "tickets_spam"]) in *.
  assert (Hdec : (In ns selected_streams_ /\ In ns flat) \/
                 (In "tickets" selected_streams_ /\ In ns tick) \/
                 ((In ns selected_streams_ -> ~ In ns flat) /\
                  (In "tickets" selected_streams_ -> ~ In ns tick))).
  { destruct (in_dec string_dec ns selected_streams_);
      destruct (in_dec string_dec ns flat);
      destruct (in_dec string_dec "tickets" selected_streams_);
      destruct (in_dec string_dec ns tick); tauto. }
  destruct Hdec as [H|[H|[Hf Ht]]]; [now left | now right |].
  exfalso. apply Hchanged.
  rewrite (tracks_do_sync CONFIG request fuel STATE). apply replay_frame.
  destruct (do_sync_run CONFIG request fuel STATE selected_streams_ Hsel)
    as (inner & Hinner & Htrace & _).
  rewrite Htrace. subst inner.
  set (P := fun tr : list event => advances ns tr = []).
  assert (Pnil : P []) by reflexivity.
  assert (Papp : forall a b, P a -> P b -> P (a ++ b)%list).
  { intros a b Ha Hb. unfold P in *. now rewrite advances_app, Ha, Hb. }
  assert (Hflat : forall entity st,
            In entity flat ->
            P (trace (when (existsb (String.eqb entity) selected_streams_)
                           (sync_time_filtered CONFIG request fuel entity) st))).
  { intros entity st Hin.
    destruct (existsb (String.eqb entity) selected_streams_) eqn:E; [|exact Pnil].
    apply existsb_exists in E. destruct E as (y & Hy & Hey).
    apply String.eqb_eq in Hey. subst y. cbn [when].
    apply (advance_then_emit_other entity entity "updated_at");
      [apply sync_time_filtered_trace|].
    intros ->. now apply Hf. }
  assert (Htickets : forall st,
            P (trace (when (existsb (String.eqb "tickets") selected_streams_)
                           (sync_tickets CONFIG request fuel) st))).
  { intros st.
    destruct (existsb (String.eqb "tickets") selected_streams_) eqn:E; [|exact Pnil].
    apply existsb_exists in E. destruct E as (y & Hy & Hey).
    apply String.eqb_eq in Hey. subst y. cbn [when].
    apply sync_tickets_advances. now apply Ht. }
  match goal with
  | |- advances ns (trace ?t) = [] => change (P (trace t))
  end.
  apply bind_trace; [exact Pnil | exact Papp | apply Htickets | intros _ st1].
  apply bind_trace; [exact Pnil | exact Papp | apply Hflat; simpl; tauto | intros _ st2].
  apply bind_trace; [exact Pnil | exact Papp | apply Hflat; simpl; tauto | intros _ st3].
  apply bind_trace; [exact Pnil | exact Papp | apply Hflat; simpl; tauto | intros _ st4].
  apply bind_trace; [exact Pnil | exact Papp | apply Hflat; simpl; tauto | intros _ st5].
  apply Hflat; simpl; tauto.
Qed.

Lemma do_sync_changes_selected_watermarks_only_witness :
  (In "roles" ["roles"] /\
   In "roles" ["contacts"; "agents"; "roles"; "groups"; "companies"]) \/
  (In "tickets" ["roles"] /\
   In "roles" ["tickets"; "tickets_deleted"; "tickets_spam"]).
Proof.
  apply (do_sync_changes_selected_watermarks_only (selecting ["roles"]) example_api 5 []
           ["roles"] "roles").
  - reflexivity.
  - vm_compute. discriminate.
Defined.

(* ================================================================== *)
(** * Further properties: the record of a ticket *)
(* ================================================================== *)

Lemma dict_get_notin (d : dict) (k : string) :
  ~ In k (keys d) -> dict_get d k = None.
Proof.
  induction d as [|[k' v] d IH]; intros Hk; cbn [dict_get]; [reflexivity|].
  destruct (String.eqb k k') eqn:E.
  - apply String.eqb_eq in E. subst k'. elim Hk. now left.
  - apply IH. intros Hin. apply Hk. now right.
Qed.

Lemma dict_get_pop_same (d : dict) (k : string) :
  NoDup (keys d) -> dict_get (dict_pop d k) k = None.
Proof.
  induction d as [|[k' v] d IH]; intros Hnd; cbn [dict_pop]; [reflexivity|].
  inversion Hnd as [|k0 ks Hnotin Hnd']; subst.
  destruct (String.eqb k k') eqn:E.
  - apply String.eqb_eq in E. subst k'. now apply dict_get_notin.
  - cbn [dict_get]. rewrite E. now apply IH.
Qed.

Lemma Forall2_In_r {X Y} (Q : X -> Y -> Prop) l l' y :
  Forall2 Q l l' -> In y l' -> exists x, In x l /\ Q x y.
Proof.
  induction 1 as [|a b l l' Hab _ IH]; intros Hin; [elim Hin|].
  destruct Hin as [<-|Hin].
  - exists a. split; [now left | exact Hab].
  - destruct (IH Hin) as (x & Hx & Hq). exists x. split; [now right | exact Hq].
Qed.

Lemma In_firstn {X} (n : nat) (l : list X) (x : X) : In x (firstn n l) -> In x l.
Proof.
  revert n. induction l as [|a l IH]; intros [|n] Hin; try now elim Hin.
  destruct Hin as [->|Hin]; [now left | right; now apply (IH n)].
Qed.

Lemma ticket_record_fields d d' :
  ticket_record d = Some d' ->
  (NoDup (keys d) -> dict_get d' "attachments" = None) /\
  (exists items,
      dict_get d "custom_fields" = Some (VDict items) /\
      dict_get d' "custom_fields" =
        Some (VList (transform_items items "name" "value" true))) /\
  (forall k, k <> "attachments" -> k <> "custom_fields" -> dict_get d' k = dict_get d k).
Proof.
  unfold ticket_record. rewrite dict_get_pop_other by discriminate.
  destruct (dict_get d "custom_fields") as [cf|] eqn:Hcf; [|discriminate].
  destruct cf as [| | | |l|items]; try discriminate.
  cbn [transform_dict]. intros H. inversion H; subst d'. clear H.
  split; [|split].
  - intros Hnd. rewrite dict_get_set_other by discriminate.
    now apply dict_get_pop_same.
  - exists items. split; [reflexivity | apply dict_get_set_same].
  - intros k Ha Hc. rewrite dict_get_set_other by congruence.
    apply dict_get_pop_other. congruence.
Qed.

(** X19.  Every record a pass emits under "tickets" is a ticket of the
    listing in which the custom fields, a map in the listing, have become
    the list of their entries with the values as lower-case strings,
    every other field but the attachments is as the upstream sent it, and
    the attachments are gone (a row holding each key once). *)
Theorem sync_tickets_by_filter_record_fields
    (CONFIG : config) (request : string -> dict -> result (list value))
    (fuel : nat) (bookmark_property : string) (predefined_filter : option string)
    (STATE : dict) (r : value) :
  let x := sync_tickets_by_filter CONFIG request fuel bookmark_property
             predefined_filter STATE in
  let listing := tickets_listing CONFIG request fuel bookmark_property
                   predefined_filter STATE in
  In r (records_of "tickets" (trace x)) ->
  exists d d',
    In (VDict d) listing /\ r = VDict d' /\
    (NoDup (keys d) -> dict_get d' "attachments" = None) /\
    (exists items,
        dict_get d "custom_fields" = Some (VDict items) /\
        dict_get d' "custom_fields" =
          Some (VList (transform_items items "name" "value" true))) /\
    (forall k, k <> "attachments" -> k <> "custom_fields" ->
       dict_get d' k = dict_get d k).
Proof.
  cbv zeta. intros Hin.
  destruct (sync_tickets_by_filter_records CONFIG request fuel bookmark_property
              predefined_filter STATE) as (n & Hrec & _).
  destruct (Forall2_In_r _ _ _ r Hrec Hin) as (row & Hrow & d & d' & -> & Hd & ->).
  exists d, d'. split; [|split; [reflexivity|]].
  - now apply (In_firstn n).
  - now apply ticket_record_fields.
Qed.

Lemma sync_tickets_by_filter_record_fields_witness :
  exists d d',
    In (VDict d) (tickets_listing example_config example_api 5 "updated_at" None []) /\
    hd VNone (records_of "tickets"
                (trace (sync_tickets_by_filter example_config example_api 5 "updated_at"
                          None []))) = VDict d' /\
    (NoDup (keys d) -> dict_get d' "attachments" = None) /\
    (exists items,
        dict_get d "custom_fields" = Some (VDict items) /\
        dict_get d' "custom_fields" =
          Some (VList (transform_items items "name" "value" true))) /\
    (forall k, k <> "attachments" -> k <> "custom_fields" ->
       dict_get d' k = dict_get d k).
Proof.
  apply (sync_tickets_by_filter_record_fields example_config example_api 5 "updated_at"
           None []).
  vm_compute. left. reflexivity.
Defined.

(* ================================================================== *)
(** * Further properties: the requests of a run *)
(* ================================================================== *)

Lemma get_url_flat CONFIG entity kwargs :
  In entity stream_order ->
  get_url CONFIG entity kwargs = Ok (BASE_URL (domain CONFIG) ++ "/api/v2/" ++ entity).
Proof.
  intros [<-|[<-|[<-|[<-|[<-|[<-|[]]]]]]]; unfold get_url; cbn; reflexivity.
Qed.

Lemma paging_only_per_page p : paging_only p -> dict_get p "per_page" = Some (VInt 100).
Proof. intros [n ->]. reflexivity. Qed.

Section RunRequests.

Variable CONFIG : config.
Variable request : string -> dict -> result (list value).

Lemma sync_time_filtered_run_requests fuel entity st :
  In entity stream_order ->
  Forall (run_request CONFIG)
    (requests (trace (sync_time_filtered CONFIG request fuel entity st))).
Proof.
  intros Hin. apply Forall_forall. intros [u p] Hr.
  destruct (flat_sync_requests CONFIG request fuel entity st u p Hr)
    as [Hu Hp].
  split; [now apply paging_only_per_page|].
  left. exists entity. split; [exact Hin|]. cbn [fst].
  rewrite (get_url_flat CONFIG entity [] Hin) in Hu. now inversion Hu.
Qed.

Lemma sync_tickets_by_filter_run_requests fuel predefined_filter st :
  Forall (run_request CONFIG)
    (requests (trace (sync_tickets_by_filter CONFIG request fuel "updated_at"
                        predefined_filter st))).
Proof.
  apply Forall_forall. intros r Hr.
  destruct (ticket_pass_requests CONFIG request fuel "updated_at"
              predefined_filter st r Hr)
    as [[Hu Hq]|(id & entity & Hin & Hu & Hp)].
  - split; [apply Hq|]. left. exists "tickets". split; [now left|].
    rewrite (get_url_flat CONFIG "tickets" []) in Hu by now left. now inversion Hu.
  - split; [now apply paging_only_per_page|]. right. now exists id, entity.
Qed.

End RunRequests.

(** X20.  Every request of a run asks for pages of 100 rows from the
    configured domain: its URL is the listing of one of the six entities
    under [/api/v2/] of that domain, or a sub-resource of a ticket there. *)
Theorem do_sync_requests
    (CONFIG : config) (request : string -> dict -> result (list value))
    (fuel : nat) (STATE : dict) (r : string * dict) :
  In r (requests (trace (do_sync CONFIG request fuel STATE))) ->
  run_request CONFIG r.
Proof.
  destruct (selected_streams CONFIG) as [l|e|] eqn:Hsel.
  - destruct (do_sync_run CONFIG request fuel STATE l Hsel)
      as (inner & Hinner & Htrace & _).
    rewrite Htrace. subst inner.
    set (P := fun tr : list event => Forall (run_request CONFIG) (requests tr)).
    assert (Pnil : P []) by constructor.
    assert (Papp : forall a b, P a -> P b -> P (a ++ b)%list).
    { intros a b Ha Hb. unfold P. rewrite requests_app. apply Forall_app. now split. }
    assert (Hflat : forall entity st,
              In entity stream_order ->
              P (trace (when (existsb (String.eqb entity) l)
                             (sync_time_filtered CONFIG request fuel entity) st))).
    { intros entity st Hin. destruct (existsb (String.eqb entity) l); [|exact Pnil].
      now apply sync_time_filtered_run_requests. }
    assert (Htickets : forall st,
              P (trace (when (existsb (String.eqb "tickets") l)
                             (sync_tickets CONFIG request fuel) st))).
    { intros st. destruct (existsb (String.eqb "tickets") l); [|exact Pnil].
      cbn [when]. unfold sync_tickets.
      apply bind_trace; [exact Pnil | exact Papp | constructor | intros _ st1].
      apply bind_trace; [exact Pnil | exact Papp | constructor | intros _ st2].
      apply bind_trace; [exact Pnil | exact Papp | constructor | intros _ st3].
      apply bind_trace; [exact Pnil | exact Papp | constructor | intros _ st4].
      apply bind_trace;
        [exact Pnil | exact Papp | apply sync_tickets_by_filter_run_requests
        | intros _ st5].
      apply bind_trace;
        [exact Pnil | exact Papp | apply sync_tickets_by_filter_run_requests
        | intros _ st6].
      apply sync_tickets_by_filter_run_requests. }
    intros Hr.
    assert (H : P (trace
              ((when (existsb (String.eqb "tickets") l) (sync_tickets CONFIG request fuel) ;;
                when (existsb (String.eqb "contacts") l)
                     (sync_time_filtered CONFIG request fuel "contacts") ;;
                when (existsb (String.eqb "agents") l)
                     (sync_time_filtered CONFIG request fuel "agents") ;;
                when (existsb (String.eqb "roles") l)
                     (sync_time_filtered CONFIG request fuel "roles") ;;
                when (existsb (String.eqb "groups") l)
                     (sync_time_filtered CONFIG request fuel "groups") ;;
                when (existsb (String.eqb "companies") l)
                     (sync_time_filtered CONFIG request fuel "companies")) STATE))).
    { apply bind_trace; [exact Pnil | exact Papp | apply Htickets | intros _ st1].
      apply bind_trace;
        [exact Pnil | exact Papp | apply Hflat; simpl; tauto | intros _ st2].
      apply bind_trace;
        [exact Pnil | exact Papp | apply Hflat; simpl; tauto | intros _ st3].
      apply bind_trace;
        [exact Pnil | exact Papp | apply Hflat; simpl; tauto | intros _ st4].
      apply bind_trace;
        [exact Pnil | exact Papp | apply Hflat; simpl; tauto | intros _ st5].
      apply Hflat; simpl; tauto. }
    unfold P in H. rewrite Forall_forall in H. now apply H.
  - unfold do_sync. rewrite trace_bind. unfold lift at 1 2. rewrite Hsel.
    cbn [trace outcome final_state fst snd app requests]. intros [].
  - unfold do_sync. rewrite trace_bind. unfold lift at 1 2. rewrite Hsel.
    cbn [trace outcome final_state fst snd app requests]. intros [].
Qed.

Lemma do_sync_requests_witness :
  run_request (selecting ["roles"])
    ("https://acme.freshdesk.com/api/v2/roles", [("per_page", VInt 100); ("page", VInt 1)]).
Proof.
  apply (do_sync_requests (selecting ["roles"]) example_api 5 []).
  vm_compute. left. reflexivity.
Defined.

(* ================================================================== *)
(** * Further properties: custom fields that are not a map *)
(* ================================================================== *)

Lemma transform_dict_not_a_map cf kk vk fs :
  (forall items, cf <> VDict items) -> transform_dict cf kk vk fs = Raise AttributeError.
Proof. intros H. destruct cf; try reflexivity. now elim (H d). Qed.

Lemma Forall2_In_l {X Y} (Q : X -> Y -> Prop) l l' x :
  Forall2 Q l l' -> In x l -> exists y, In y l' /\ Q x y.
Proof.
  induction 1 as [|a b l l' Hab _ IH]; intros Hin; [elim Hin|].
  destruct Hin as [<-|Hin].
  - exists b. split; [now left | exact Hab].
  - destruct (IH Hin) as (y & Hy & Hq). exists y. split; [now right | exact Hq].
Qed.

(** X21.  Custom fields that are present but are not a map (a [null], a
    list, a string) make the sync fail with [AttributeError]: the body of
    either loop raises it before it advances the watermark or emits
    anything, a flat sync whose listing holds such a row among those it
    keeps does not end normally and writes no state, and a pass over the
    tickets whose listing holds such a ticket does not end normally. *)
Theorem custom_fields_not_a_map
    (CONFIG : config) (request : string -> dict -> result (list value))
    (fuel : nat) (STATE : dict) (custom_fields : value) :
  (forall items, custom_fields <> VDict items) ->
  (forall bookmark_property start state_entity d id st,
     dict_get d "id" = Some id ->
     dict_get d "custom_fields" = Some custom_fields ->
     sync_ticket CONFIG request fuel bookmark_property start state_entity (VDict d) st =
       (Raise AttributeError, st, [])) /\
  (forall entity start d v st,
     dict_get d "updated_at" = Some v ->
     ge v start = Ok true ->
     dict_get d "custom_fields" = Some custom_fields ->
     sync_row entity "updated_at" start (VDict d) st = (Raise AttributeError, st, [])) /\
  (forall entity n d v,
     let x := sync_time_filtered CONFIG request fuel entity STATE in
     nth_error (flat_listing CONFIG request fuel entity) n = Some (VDict d) ->
     dict_get d "updated_at" = Some v ->
     ge v (get_start CONFIG STATE entity) = Ok true ->
     dict_get d "custom_fields" = Some custom_fields ->
     outcome x <> Ok tt /\ state_writes (trace x) = []) /\
  (forall bookmark_property predefined_filter n d,
     nth_error (tickets_listing CONFIG request fuel bookmark_property predefined_filter
                  STATE) n = Some (VDict d) ->
     dict_get d "custom_fields" = Some custom_fields ->
     outcome (sync_tickets_by_filter CONFIG request fuel bookmark_property
                predefined_filter STATE) <> Ok tt).
Proof.
  intros Hcf. split; [|split; [|split]].
  - intros bookmark_property start state_entity d id st Hid Hd.
    unfold sync_ticket. run_py. rewrite Hid.
    rewrite dict_get_pop_other by discriminate. rewrite Hd.
    now rewrite (transform_dict_not_a_map custom_fields "name" "value" true Hcf).
  - intros entity start d v st Hv Hge Hd.
    rewrite sync_row_run, Hv, Hge, Hd.
    now rewrite (transform_dict_not_a_map custom_fields "name" "value" true Hcf).
  - intros entity n d v. cbv zeta. intros Hn Hv Hge Hd.
    assert (Hno : outcome (sync_time_filtered CONFIG request fuel entity STATE) <> Ok tt).
    { intros Ho.
      destruct (flat_sync_kept_rows CONFIG request fuel entity STATE Ho) as [Hrec _].
      assert (Hin : In (VDict d)
                      (filter (passes "updated_at" (get_start CONFIG STATE entity))
                              (flat_listing CONFIG request fuel entity))).
      { apply filter_In. split; [exact (nth_error_In _ _ Hn)|].
        unfold passes. cbn [subscript]. now rewrite Hv, Hge. }
      destruct (Forall2_In_l _ _ _ _ Hrec Hin) as (r & _ & d0 & Hd0 & Hr).
      inversion Hd0; subst d0. rewrite Hd in Hr. destruct Hr as (l & Hl & _).
      rewrite (transform_dict_not_a_map custom_fields "name" "value" true Hcf) in Hl.
      discriminate. }
    split; [exact Hno|].
    destruct (flat_sync_state_writes CONFIG request fuel entity STATE) as [Hws _].
    rewrite Hws.
    destruct (outcome (sync_time_filtered CONFIG request fuel entity STATE)) as [[]|e|];
      [now elim Hno | reflexivity | reflexivity].
  - intros bookmark_property predefined_filter n d Hn Hd Ho.
    destruct (sync_tickets_by_filter_records CONFIG request fuel bookmark_property
                predefined_filter STATE) as (m & Hm & Hlen).
    cbv zeta in *. rewrite (Hlen Ho), firstn_all in Hm.
    destruct (Forall2_In_l _ _ _ _ Hm (nth_error_In _ _ Hn))
      as (r & _ & d0 & d' & Hd0 & Hrec & _).
    inversion Hd0; subst d0.
    unfold ticket_record in Hrec. rewrite dict_get_pop_other in Hrec by discriminate.
    rewrite Hd in Hrec.
    rewrite (transform_dict_not_a_map custom_fields "name" "value" true Hcf) in Hrec.
    discriminate.
Qed.

Lemma custom_fields_not_a_map_witness :
  sync_row "contacts" "updated_at" (VStr "2020-01-01T00:00:00Z")
    (VDict [("id", VInt 3); ("updated_at", VStr "2021-01-01T00:00:00Z");
            ("custom_fields", VNone)]) [] =
  (Raise AttributeError, [], []).
Proof.
  apply (proj1 (proj2 (custom_fields_not_a_map example_config example_api 5 [] VNone
                         ltac:(discriminate)))
           "contacts" (VStr "2020-01-01T00:00:00Z")
           [("id", VInt 3); ("updated_at", VStr "2021-01-01T00:00:00Z");
            ("custom_fields", VNone)]
           (VStr "2021-01-01T00:00:00Z") []); reflexivity.
Defined.

(* ================================================================== *)
(** * Further properties: satisfaction ratings *)
(* ================================================================== *)

Section Ratings.

Variable CONFIG : config.
Variable request : string -> dict -> result (list value).

(** The body of the loop over the satisfaction ratings, case by case. *)
Lemma ratings_row_run bookmark start subrow st :
  bookmark <> "ratings" ->
  (subrow <- as_dict subrow ;;
   ratings <- getitem subrow "ratings" ;;
   ratings <- lift (transform_dict ratings "question" "value" false) ;;
   let subrow := dict_set subrow "ratings" ratings in
   b <- getitem subrow bookmark ;;
   keep <- lift (ge b start) ;;
   if keep : bool then write_record "satisfaction_ratings" subrow else ret tt) st =
  match subrow with
  | VDict d =>
      match dict_get d "ratings" with
      | Some ratings =>
          match transform_dict ratings "question" "value" false with
          | Ok l =>
              match dict_get d bookmark with
              | Some b =>
                  match ge b start with
                  | Ok true =>
                      (Ok tt, st,
                       [EvWriteRecord "satisfaction_ratings"
                          (VDict (dict_set d "ratings" l))])
                  | Ok false => (Ok tt, st, [])
                  | Raise e => (Raise e, st, [])
                  | Fuel => (Fuel, st, [])
                  end
              | None => (Raise (KeyError bookmark), st, [])
              end
          | Raise e => (Raise e, st, [])
          | Fuel => (Fuel, st, [])
          end
      | None => (Raise (KeyError "ratings"), st, [])
      end
  | _ => (Raise TypeError, st, [])
  end.
Proof.
  intros Hne. destruct subrow as [| | | |l|d]; try reflexivity.
  run_py. destruct (dict_get d "ratings") as [r|]; [|reflexivity].
  destruct (transform_dict r "question" "value" false) as [l|e|]; try reflexivity.
  rewrite dict_get_set_other by congruence.
  destruct (dict_get d bookmark) as [b|]; [|reflexivity].
  now destruct (ge b start) as [[|]|e|].
Qed.

(** A loop over the satisfaction ratings that ends normally, or with an
    [HTTPError], went through rows that all hold a map of ratings, emitted
    those that pass the comparison, their ratings as a list, and left the
    state alone. *)
Lemma for_each_items_ratings bookmark start :
  bookmark <> "ratings" ->
  forall items fin st,
    let x := for_each_items items fin
               (fun subrow =>
                  subrow <- as_dict subrow ;;
                  ratings <- getitem subrow "ratings" ;;
                  ratings <- lift (transform_dict ratings "question" "value" false) ;;
                  let subrow := dict_set subrow "ratings" ratings in
                  b <- getitem subrow bookmark ;;
                  keep <- lift (ge b start) ;;
                  if keep : bool then write_record "satisfaction_ratings" subrow
                  else ret tt) st in
    final_state x = st /\
    (outcome x = Ok tt \/ (exists code content, outcome x = Raise (HTTPError code content)) ->
     Forall (fun row => exists d d', row = VDict d /\ rating_record d = Some d')
            (yielded items) /\
     Forall2 rating_emitted_as (filter (passes bookmark start) (yielded items))
             (records_of "satisfaction_ratings" (trace x))).
Proof.
  intros Hne.
  induction items as [|[u p|row] items IH]; intros fin st; cbv zeta;
    cbn [for_each_items yielded].
  - split; [reflexivity|]. intros _. split; constructor.
  - rewrite trace_bind, outcome_bind, final_state_bind.
    cbn [emit trace outcome final_state fst snd app records_of]. apply IH.
  - rewrite trace_bind, outcome_bind, final_state_bind, records_of_app.
    pose proof (ratings_row_run bookmark start row st Hne) as Hrun.
    cbv zeta in Hrun. rewrite Hrun. clear Hrun.
    destruct row as [| | | |l|d];
      try (cbn [trace outcome final_state fst snd];
           split; [reflexivity | intros [H|(c0 & s0 & H)]; discriminate H]).
    destruct (dict_get d "ratings") as [r|] eqn:Hr;
      [|cbn [trace outcome final_state fst snd];
        split; [reflexivity | intros [H|(c0 & s0 & H)]; discriminate H]].
    destruct r as [| | | |l|items'];
      try (cbn [transform_dict trace outcome final_state fst snd];
           split; [reflexivity | intros [H|(c0 & s0 & H)]; discriminate H]).
    cbn [transform_dict].
    assert (Hrec : rating_record d =
                   Some (dict_set d "ratings"
                           (VList (transform_items items' "question" "value" false))))
      by (unfold rating_record; now rewrite Hr).
    destruct (dict_get d bookmark) as [b|] eqn:Hb;
      [|cbn [trace outcome final_state fst snd];
        split; [reflexivity | intros [H|(c0 & s0 & H)]; discriminate H]].
    destruct (ge b start) as [[|]|e|] eqn:Hge.
    + assert (Hp : passes bookmark start (VDict d) = true)
        by (unfold passes; simpl; now rewrite Hb, Hge).
      cbn [trace outcome final_state fst snd records_of app filter].
      rewrite String.eqb_refl, Hp.
      destruct (IH fin st) as [Hst Hok]. split; [exact Hst|].
      intros Ho. destruct (Hok Ho) as [Hall Hem]. cbn [app]. split.
      * constructor; [|exact Hall].
        eexists d, _. split; [reflexivity | exact Hrec].
      * constructor; [|exact Hem].
        eexists d, _. split; [reflexivity | split; [exact Hrec | reflexivity]].
    + assert (Hp : passes bookmark start (VDict d) = false)
        by (unfold passes; simpl; now rewrite Hb, Hge).
      cbn [trace outcome final_state fst snd records_of app filter].
      rewrite Hp.
      destruct (IH fin st) as [Hst Hok]. split; [exact Hst|].
      intros Ho. destruct (Hok Ho) as [Hall Hem]. split; [|exact Hem].
      constructor; [|exact Hall].
      eexists d, _. split; [reflexivity | exact Hrec].
    + apply ge_raises in Hge. subst e.
      cbn [trace outcome final_state fst snd].
      split; [reflexivity | intros [H|(c0 & s0 & H)]; discriminate H].
    + now apply ge_ends in Hge.
Qed.

Lemma sync_satisfaction_ratings_emits fuel bookmark start id st :
  bookmark <> "ratings" ->
  let x := sync_satisfaction_ratings CONFIG request fuel bookmark start id st in
  let rows := yielded (fst (gen_request request fuel
                              (sub_url CONFIG id "satisfaction_ratings") None)) in
  final_state x = st /\
  (outcome x = Ok tt ->
   Forall (fun row => exists d d', row = VDict d /\ rating_record d = Some d') rows /\
   Forall2 rating_emitted_as (filter (passes bookmark start) rows)
     (records_of "satisfaction_ratings" (trace x))).
Proof.
  intros Hne. cbv zeta. unfold sync_satisfaction_ratings. rewrite get_url_sub_ticket.
  set (g := gen_request request fuel (sub_url CONFIG id "satisfaction_ratings") None).
  destruct (for_each_items_ratings bookmark start Hne (fst g) (snd g) st)
    as [Hst Hrec]. cbv zeta in Hst, Hrec.
  unfold try_except_HTTPError, bind, lift, for_each, trace, outcome, final_state in *.
  fold g.
  destruct (for_each_items (fst g) (snd g) _ st) as [[[[]|e|] st1] tr1];
    cbn [fst snd] in *.
  - cbn [app]. split; [exact Hst|]. intros _. apply Hrec. now left.
  - destruct e as [k| | | |code content| |c|];
      try (cbn [fst snd app]; split; [exact Hst | discriminate]).
    destruct (code =? 403); cbn [ret raise fst snd app]; rewrite !app_nil_r.
    + split; [exact Hst|]. intros _. apply Hrec. right. now exists code, content.
    + split; [exact Hst | discriminate].
  - cbn [app]. split; [exact Hst | discriminate].
Qed.

End Ratings.

(** X22.  When the block of the satisfaction ratings of a ticket ends
    normally (also after a recovered 403), every row its fetch yielded
    holds a map under [ratings], and it has emitted, in order, exactly the
    rows that pass the comparison with the starting watermark, their
    ratings turned into the list of their [question]/[value] entries with
    the values as they are, and has left the state alone: a rating without
    a map of ratings makes the block fail, whatever its bookmark. *)
Theorem satisfaction_ratings_emits_kept_rows
    (CONFIG : config) (request : string -> dict -> result (list value))
    (fuel : nat) (bookmark_property : string) (start id : value) (STATE : dict) :
  bookmark_property <> "ratings" ->
  let s := sync_satisfaction_ratings CONFIG request fuel bookmark_property start id
             STATE in
  let rows := yielded (fst (gen_request request fuel
                              (sub_url CONFIG id "satisfaction_ratings") None)) in
  final_state s = STATE /\
  (outcome s = Ok tt ->
   Forall2 rating_emitted_as (filter (passes bookmark_property start) rows)
     (records_of "satisfaction_ratings" (trace s))) /\
  (forall n d,
     nth_error rows n = Some (VDict d) ->
     (forall items, dict_get d "ratings" <> Some (VDict items)) ->
     outcome s <> Ok tt).
Proof.
  intros Hne. cbv zeta.
  destruct (sync_satisfaction_ratings_emits CONFIG request fuel bookmark_property start id
              STATE Hne) as [Hst Hok]. cbv zeta in Hok.
  split; [exact Hst | split].
  - intros Ho. now destruct (Hok Ho).
  - intros n d Hn Hd Ho. destruct (Hok Ho) as [Hall _].
    rewrite Forall_forall in Hall.
    destruct (Hall (VDict d) (nth_error_In _ _ Hn)) as (d0 & d' & Hd0 & Hrec).
    inversion Hd0; subst d0. unfold rating_record in Hrec.
    destruct (dict_get d "ratings") as [[| | | |l|items]|]; try discriminate.
    now elim (Hd items).
Qed.

Lemma satisfaction_ratings_emits_kept_rows_witness :
  Forall2 rating_emitted_as
    (filter (passes "updated_at" (VStr "2020-01-01T00:00:00Z")) [rating_new; rating_old])
    (records_of "satisfaction_ratings"
       (trace (sync_satisfaction_ratings example_config surveyed_api 5 "updated_at"
                 (VStr "2020-01-01T00:00:00Z") (VInt 7) []))) /\
  records_of "satisfaction_ratings"
    (trace (sync_satisfaction_ratings example_config surveyed_api 5 "updated_at"
              (VStr "2020-01-01T00:00:00Z") (VInt 7) [])) =
    [VDict [("id", VInt 7000);
            ("ratings",
             VList [VDict [("question", VStr "default_question"); ("value", VInt 103)];
                    VDict [("question", VStr "question_2"); ("value", VInt 100)]]);
            ("updated_at", VStr "2021-03-01T00:00:00Z")]].
Proof.
  split.
  - apply (proj1 (proj2 (satisfaction_ratings_emits_kept_rows example_config surveyed_api 5
                           "updated_at" (VStr "2020-01-01T00:00:00Z") (VInt 7) []
                           ltac:(discriminate))));
      reflexivity.
  - reflexivity.
Defined.

(* ================================================================== *)
(** * Refusals of the upstream *)
(* ================================================================== *)

Lemma append_inj_l (a x y : string) : a ++ x = a ++ y -> x = y.
Proof.
  induction a as [|c a IH]; cbn [append]; intros H; [exact H|].
  inversion H. now apply IH.
Qed.

Lemma list_ascii_of_string_app (a b : string) :
  list_ascii_of_string (a ++ b) =
  (list_ascii_of_string a ++ list_ascii_of_string b)%list.
Proof. induction a as [|c a IH]; cbn; [reflexivity | now rewrite IH]. Qed.

(** The URL of a sub-resource tells which sub-resource it is. *)
Lemma sub_url_entity CONFIG id id' entity entity' :
  In entity ["conversations"; "satisfaction_ratings"; "time_entries"] ->
  In entity' ["conversations"; "satisfaction_ratings"; "time_entries"] ->
  sub_url CONFIG id entity = sub_url CONFIG id' entity' ->
  entity = entity'.
Proof.
  intros Hin Hin' H. unfold sub_url in H.
  apply append_inj_l in H. apply (append_inj_l "/api/v2/tickets/") in H.
  apply (f_equal (fun s => rev (list_ascii_of_string s))) in H.
  rewrite !list_ascii_of_string_app, !rev_app_distr in H.
  destruct Hin as [<-|[<-|[<-|[]]]]; destruct Hin' as [<-|[<-|[<-|[]]]];
    try reflexivity; cbn in H; discriminate H.
Qed.

(** The URL of a listing is not the URL of a sub-resource. *)
Lemma listing_not_sub_url CONFIG entity id entity' :
  In entity stream_order ->
  BASE_URL (domain CONFIG) ++ "/api/v2/" ++ entity <> sub_url CONFIG id entity'.
Proof.
  intros Hin H. unfold sub_url in H. apply append_inj_l in H.
  destruct Hin as [<-|[<-|[<-|[<-|[<-|[<-|[]]]]]]]; cbn in H; discriminate H.
Qed.

Lemma not_recovered_sub_url CONFIG id entity code :
  In entity ["conversations"; "satisfaction_ratings"; "time_entries"] ->
  code <> 403 ->
  ~ (entity = "time_entries" /\ code = 404) ->
  ~ recovered CONFIG (sub_url CONFIG id entity) code.
Proof.
  intros Hin H403 H404 [[Hc _]|[Hc (id' & Hu)]]; [now apply H403|].
  apply H404. split; [|exact Hc].
  apply (sub_url_entity CONFIG id id' entity "time_entries" Hin); [simpl; tauto | exact Hu].
Qed.

Lemma not_recovered_listing CONFIG entity code :
  In entity stream_order ->
  ~ recovered CONFIG (BASE_URL (domain CONFIG) ++ "/api/v2/" ++ entity) code.
Proof.
  intros Hin [[_ (id & e & _ & Hu)]|[_ (id & Hu)]];
    now apply (listing_not_sub_url CONFIG entity) in Hu.
Qed.

Lemma yields_no_request (data : list value) pre u p post rest :
  (pre ++ GRequest u p :: post = map GYield data ++ rest)%list ->
  exists pre', rest = (pre' ++ GRequest u p :: post)%list.
Proof.
  revert pre. induction data as [|r data IH]; intros pre H; cbn [map app] in H.
  - now exists pre.
  - destruct pre as [|x pre]; cbn [app] in H; [discriminate H|].
    inversion H. now apply (IH pre).
Qed.

Lemma gen_request_loop_refusal_ends request url :
  forall fuel params page,
    refusal_ends request (fst (gen_request_loop request fuel url params page))
                 (snd (gen_request_loop request fuel url params page)).
Proof.
  induction fuel as [|fuel IH]; intros params page pre u p post e Hitems Hreq.
  - cbn in Hitems. destruct pre; discriminate Hitems.
  - destruct (request url (dict_set params "page" (VInt page))) as [data|e0|] eqn:Hpage.
    + destruct (Nat.eq_dec (List.length data) 100) as [Hlen|Hlen].
      * rewrite (gen_request_loop_full _ _ _ _ _ _ Hpage Hlen) in Hitems |- *.
        cbn [fst snd app] in Hitems |- *.
        destruct pre as [|x pre]; cbn [app] in Hitems.
        -- inversion Hitems; subst u p. congruence.
        -- inversion Hitems as [[Hx Hrest]]. symmetry in Hrest.
           destruct (yields_no_request data pre u p post _ Hrest) as (pre' & Hpre').
           apply (IH params (page + 1) pre' u p post e Hpre' Hreq).
      * rewrite (gen_request_loop_short _ _ _ _ _ _ Hpage Hlen) in Hitems |- *.
        cbn [fst snd] in Hitems |- *.
        destruct pre as [|x pre]; cbn [app] in Hitems.
        -- inversion Hitems; subst u p. congruence.
        -- inversion Hitems as [[Hx Hrest]]. symmetry in Hrest.
           rewrite <- (app_nil_r (map GYield data)) in Hrest.
           destruct (yields_no_request data pre u p post _ Hrest) as (pre' & Hpre').
           destruct pre'; discriminate Hpre'.
    + rewrite (gen_request_loop_raise _ _ _ _ _ _ Hpage) in Hitems |- *.
      cbn [fst snd] in Hitems |- *.
      destruct pre as [|x pre]; cbn [app] in Hitems.
      * inversion Hitems; subst u p post. split; [reflexivity | congruence].
      * inversion Hitems as [[Hx Hrest]]. destruct pre; discriminate Hrest.
    + cbn [gen_request_loop] in Hitems. rewrite Hpage in Hitems. cbn [fst] in Hitems.
      destruct pre as [|x pre]; cbn [app] in Hitems.
      * inversion Hitems; subst u p. congruence.
      * inversion Hitems as [[Hx Hrest]]. destruct pre; discriminate Hrest.
Qed.

Lemma gen_request_refusal_ends request fuel url params :
  refusal_ends request (fst (gen_request request fuel url params))
               (snd (gen_request request fuel url params)).
Proof. unfold gen_request. apply gen_request_loop_refusal_ends. Qed.

Section Refusals.

Variable CONFIG : config.
Variable request : string -> dict -> result (list value).

Lemma refusal_fatal_quiet {A} (x : result A * dict * list event) :
  requests (trace x) = [] -> refusal_fatal CONFIG request x.
Proof. intros H u p code content Hin. rewrite H in Hin. elim Hin. Qed.

Lemma refusal_fatal_bind {A B} (m : M A) (f : A -> M B) st :
  refusal_fatal CONFIG request (m st) ->
  (forall a st', refusal_fatal CONFIG request (f a st')) ->
  refusal_fatal CONFIG request (bind m f st).
Proof.
  intros Hm Hf u p code content Hin Hreq Hnr.
  rewrite trace_bind, requests_app in Hin. rewrite outcome_bind.
  apply in_app_or in Hin. destruct Hin as [Hin|Hin].
  - now rewrite (Hm u p code content Hin Hreq Hnr).
  - destruct (outcome (m st)) as [a|e|]; [|elim Hin|elim Hin].
    now apply (Hf a _ u p code content).
Qed.

Lemma refusal_fatal_for_each_items (body : value -> M unit) :
  (forall row st, refusal_fatal CONFIG request (body row st)) ->
  forall items fin st,
    refusal_ends request items fin ->
    refusal_fatal CONFIG request (for_each_items items fin body st).
Proof.
  intros Hbody. induction items as [|[u0 p0|row] items IH]; intros fin st Hends;
    cbn [for_each_items].
  - now apply refusal_fatal_quiet.
  - assert (Hends' : refusal_ends request items fin).
    { intros pre u p post e Hitems. apply (Hends (GRequest u0 p0 :: pre)).
      now rewrite Hitems. }
    intros u p code content Hin Hreq Hnr.
    rewrite trace_bind in Hin. rewrite outcome_bind.
    cbn [emit trace outcome final_state fst snd app requests] in *.
    destruct Hin as [Heq|Hin].
    + inversion Heq; subst u0 p0.
      destruct (Hends [] u p items _ eq_refl Hreq) as [-> ->]. reflexivity.
    + now apply (IH fin st Hends' u p code content).
  - assert (Hends' : refusal_ends request items fin).
    { intros pre u p post e Hitems. apply (Hends (GYield row :: pre)).
      now rewrite Hitems. }
    apply refusal_fatal_bind; [apply Hbody|]. intros _ st'. now apply IH.
Qed.

(** A try block around the loop over a sub-resource, whose handler raises
    again what the blocks do not swallow. *)
Lemma refusal_fatal_block fuel url (body : value -> M unit) handler st :
  (forall row st', requests (trace (body row st')) = []) ->
  (forall code content st', trace (handler code content st') = []) ->
  (forall code content st',
     ~ recovered CONFIG url code ->
     outcome (handler code content st') = Raise (HTTPError code content)) ->
  refusal_fatal CONFIG request
    (try_except_HTTPError
       (u <- lift (Ok url) ;; for_each (gen_request request fuel u None) body)
       handler st).
Proof.
  intros Hbody Htrace Hraise u p code content Hin Hreq Hnr.
  assert (Hloop : refusal_fatal CONFIG request
                    (for_each (gen_request request fuel url None) body st)).
  { unfold for_each. apply refusal_fatal_for_each_items.
    - intros row st'. apply refusal_fatal_quiet, Hbody.
    - apply gen_request_refusal_ends. }
  assert (Hsite : Forall (fun r => fst r = url /\ paging_only (snd r))
                    (requests (trace (for_each (gen_request request fuel url None)
                                        body st)))).
  { unfold for_each. apply for_each_items_requests.
    - intros row st'. rewrite Hbody. constructor.
    - apply gen_request_paging_only. }
  rewrite trace_try_except, requests_app in Hin.
  rewrite outcome_try_except.
  rewrite trace_bind, outcome_bind in *.
  cbn [lift trace outcome final_state fst snd app] in *.
  assert (Hin' : In (u, p) (requests (trace (for_each (gen_request request fuel url None)
                                               body st)))).
  { apply in_app_or in Hin. destruct Hin as [Hin|Hin]; [exact Hin|].
    destruct (outcome (for_each (gen_request request fuel url None) body st))
      as [a|e|]; try (elim Hin).
    destruct e; try (elim Hin). rewrite Htrace in Hin. elim Hin. }
  rewrite Forall_forall in Hsite. destruct (Hsite (u, p) Hin') as [Hu _].
  cbn [fst] in Hu. subst u.
  rewrite (Hloop url p code content Hin' Hreq Hnr). now apply Hraise.
Qed.

Lemma refusal_fatal_sync_conversations fuel bookmark start id st :
  refusal_fatal CONFIG request
    (sync_conversations CONFIG request fuel bookmark start id st).
Proof.
  unfold sync_conversations. rewrite get_url_sub_ticket.
  apply refusal_fatal_block.
  - intros row st'. apply sub_row_requests.
  - intros code content st'. now destruct (code =? 403).
  - intros code content st' Hnr. destruct (code =? 403) eqn:E; [|reflexivity].
    apply Z.eqb_eq in E. elim Hnr. left. split; [exact E|].
    exists id, "conversations". split; [simpl; tauto | reflexivity].
Qed.

Lemma refusal_fatal_sync_satisfaction_ratings fuel bookmark start id st :
  refusal_fatal CONFIG request
    (sync_satisfaction_ratings CONFIG request fuel bookmark start id st).
Proof.
  unfold sync_satisfaction_ratings. rewrite get_url_sub_ticket.
  apply refusal_fatal_block.
  - intros row st'. apply ratings_row_requests.
  - intros code content st'. now destruct (code =? 403).
  - intros code content st' Hnr. destruct (code =? 403) eqn:E; [|reflexivity].
    apply Z.eqb_eq in E. elim Hnr. left. split; [exact E|].
    exists id, "satisfaction_ratings". split; [simpl; tauto | reflexivity].
Qed.

Lemma refusal_fatal_sync_time_entries fuel bookmark start id st :
  refusal_fatal CONFIG request
    (sync_time_entries CONFIG request fuel bookmark start id st).
Proof.
  unfold sync_time_entries. rewrite get_url_sub_ticket.
  apply refusal_fatal_block.
  - intros row st'. apply sub_row_requests.
  - intros code content st'. destruct (code =? 403); [reflexivity|].
    now destruct (code =? 404).
  - intros code content st' Hnr. destruct (code =? 403) eqn:E.
    + apply Z.eqb_eq in E. elim Hnr. left. split; [exact E|].
      exists id, "time_entries". split; [simpl; tauto | reflexivity].
    + destruct (code =? 404) eqn:E'; [|reflexivity].
      apply Z.eqb_eq in E'. elim Hnr. right. split; [exact E'|]. now exists id.
Qed.

Lemma refusal_fatal_sync_ticket fuel bookmark start state_entity row st :
  refusal_fatal CONFIG request
    (sync_ticket CONFIG request fuel bookmark start state_entity row st).
Proof.
  set (P := fun tr : list event => requests tr = []).
  assert (Pnil : P []) by reflexivity.
  assert (Papp : forall a b, P a -> P b -> P (a ++ b)%list).
  { intros a b Ha Hb. unfold P in *. now rewrite requests_app, Ha, Hb. }
  unfold sync_ticket.
  apply refusal_fatal_bind;
    [apply refusal_fatal_quiet, (as_dict_trace P Pnil) | intros d st1].
  apply refusal_fatal_bind;
    [apply refusal_fatal_quiet, (getitem_trace P Pnil) | intros id st2].
  apply refusal_fatal_bind;
    [apply refusal_fatal_quiet, (getitem_trace P Pnil) | intros cf st3].
  apply refusal_fatal_bind; [now apply refusal_fatal_quiet | intros cf' st4].
  apply refusal_fatal_bind; [apply refusal_fatal_sync_conversations | intros _ st5].
  apply refusal_fatal_bind; [apply refusal_fatal_sync_satisfaction_ratings | intros _ st6].
  apply refusal_fatal_bind; [apply refusal_fatal_sync_time_entries | intros _ st7].
  apply refusal_fatal_bind;
    [apply refusal_fatal_quiet, (getitem_trace P Pnil) | intros b st8].
  apply refusal_fatal_bind; [now apply refusal_fatal_quiet | intros _ st9].
  apply refusal_fatal_bind; [now apply refusal_fatal_quiet | intros _ st10].
  now apply refusal_fatal_quiet.
Qed.

Lemma refusal_fatal_sync_tickets_by_filter fuel bookmark predefined_filter st :
  refusal_fatal CONFIG request
    (sync_tickets_by_filter CONFIG request fuel bookmark predefined_filter st).
Proof.
  unfold sync_tickets_by_filter.
  apply refusal_fatal_bind; [now apply refusal_fatal_quiet | intros STATE st1].
  apply refusal_fatal_bind; [now apply refusal_fatal_quiet | intros url st2].
  unfold for_each. apply refusal_fatal_for_each_items.
  - intros row st'. apply refusal_fatal_sync_ticket.
  - apply gen_request_refusal_ends.
Qed.

Lemma refusal_fatal_sync_tickets fuel st :
  refusal_fatal CONFIG request (sync_tickets CONFIG request fuel st).
Proof.
  unfold sync_tickets.
  apply refusal_fatal_bind; [now apply refusal_fatal_quiet | intros _ st1].
  apply refusal_fatal_bind; [now apply refusal_fatal_quiet | intros _ st2].
  apply refusal_fatal_bind; [now apply refusal_fatal_quiet | intros _ st3].
  apply refusal_fatal_bind; [now apply refusal_fatal_quiet | intros _ st4].
  apply refusal_fatal_bind; [apply refusal_fatal_sync_tickets_by_filter | intros _ st5].
  apply refusal_fatal_bind; [apply refusal_fatal_sync_tickets_by_filter | intros _ st6].
  apply refusal_fatal_sync_tickets_by_filter.
Qed.

Lemma refusal_fatal_sync_time_filtered fuel entity st :
  refusal_fatal CONFIG request (sync_time_filtered CONFIG request fuel entity st).
Proof.
  unfold sync_time_filtered.
  apply refusal_fatal_bind; [now apply refusal_fatal_quiet | intros _ st1].
  apply refusal_fatal_bind; [now apply refusal_fatal_quiet | intros STATE st2].
  apply refusal_fatal_bind; [now apply refusal_fatal_quiet | intros url st3].
  apply refusal_fatal_bind; [|intros _ st4; now apply refusal_fatal_quiet].
  unfold for_each. apply refusal_fatal_for_each_items.
  - intros row st'. apply refusal_fatal_quiet, sync_row_requests.
  - apply gen_request_refusal_ends.
Qed.

Lemma refusal_fatal_when (b : bool) (m : M unit) st :
  refusal_fatal CONFIG request (m st) -> refusal_fatal CONFIG request (when b m st).
Proof. intros Hm. destruct b; [exact Hm | now apply refusal_fatal_quiet]. Qed.

(** A refusal that no block swallows ends [do_sync] with exit status 1. *)
Lemma do_sync_refusal fuel st u p code content :
  In (u, p) (requests (trace (do_sync CONFIG request fuel st))) ->
  request u p = Raise (HTTPError code content) ->
  ~ recovered CONFIG u code ->
  outcome (do_sync CONFIG request fuel st) = Raise (SystemExit 1).
Proof.
  destruct (selected_streams CONFIG) as [l|e|] eqn:Hsel.
  - destruct (do_sync_run CONFIG request fuel st l Hsel)
      as (inner & Hinner & Htrace & Houtcome).
    rewrite Htrace, Houtcome. intros Hin Hreq Hnr.
    assert (H : refusal_fatal CONFIG request (inner st)).
    { subst inner.
      apply refusal_fatal_bind;
        [apply refusal_fatal_when, refusal_fatal_sync_tickets | intros _ st1].
      apply refusal_fatal_bind;
        [apply refusal_fatal_when, refusal_fatal_sync_time_filtered | intros _ st2].
      apply refusal_fatal_bind;
        [apply refusal_fatal_when, refusal_fatal_sync_time_filtered | intros _ st3].
      apply refusal_fatal_bind;
        [apply refusal_fatal_when, refusal_fatal_sync_time_filtered | intros _ st4].
      apply refusal_fatal_bind;
        [apply refusal_fatal_when, refusal_fatal_sync_time_filtered | intros _ st5].
      apply refusal_fatal_when, refusal_fatal_sync_time_filtered. }
    now rewrite (H u p code content Hin Hreq Hnr).
  - unfold do_sync. rewrite trace_bind. unfold lift at 1 2. rewrite Hsel.
    cbn [trace outcome final_state fst snd app requests]. intros [].
  - unfold do_sync. rewrite trace_bind. unfold lift at 1 2. rewrite Hsel.
    cbn [trace outcome final_state fst snd app requests]. intros [].
Qed.

End Refusals.

(* ================================================================== *)
(** * Sub-resource isolation *)
(* ================================================================== *)

Lemma Forall2_eq_refl {X} (l : list X) : Forall2 (fun row r => r = row) l l.
Proof. induction l; constructor; auto. Qed.

(** C4, as stated, fails: a fetch refused with 403 at its second page is
    recovered, and the records of the first page have been emitted for
    that sub-resource. *)
Lemma refused_later_page_keeps_records :
  let fetch := gen_request late_refusal_api 5
                 (sub_url example_config (VInt 7) "conversations") None in
  let block := sync_conversations example_config late_refusal_api 5 "updated_at"
                 (VStr "2020-01-01T00:00:00Z") (VInt 7) [] in
  let run := sync_tickets_by_filter example_config late_refusal_api 5 "updated_at"
               None [] in
  snd fetch = Raise (HTTPError 403 "refused") /\
  outcome block = Ok tt /\
  records_of "conversations" (trace block) = conversations100 /\
  outcome run = Ok tt /\
  List.length (records_of "conversations" (trace run)) = 100%nat /\
  List.length (records_of "tickets" (trace run)) = 1%nat.
Proof. vm_compute. repeat split; reflexivity. Qed.

(** C4, amended.  While one ticket is synced, a 403 answer to the fetch of
    any of its three sub-resources, and a 404 answer to the fetch of its
    time entries, is recovered locally: the block of that sub-resource ends
    normally (unless a row raised before), it has emitted the rows the
    fetch had yielded before the refusal that pass the comparison with the
    starting watermark, nothing when the fetch is refused at its first
    request, and it leaves the state alone; when the three blocks end
    normally the ticket is emitted after the records of the sub-resources
    and the loop goes on.  Any other [HTTPError] of a sub-resource fetch
    leaves the block and the ticket is not emitted; whatever the ticket and
    whatever the pass, a request for a sub-resource that is refused that
    way ends the pass with that error and the run with exit status 1. *)
Theorem sub_resource_isolation
    (CONFIG : config) (request : string -> dict -> result (list value))
    (fuel : nat) (bookmark_property : string) (start : value) (state_entity : string)
    (d : dict) (id : value) (d' : dict) (v : value) (STATE : dict) :
  (0 < fuel)%nat ->
  dict_get d "id" = Some id ->
  ticket_record d = Some d' ->
  dict_get d' bookmark_property = Some v ->
  let conversations := sync_conversations CONFIG request fuel bookmark_property start id in
  let ratings := sync_satisfaction_ratings CONFIG request fuel bookmark_property start id in
  let entries := sync_time_entries CONFIG request fuel bookmark_property start id in
  let blocks := [("conversations", conversations);
                 ("satisfaction_ratings", ratings);
                 ("time_entries", entries)] in
  let c := conversations STATE in
  let s := ratings (final_state c) in
  let t := entries (final_state s) in
  let ticket := sync_ticket CONFIG request fuel bookmark_property start state_entity
                  (VDict d) STATE in
  (forall entity block code content st,
     In (entity, block) blocks ->
     code = 403 \/ (entity = "time_entries" /\ code = 404) ->
     (request (sub_url CONFIG id entity) (page_params None 1)
        = Raise (HTTPError code content) ->
      block st = (Ok tt, st,
                  [EvRequest (sub_url CONFIG id entity) (page_params None 1)])) /\
     (snd (gen_request request fuel (sub_url CONFIG id entity) None)
        = Raise (HTTPError code content) ->
      outcome (block st) = Ok tt \/
      exists e, outcome (block st) = Raise e /\ is_HTTPError e = false)) /\
  (forall entity block st,
     In (entity, block) blocks ->
     bookmark_property <> "ratings" ->
     final_state (block st) = st /\
     (outcome (block st) = Ok tt ->
      Forall2 (sub_emitted_as entity)
        (filter (passes bookmark_property start)
           (yielded (fst (gen_request request fuel (sub_url CONFIG id entity) None))))
        (records_of entity (trace (block st))))) /\
  (outcome c = Ok tt -> outcome s = Ok tt -> outcome t = Ok tt ->
   ticket =
     (Ok tt, update_state (final_state t) state_entity v,
      (trace c ++ trace s ++ trace t ++
       [EvUpdateState state_entity v;
        EvWriteRecord "tickets" (VDict d');
        EvWriteState (update_state (final_state t) state_entity v)])%list)) /\
  (forall entity block code content st,
     In (entity, block) blocks ->
     code <> 403 ->
     ~ (entity = "time_entries" /\ code = 404) ->
     (request (sub_url CONFIG id entity) (page_params None 1)
        = Raise (HTTPError code content) ->
      block st = (Raise (HTTPError code content), st,
                  [EvRequest (sub_url CONFIG id entity) (page_params None 1)])) /\
     (snd (gen_request request fuel (sub_url CONFIG id entity) None)
        = Raise (HTTPError code content) ->
      exists e, outcome (block st) = Raise e /\
                (e = HTTPError code content \/ is_HTTPError e = false))) /\
  (forall e,
     outcome c = Raise e \/
     (outcome c = Ok tt /\ outcome s = Raise e) \/
     (outcome c = Ok tt /\ outcome s = Ok tt /\ outcome t = Raise e) ->
     outcome ticket = Raise e /\ records_of "tickets" (trace ticket) = []) /\
  (forall l rest code content,
     selected_streams CONFIG = Ok l ->
     In "tickets" l ->
     bookmark_property = "updated_at" ->
     start = get_start CONFIG STATE "tickets" ->
     state_entity = "tickets" ->
     tickets_listing CONFIG request fuel "updated_at" None STATE = VDict d :: rest ->
     outcome ticket = Raise (HTTPError code content) ->
     outcome (do_sync CONFIG request fuel STATE) = Raise (SystemExit 1)) /\
  (forall predefined_filter ticket_id entity p code content,
     let pass := sync_tickets_by_filter CONFIG request fuel bookmark_property
                   predefined_filter STATE in
     In entity ["conversations"; "satisfaction_ratings"; "time_entries"] ->
     In (sub_url CONFIG ticket_id entity, p) (requests (trace pass)) ->
     request (sub_url CONFIG ticket_id entity) p = Raise (HTTPError code content) ->
     code <> 403 ->
     ~ (entity = "time_entries" /\ code = 404) ->
     outcome pass = Raise (HTTPError code content)) /\
  (forall ticket_id entity p code content,
     let run := do_sync CONFIG request fuel STATE in
     In entity ["conversations"; "satisfaction_ratings"; "time_entries"] ->
     In (sub_url CONFIG ticket_id entity, p) (requests (trace run)) ->
     request (sub_url CONFIG ticket_id entity) p = Raise (HTTPError code content) ->
     code <> 403 ->
     ~ (entity = "time_entries" /\ code = 404) ->
     outcome run = Raise (SystemExit 1)) /\
  (let run := sync_tickets_by_filter example_config example_api 5 "updated_at" None [] in
   let failed := do_sync (selecting ["tickets"; "contacts"]) broken_api 5 [] in
   outcome run = Ok tt /\
   records_of "conversations" (trace run) = [conversation_new] /\
   records_of "satisfaction_ratings" (trace run) = [] /\
   records_of "time_entries" (trace run) = [time_entry1] /\
   List.length (records_of "tickets" (trace run)) = 1%nat /\
   outcome failed = Raise (SystemExit 1) /\
   records_of "tickets" (trace failed) = [] /\
   records_of "contacts" (trace failed) = []).
Proof.
  intros Hfuel Hid Hrec Hv.
  pose proof (sub_resource_blocks CONFIG request fuel bookmark_property start
                state_entity d id d' v STATE Hfuel Hid Hrec Hv) as H.
  cbv zeta in H |- *. destruct H as (H1 & H2 & H3 & H4 & H5 & H6).
  split; [exact H1|]. split; [|split; [exact H2|]].
  - intros entity block st Hin Hne.
    destruct Hin as [E|[E|[E|[]]]]; inversion E; subst entity block; clear E.
    + destruct (sync_conversations_emits CONFIG request fuel bookmark_property start id st)
        as [Hst Hok]. cbv zeta in Hok.
      split; [exact Hst|]. intros Ho. rewrite (Hok Ho). apply Forall2_eq_refl.
    + destruct (sync_satisfaction_ratings_emits CONFIG request fuel bookmark_property
                  start id st Hne) as [Hst Hok]. cbv zeta in Hok.
      split; [exact Hst|]. intros Ho. now destruct (Hok Ho).
    + destruct (sync_time_entries_emits CONFIG request fuel bookmark_property start id st)
        as [Hst Hok]. cbv zeta in Hok.
      split; [exact Hst|]. intros Ho. rewrite (Hok Ho). apply Forall2_eq_refl.
  - split; [exact H3|]. split; [exact H4|]. split; [exact H5|].
    split; [|split; [|exact H6]].
    + intros predefined_filter ticket_id entity p code content Hin Hreq Hraise H403 H404.
      apply (refusal_fatal_sync_tickets_by_filter CONFIG request fuel bookmark_property
               predefined_filter STATE _ p code content Hreq Hraise).
      now apply not_recovered_sub_url.
    + intros ticket_id entity p code content Hin Hreq Hraise H403 H404.
      apply (do_sync_refusal CONFIG request fuel STATE _ p code content Hreq Hraise).
      now apply not_recovered_sub_url.
Qed.

Lemma sub_resource_isolation_witness :
  outcome (sync_ticket example_config example_api 5 "updated_at"
             (VStr "2020-01-01T00:00:00Z") "tickets" ticket7 []) = Ok tt /\
  records_of "tickets"
    (trace (sync_ticket example_config example_api 5 "updated_at"
              (VStr "2020-01-01T00:00:00Z") "tickets" ticket7 [])) =
    [VDict [("id", VInt 7);
            ("custom_fields",
             VList [VDict [("name", VStr "cf_color"); ("value", VStr "true")];
                    VDict [("name", VStr "cf_size"); ("value", VStr "10")]]);
            ("updated_at", VStr "2019-06-01T00:00:00Z")]].
Proof.
  assert (Hfuel : (0 < 5)%nat) by lia.
  pose proof (proj1 (proj2 (proj2
                (sub_resource_isolation example_config example_api 5
                              "updated_at" (VStr "2020-01-01T00:00:00Z") "tickets"
                              [("id", VInt 7);
                               ("attachments", VList []);
                               ("custom_fields",
                                VDict [("cf_color", VBool true); ("cf_size", VStr "10")]);
                               ("updated_at", VStr "2019-06-01T00:00:00Z")]
                              (VInt 7)
                              [("id", VInt 7);
                               ("custom_fields",
                                VList [VDict [("name", VStr "cf_color");
                                              ("value", VStr "true")];
                                       VDict [("name", VStr "cf_size");
                                              ("value", VStr "10")]]);
                               ("updated_at", VStr "2019-06-01T00:00:00Z")]
                              (VStr "2019-06-01T00:00:00Z") []
                              Hfuel eq_refl eq_refl eq_refl)))
                eq_refl eq_refl eq_refl) as H.
  change (VDict [("id", VInt 7);
                 ("attachments", VList []);
                 ("custom_fields",
                  VDict [("cf_color", VBool true); ("cf_size", VStr "10")]);
                 ("updated_at", VStr "2019-06-01T00:00:00Z")]) with ticket7 in H.
  rewrite H. split; reflexivity.
Defined.

(* ================================================================== *)
(** * Further properties: the exit status of a run *)
(* ================================================================== *)

(** X12.  [do_sync] turns an [HTTPError] into [SystemExit(1)]: it never
    ends with an [HTTPError], and a request of the run refused with an
    [HTTPError] that no block swallows (any status but a 403 on a
    sub-resource of a ticket or a 404 on its time entries; any status at
    all on the listing of an entity) ends the run with exit status 1. *)
Theorem do_sync_turns_HTTPError_into_exit
    (CONFIG : config) (request : string -> dict -> result (list value))
    (fuel : nat) (STATE : dict) :
  let run := do_sync CONFIG request fuel STATE in
  (forall code content, outcome run <> Raise (HTTPError code content)) /\
  (forall u p code content,
     In (u, p) (requests (trace run)) ->
     request u p = Raise (HTTPError code content) ->
     ~ recovered CONFIG u code ->
     outcome run = Raise (SystemExit 1)) /\
  (forall entity p code content,
     In entity stream_order ->
     In (BASE_URL (domain CONFIG) ++ "/api/v2/" ++ entity, p) (requests (trace run)) ->
     request (BASE_URL (domain CONFIG) ++ "/api/v2/" ++ entity) p
       = Raise (HTTPError code content) ->
     outcome run = Raise (SystemExit 1)).
Proof.
  cbv zeta. split; [|split].
  - intros code content.
    destruct (selected_streams CONFIG) as [l|e|] eqn:Hsel.
    + destruct (do_sync_run CONFIG request fuel STATE l Hsel) as (inner & _ & _ & Ho).
      rewrite Ho. destruct (outcome (inner STATE)) as [[]|e|]; try discriminate.
      destruct e; discriminate.
    + pose proof (selected_streams_raises CONFIG e Hsel) as He.
      unfold do_sync. rewrite outcome_bind. unfold lift at 1 2. rewrite Hsel.
      cbn [outcome fst]. subst e. discriminate.
    + unfold do_sync. rewrite outcome_bind. unfold lift at 1 2. rewrite Hsel.
      discriminate.
  - apply do_sync_refusal.
  - intros entity p code content Hin Hreq Hraise.
    apply (do_sync_refusal CONFIG request fuel STATE _ p code content Hreq Hraise).
    now apply not_recovered_listing.
Qed.

Lemma do_sync_turns_HTTPError_into_exit_witness :
  outcome (do_sync (selecting ["tickets"; "contacts"]) broken_api 5 [])
    = Raise (SystemExit 1).
Proof.
  apply (proj1 (proj2 (do_sync_turns_HTTPError_into_exit
                         (selecting ["tickets"; "contacts"]) broken_api 5 []))
           "https://acme.freshdesk.com/api/v2/tickets/7/time_entries"
           [("per_page", VInt 100); ("page", VInt 1)] 500 "").
  - vm_compute. repeat (first [left; reflexivity | right]).
  - reflexivity.
  - apply (not_recovered_sub_url (selecting ["tickets"; "contacts"]) (VInt 7)
             "time_entries").
    + simpl. tauto.
    + discriminate.
    + intros [_ H]. discriminate H.
Defined.

(* ================================================================== *)
(** * Further properties: the state a sync persists *)
(* ================================================================== *)

Section StateInvariant.

Variable R : dict -> dict -> list event -> Prop.
Hypothesis R_nil : forall st, R st st [].
Hypothesis R_comp :
  forall st st1 st2 tr1 tr2,
    R st st1 tr1 -> R st1 st2 tr2 -> R st st2 (tr1 ++ tr2)%list.

Lemma keeps_bind {A B} (m : M A) (f : A -> M B) :
  keeps R m -> (forall a, keeps R (f a)) -> keeps R (bind m f).
Proof.
  intros Hm Hf st. rewrite final_state_bind, trace_bind.
  destruct (outcome (m st)) as [a|e|].
  - apply (R_comp _ _ _ _ _ (Hm st)), Hf.
  - rewrite app_nil_r. apply Hm.
  - rewrite app_nil_r. apply Hm.
Qed.

Lemma keeps_try_except (m : M unit) handler :
  keeps R m -> (forall status content, keeps R (handler status content)) ->
  keeps R (try_except_HTTPError m handler).
Proof.
  intros Hm Hh st. rewrite final_state_try_except, trace_try_except.
  destruct (outcome (m st)) as [a|e|]; try (rewrite app_nil_r; apply Hm).
  destruct e; try (rewrite app_nil_r; apply Hm).
  apply (R_comp _ _ _ _ _ (Hm st)), Hh.
Qed.

Lemma keeps_quiet {A} (m : M A) :
  (forall st, final_state (m st) = st /\ trace (m st) = []) -> keeps R m.
Proof. intros H st. destruct (H st) as [-> ->]. apply R_nil. Qed.

Lemma keeps_lift {A} (r : result A) : keeps R (lift r).
Proof. apply keeps_quiet. now split. Qed.

Lemma keeps_ret {A} (a : A) : keeps R (ret a).
Proof. apply keeps_quiet. now split. Qed.

Lemma keeps_raise {A} e : keeps R (@raise A e).
Proof. apply keeps_quiet. now split. Qed.

Lemma keeps_getitem d k : keeps R (getitem d k).
Proof. apply keeps_quiet. intros st. unfold getitem. now destruct (dict_get d k). Qed.

Lemma keeps_as_dict row : keeps R (as_dict row).
Proof. apply keeps_quiet. intros st. now destruct row. Qed.

Lemma keeps_read_state : keeps R read_state.
Proof. apply keeps_quiet. now split. Qed.

Hypothesis R_event :
  forall st e,
    match e with
    | EvUpdateState _ _ | EvWriteState _ => False
    | _ => True
    end ->
    R st st [e].

Lemma keeps_emit e :
  match e with
  | EvUpdateState _ _ | EvWriteState _ => False
  | _ => True
  end ->
  keeps R (emit e).
Proof. intros He st. now apply R_event. Qed.

Lemma keeps_for_each_items (body : value -> M unit) :
  (forall row, keeps R (body row)) ->
  forall items fin, keeps R (for_each_items items fin body).
Proof.
  intros Hbody. induction items as [|[u p|row] items IH]; intros fin; cbn [for_each_items].
  - apply keeps_lift.
  - apply keeps_bind; [now apply keeps_emit | intros _; apply IH].
  - apply keeps_bind; [apply Hbody | intros _; apply IH].
Qed.

Section Blocks.

Variable CONFIG : config.
Variable request : string -> dict -> result (list value).

Lemma keeps_sub_row stream bookmark start subrow :
  keeps R (subrow <- as_dict subrow ;;
           b <- getitem subrow bookmark ;;
           keep <- lift (ge b start) ;;
           if keep : bool then write_record stream subrow else ret tt).
Proof.
  apply keeps_bind; [apply keeps_as_dict | intros d].
  apply keeps_bind; [apply keeps_getitem | intros b].
  apply keeps_bind; [apply keeps_lift | intros [|]];
    [now apply keeps_emit | apply keeps_ret].
Qed.

Lemma keeps_sync_conversations fuel bookmark start id :
  keeps R (sync_conversations CONFIG request fuel bookmark start id).
Proof.
  unfold sync_conversations. apply keeps_try_except.
  - apply keeps_bind; [apply keeps_lift | intros url].
    apply keeps_for_each_items. intros row. apply keeps_sub_row.
  - intros status content. destruct (status =? 403); [apply keeps_ret | apply keeps_raise].
Qed.

Lemma keeps_sync_satisfaction_ratings fuel bookmark start id :
  keeps R (sync_satisfaction_ratings CONFIG request fuel bookmark start id).
Proof.
  unfold sync_satisfaction_ratings. apply keeps_try_except.
  - apply keeps_bind; [apply keeps_lift | intros url].
    apply keeps_for_each_items. intros row.
    apply keeps_bind; [apply keeps_as_dict | intros d].
    apply keeps_bind; [apply keeps_getitem | intros r].
    apply keeps_bind; [apply keeps_lift | intros r'].
    apply keeps_bind; [apply keeps_getitem | intros b].
    apply keeps_bind; [apply keeps_lift | intros [|]];
      [now apply keeps_emit | apply keeps_ret].
  - intros status content. destruct (status =? 403); [apply keeps_ret | apply keeps_raise].
Qed.

Lemma keeps_sync_time_entries fuel bookmark start id :
  keeps R (sync_time_entries CONFIG request fuel bookmark start id).
Proof.
  unfold sync_time_entries. apply keeps_try_except.
  - apply keeps_bind; [apply keeps_lift | intros url].
    apply keeps_for_each_items. intros row. apply keeps_sub_row.
  - intros status content. destruct (status =? 403); [apply keeps_ret|].
    destruct (status =? 404); [apply keeps_ret | apply keeps_raise].
Qed.

(** The pass over the tickets, from the end of the body of its loop:
    advance, emit, write the state. *)
Lemma keeps_sync_tickets_by_filter fuel bookmark predefined_filter :
  (forall (row : dict) b,
     keeps R (do_update_state (ticket_namespace predefined_filter) b ;;
              write_record "tickets" row ;;
              write_state)) ->
  keeps R (sync_tickets_by_filter CONFIG request fuel bookmark predefined_filter).
Proof.
  intros Htail. unfold sync_tickets_by_filter.
  apply keeps_bind; [apply keeps_read_state | intros STATE].
  apply keeps_bind; [apply keeps_lift | intros url].
  apply keeps_for_each_items. intros row.
  fold (ticket_namespace predefined_filter). unfold sync_ticket.
  apply keeps_bind; [apply keeps_as_dict | intros d].
  apply keeps_bind; [apply keeps_getitem | intros id].
  apply keeps_bind; [apply keeps_getitem | intros cf].
  apply keeps_bind; [apply keeps_lift | intros cf'].
  apply keeps_bind; [apply keeps_sync_conversations | intros _].
  apply keeps_bind; [apply keeps_sync_satisfaction_ratings | intros _].
  apply keeps_bind; [apply keeps_sync_time_entries | intros _].
  apply keeps_bind; [apply keeps_getitem | intros b].
  apply Htail.
Qed.

End Blocks.

End StateInvariant.

Lemma last_write_is_state_comp st st1 st2 tr1 tr2 :
  last_write_is_state st st1 tr1 -> last_write_is_state st1 st2 tr2 ->
  last_write_is_state st st2 (tr1 ++ tr2).
Proof.
  unfold last_write_is_state. rewrite state_writes_app.
  intros H1 [[H2 ->]|(ws2 & H2)]; rewrite H2.
  - now rewrite app_nil_r.
  - right. exists (state_writes tr1 ++ ws2)%list. now rewrite app_assoc.
Qed.

Lemma own_watermark_only_comp ns st st1 st2 tr1 tr2 :
  own_watermark_only ns st st1 tr1 -> own_watermark_only ns st1 st2 tr2 ->
  own_watermark_only ns st st2 (tr1 ++ tr2).
Proof.
  unfold own_watermark_only. rewrite state_writes_app.
  intros [H1 W1] [H2 W2]. split.
  - intros other Hne. now rewrite H2, H1.
  - apply Forall_app. split; [exact W1|].
    eapply Forall_impl; [|exact W2]. cbn beta.
    intros w Hw other Hne. now rewrite Hw, H1.
Qed.

(** What a pass over the tickets persists. *)
Lemma sync_tickets_by_filter_snapshots
    (CONFIG : config) (request : string -> dict -> result (list value))
    (fuel : nat) (bookmark : string) (predefined_filter : option string) :
  keeps last_write_is_state
    (sync_tickets_by_filter CONFIG request fuel bookmark predefined_filter) /\
  keeps (own_watermark_only (ticket_namespace predefined_filter))
    (sync_tickets_by_filter CONFIG request fuel bookmark predefined_filter).
Proof.
  split.
  - apply keeps_sync_tickets_by_filter.
    + intros st. left. now split.
    + apply last_write_is_state_comp.
    + intros st e He. left. split; [|reflexivity]. now destruct e.
    + intros row b st. right. now exists [].
  - apply keeps_sync_tickets_by_filter.
    + intros st. split; [reflexivity | constructor].
    + apply own_watermark_only_comp.
    + intros st e He. split; [reflexivity|]. destruct e; try constructor; elim He.
    + intros row b st. split.
      * intros other Hne. apply update_state_other. congruence.
      * constructor; [|constructor]. intros other Hne.
        apply update_state_other. congruence.
Qed.

(** X17.  What a sync persists.  A pass over the tickets persists every
    advance it makes: either it writes no state and leaves the state as it
    found it, or the last snapshot it wrote is the state it leaves, however
    it ends.  Every snapshot a pass or a flat sync writes holds, under
    every namespace but its own, what the starting state holds, and the
    snapshot of a flat sync that emitted no record is the starting state
    itself. *)
Theorem sync_persisted_state
    (CONFIG : config) (request : string -> dict -> result (list value))
    (fuel : nat) (STATE : dict) :
  (forall bookmark_property predefined_filter,
     let x := sync_tickets_by_filter CONFIG request fuel bookmark_property
                predefined_filter STATE in
     ((state_writes (trace x) = [] /\ final_state x = STATE) \/
      exists ws, state_writes (trace x) = (ws ++ [final_state x])%list) /\
     (forall w other,
        In w (state_writes (trace x)) ->
        other <> ticket_namespace predefined_filter ->
        dict_get w other = dict_get STATE other)) /\
  (forall entity,
     let x := sync_time_filtered CONFIG request fuel entity STATE in
     forall w,
       In w (state_writes (trace x)) ->
       w = final_state x /\
       (forall other, other <> entity -> dict_get w other = dict_get STATE other) /\
       (records_of entity (trace x) = [] -> w = STATE)).
Proof.
  split.
  - intros bookmark_property predefined_filter. cbv zeta.
    destruct (sync_tickets_by_filter_snapshots CONFIG request fuel bookmark_property
                predefined_filter) as [HJ HK].
    split; [exact (HJ STATE)|].
    intros w other Hin Hne. destruct (HK STATE) as [_ HW].
    rewrite Forall_forall in HW. now apply HW.
  - intros entity. cbv zeta. intros w Hin.
    destruct (flat_sync_state_writes CONFIG request fuel entity STATE) as [Hws _].
    cbv zeta in Hws. rewrite Hws in Hin.
    assert (Hw : w = final_state (sync_time_filtered CONFIG request fuel entity STATE)).
    { destruct (outcome (sync_time_filtered CONFIG request fuel entity STATE))
        as [a|e|]; [|elim Hin|elim Hin].
      destruct Hin as [<-|[]]. reflexivity. }
    split; [exact Hw|]. rewrite Hw.
    rewrite (tracks_sync_time_filtered CONFIG request fuel entity STATE).
    pose proof (sync_time_filtered_trace CONFIG request fuel entity STATE) as Hate.
    split.
    + intros other Hne. apply replay_frame.
      now apply (advance_then_emit_other entity entity "updated_at").
    + now destruct (advance_then_emit_replay entity entity "updated_at" _ Hate STATE).
Qed.

Lemma sync_persisted_state_witness :
  ((state_writes (trace (sync_tickets_by_filter example_config example_api 5 "updated_at"
                           None [])) = [] /\
    final_state (sync_tickets_by_filter example_config example_api 5 "updated_at"
                   None []) = []) \/
   exists ws,
     state_writes (trace (sync_tickets_by_filter example_config example_api 5
                            "updated_at" None [])) =
     (ws ++ [final_state (sync_tickets_by_filter example_config example_api 5
                            "updated_at" None [])])%list) /\
  state_writes (trace (sync_tickets_by_filter example_config example_api 5 "updated_at"
                         None [])) = [[("tickets", VStr "2019-06-01T00:00:00Z")]].
Proof.
  split.
  - apply (proj1 (proj1 (sync_persisted_state example_config example_api 5 [])
                    "updated_at" None)).
  - reflexivity.
Defined.
